(** * Fork choice (proto-array), epoch metrics and attester slashing protection

    A shallow embedding of
      - beacon-chain/forkchoice/protoarray/store.go  (ForkChoice: New, Head,
        ProcessAttestation, Prune),
      - beacon-chain/blockchain/forkchoice/metrics.go (reportEpochMetrics),
      - the validator client's attestation history (isNewAttSlashable,
        markAttestationForTargetEpoch, safeTargetToSource), its duties and
        attestation log (duty, saveAttesterIndexToData) and SubmitAttestation,
      - the setters of the beacon state and recomputeRoot,
      - the rpc server's ListValidatorBalances,
    and the properties of these functions.

    Conventions.  A uint64 is a [Z] in [0, 2^64); the places where the code
    converts to [int] or adds two uint64 have the wrap-around written out.  A
    slice is a [list], indexed by [nat]; a Go map is a [gmap].  The nodes of
    the Merkle trie of the beacon state, to which recomputeRoot appends, are
    byte slices into the arrays of a heap, with their capacity.  A [32]byte root
    is the 256-bit integer it encodes (big-endian), so the zero hash is [0].
    A method with a pointer receiver returns the updated receiver.  Tracing
    spans and the two Prometheus counters of the protoarray package
    (calledHeadCount, processedAttestationCount) are not part of the
    ForkChoice and are left out. *)

From Stdlib Require Import ZArith QArith Lia Bool List.
From stdpp Require Import base gmap strings list fin_maps.

Local Open Scope Z_scope.

(* ===================================================================== *)
(** * protoarray: the ForkChoice object                                   *)
(* ===================================================================== *)

Module ProtoArray.

Abbreviation Root := Z (only parsing).

(** params.BeaconConfig().ZeroHash: thirty-two zero bytes. *)
Definition ZeroHash : Root := 0.

(** const defaultPruneThreshold = 256 *)
Definition defaultPruneThreshold : Z := 256.

(** Vote: the [currentRoot], [nextRoot] and [nextEpoch] of one validator. *)
Record Vote := mkVote {
  currentRoot : Root;
  nextRoot : Root;
  nextEpoch : Z
}.

(** Modelled from the spec: the Node struct is declared in a file that is not
    among the sources; its fields are those of the spec's "Block node". *)
Record Node := mkNode {
  slot : Z;
  root : Root;
  parent_index : option nat;
  justified_epoch : Z;
  finalized_epoch : Z;
  weight : Z;
  best_child_index : option nat;
  best_descendant_index : option nat
}.

(** Store, with the fields [New] initialises. *)
Record Store := mkStore {
  justifiedEpoch : Z;
  finalizedEpoch : Z;
  finalizedRoot : Root;
  nodes : list Node;
  nodeIndices : gmap Z nat;
  pruneThreshold : Z
}.

Record ForkChoice := mkForkChoice {
  store : Store;
  balances : list Z;
  votes : list Vote
}.

(** Errors: a sentinel of the store, or [errors.Wrap] of one. *)
Inductive error :=
  | UnknownJustifiedRoot
  | InvalidBestDescendant
  | DeltaLengthMismatch
  | IndexOverflow
  | NegativeWeight
  | UnknownFinalizedRoot
  | OtherError (msg : string)
  | Wrap (e : error) (msg : string).

Inductive result (A : Type) :=
  | Ok (a : A)
  | Err (e : error).
Arguments Ok {A} a.
Arguments Err {A} e.

Definition is_Err {A} (r : result A) : bool :=
  match r with Ok _ => false | Err _ => true end.

(** ** New *)

Definition New (justifiedEpoch finalizedEpoch : Z) (finalizedRoot : Root) : ForkChoice :=
  let s := {| justifiedEpoch := justifiedEpoch;
              finalizedEpoch := finalizedEpoch;
              finalizedRoot := finalizedRoot;
              nodes := [];
              nodeIndices := ∅;
              pruneThreshold := defaultPruneThreshold |} in
  let b := @nil Z in
  let v := @nil Vote in
  {| store := s; balances := b; votes := v |}.

(** ** ProcessAttestation *)

Definition zeroVote : Vote :=
  {| currentRoot := ZeroHash; nextRoot := ZeroHash; nextEpoch := 0 |}.

(** The inner loop [for index >= uint64(len(f.votes)) { append }]: one zero
    vote is appended per iteration; [fuel] bounds the number of iterations
    ([S index] is always enough, see [grow_closed_form]). *)
Fixpoint grow (fuel : nat) (index : nat) (vs : list Vote) : list Vote :=
  match fuel with
  | O => vs
  | S k =>
      if (length vs <=? index)%nat then grow k index (vs ++ [zeroVote]) else vs
  end.

(** [newVote]: both root fields are untouched. *)
Definition newVote (v : Vote) : bool :=
  (nextRoot v =? ZeroHash) && (currentRoot v =? ZeroHash).

(** The assignment made when the vote is updated. *)
Definition setNext (blockRoot : Root) (targetEpoch : Z) (v : Vote) : Vote :=
  {| currentRoot := currentRoot v; nextRoot := blockRoot; nextEpoch := targetEpoch |}.

(** One iteration of the outer loop. *)
Definition processIndex (blockRoot : Root) (targetEpoch : Z)
    (vs : list Vote) (index : nat) : list Vote :=
  let vs := grow (S index) index vs in
  match vs !! index with
  | Some v =>
      if newVote v || (nextEpoch v <? targetEpoch)
      then <[index := setNext blockRoot targetEpoch v]> vs
      else vs
  | None => vs
  end.

Definition ProcessAttestation (f : ForkChoice) (validatorIndices : list nat)
    (blockRoot : Root) (targetEpoch : Z) : ForkChoice :=
  {| store := store f;
     balances := balances f;
     votes := foldl (processIndex blockRoot targetEpoch) (votes f) validatorIndices |}.

(** The vote of validator [v]: its entry, or the zero vote an allocation
    would give it when the vector does not reach [v] yet. *)
Definition voteAt (vs : list Vote) (v : nat) : Vote := default zeroVote (vs !! v).

(** What one iteration does to the entry of its index. *)
Definition updated (blockRoot : Root) (targetEpoch : Z) (v : Vote) : Vote :=
  if newVote v || (nextEpoch v <? targetEpoch) then setNext blockRoot targetEpoch v else v.

(** Largest listed index plus one; zero when nothing is listed. *)
Definition needed (validatorIndices : list nat) : nat :=
  foldr (fun i m => Nat.max (S i) m) O validatorIndices.

(** The entry C2 predicts, in the claim's words: updated when the slot is
    allocated by this call or targetEpoch exceeds its nextEpoch. *)
Definition entry_as_claimed (vs : list Vote) (r e : Z) (i : nat) : Vote :=
  let v := voteAt vs i in
  if (length vs <=? i)%nat || (nextEpoch v <? e) then setNext r e v else v.

(** ** The store's operations used by Head

    computeDeltas, applyWeightChanges and head are defined in files of the
    package that are not among the sources. *)

Module StoreModel.

(** A missing balance is zero; a validator without a vote record has the
    zero vote ([voteAt]). *)
Definition balanceAt (bs : list Z) (v : nat) : Z := default 0 (bs !! v).

(** Adds [d] to the delta of the node [r] maps to; an unknown root is
    skipped. *)
Definition addDelta (indices : gmap Z nat) (r : Root) (d : Z) (deltas : list Z) : list Z :=
  match indices !! r with
  | Some i => alter (fun x => x + d) i deltas
  | None => deltas
  end.

Definition deltaStep (indices : gmap Z nat) (vs : list Vote) (oldBalances newBalances : list Z)
    (deltas : list Z) (v : nat) : list Z :=
  let vote := voteAt vs v in
  let old := balanceAt oldBalances v in
  let new := balanceAt newBalances v in
  if negb (currentRoot vote =? nextRoot vote) || negb (old =? new)
  then addDelta indices (nextRoot vote) new
         (addDelta indices (currentRoot vote) (- old) deltas)
  else deltas.

Definition promote (v : Vote) : Vote :=
  {| currentRoot := nextRoot v; nextRoot := nextRoot v; nextEpoch := nextEpoch v |}.

(** Modelled from the spec: computeDeltas is not among the sources.  Spec 4.2:
    deltas start as zeros, one per entry of the index map; for each validator
    up to max(len(votes), len(new_balances)), when the vote moved or the
    balance changed, the old balance is subtracted at the current root and the
    new balance added at the next root, unknown roots being skipped; every
    vote is promoted in the returned vector.  The spec names no failure. *)
Definition computeDeltas (indices : gmap Z nat) (vs : list Vote)
    (oldBalances newBalances : list Z) : result (list Z * list Vote) :=
  let n := Nat.max (length vs) (length newBalances) in
  let deltas := foldl (deltaStep indices vs oldBalances newBalances)
                      (replicate (size indices) 0) (seq 0 n) in
  Ok (deltas, map promote vs).

(** Spec 4.4: a node is viable when its epochs are the store's, or the store
    has no finalized checkpoint yet. *)
Definition viable (s : Store) (n : Node) : bool :=
  ((justified_epoch n =? justifiedEpoch s) && (finalized_epoch n =? finalizedEpoch s))
  || (finalizedEpoch s =? 0).

Definition bestDescendantOf (ns : list Node) (i : nat) : nat :=
  match ns !! i with
  | Some n => default i (best_descendant_index n)
  | None => i
  end.

Definition setBest (bc bd : option nat) (n : Node) : Node :=
  {| slot := slot n; root := root n; parent_index := parent_index n;
     justified_epoch := justified_epoch n; finalized_epoch := finalized_epoch n;
     weight := weight n; best_child_index := bc; best_descendant_index := bd |}.

Definition setWeight (w : Z) (n : Node) : Node :=
  {| slot := slot n; root := root n; parent_index := parent_index n;
     justified_epoch := justified_epoch n; finalized_epoch := finalized_epoch n;
     weight := w; best_child_index := best_child_index n;
     best_descendant_index := best_descendant_index n |}.

(** [c] is preferred to [b]: heavier best descendant, ties broken by the
    larger root. *)
Definition preferred (ns : list Node) (c b : nat) : bool :=
  match ns !! bestDescendantOf ns c, ns !! bestDescendantOf ns b with
  | Some dc, Some db =>
      (weight db <? weight dc) || ((weight dc =? weight db) && (root db <? root dc))
  | _, _ => false
  end.

(** Modelled from the spec: the best-child policy of spec 4.4, for parent [p]
    and candidate child [c]. *)
Definition updateBestChild (s : Store) (ns : list Node) (p c : nat) : list Node :=
  match ns !! p, ns !! c with
  | Some pn, Some cn =>
      let replace := <[p := setBest (Some c) (Some (bestDescendantOf ns c)) pn]> ns in
      match best_child_index pn with
      | None => if viable s cn then replace else ns
      | Some b =>
          let bviable := match ns !! b with Some bn => viable s bn | None => false end in
          match viable s cn, bviable with
          | true, true => if preferred ns c b then replace else ns
          | true, false => replace
          | false, true => ns
          | false, false => <[p := setBest None (Some p) pn]> ns
          end
      end
  | _, _ => ns
  end.

(** Nodes [k-1], ..., 0 in this order: children before parents. *)
Fixpoint applyLoop (s : Store) (k : nat) (ns : list Node) (deltas : list Z)
    : list Node * option error :=
  match k with
  | O => (ns, None)
  | S i =>
      match ns !! i, deltas !! i with
      | Some n, Some d =>
          let w := weight n + d in
          if w <? 0 then (ns, Some NegativeWeight)
          else
            let ns := <[i := setWeight w n]> ns in
            match parent_index n with
            | None => applyLoop s i ns deltas
            | Some p =>
                if (length deltas <=? p)%nat then (ns, Some IndexOverflow)
                else applyLoop s i (updateBestChild s ns p i)
                                   (alter (fun x => x + d) p deltas)
            end
      | _, _ => (ns, Some IndexOverflow)
      end
  end.

Definition setNodes (ns : list Node) (s : Store) : Store :=
  {| justifiedEpoch := justifiedEpoch s; finalizedEpoch := finalizedEpoch s;
     finalizedRoot := finalizedRoot s; nodes := ns;
     nodeIndices := nodeIndices s; pruneThreshold := pruneThreshold s |}.

Definition raiseEpochs (je fe : Z) (s : Store) : Store :=
  {| justifiedEpoch := if justifiedEpoch s <? je then je else justifiedEpoch s;
     finalizedEpoch := if finalizedEpoch s <? fe then fe else finalizedEpoch s;
     finalizedRoot := finalizedRoot s; nodes := nodes s;
     nodeIndices := nodeIndices s; pruneThreshold := pruneThreshold s |}.

(** Modelled from the spec: applyWeightChanges is not among the sources.
    Spec 4.1: the deltas must be as many as the nodes; the store's epochs are
    raised to the given ones; the nodes are visited in descending index order,
    each adding its delta to its weight (a negative weight is a failure),
    passing the delta on to its parent and standing as candidate best child
    of that parent.  The store is updated in place, so a failure leaves the
    changes made so far. *)
Definition applyWeightChanges (s : Store) (justifiedEpoch finalizedEpoch : Z)
    (deltas : list Z) : Store * option error :=
  if negb (length deltas =? length (nodes s))%nat then (s, Some DeltaLengthMismatch)
  else
    let s := raiseEpochs justifiedEpoch finalizedEpoch s in
    let '(ns, e) := applyLoop s (length (nodes s)) (nodes s) deltas in
    (setNodes ns s, e).

(** Modelled from the spec: the store's head is not among the sources.  Spec
    4.3: the justified root must be known; its best descendant (itself by
    default) must be viable, and is the head. *)
Definition head (s : Store) (justifiedRoot : Root) : result Root :=
  match nodeIndices s !! justifiedRoot with
  | None => Err UnknownJustifiedRoot
  | Some i =>
      match nodes s !! bestDescendantOf (nodes s) i with
      | Some b => if viable s b then Ok (root b) else Err InvalidBestDescendant
      | None => Err InvalidBestDescendant
      end
  end.

End StoreModel.

(** ** Head and Prune *)

Section ForkChoiceMethods.

(** The store's methods, as the ForkChoice calls them. *)
Variable computeDeltas :
  gmap Z nat -> list Vote -> list Z -> list Z -> result (list Z * list Vote).
Variable applyWeightChanges : Store -> Z -> Z -> list Z -> Store * option error.
Variable head : Store -> Root -> result Root.
Variable prune : Store -> Root -> Store * option error.

Definition setStore (s : Store) (f : ForkChoice) : ForkChoice :=
  {| store := s; balances := balances f; votes := votes f |}.
Definition setVotes (v : list Vote) (f : ForkChoice) : ForkChoice :=
  {| store := store f; balances := balances f; votes := v |}.
Definition setBalances (b : list Z) (f : ForkChoice) : ForkChoice :=
  {| store := store f; balances := b; votes := votes f |}.

(** Head returns the updated ForkChoice with the head root or the error. *)
Definition Head (f : ForkChoice) (finalizedEpoch : Z) (justifiedRoot : Root)
    (justifiedStateBalances : list Z) (justifiedEpoch : Z) : ForkChoice * result Root :=
  let newBalances := justifiedStateBalances in
  match computeDeltas (nodeIndices (store f)) (votes f) (balances f) newBalances with
  | Err err => (f, Err (Wrap err "Could not compute deltas"))
  | Ok (deltas, newVotes) =>
      let f := setVotes newVotes f in
      match applyWeightChanges (store f) justifiedEpoch finalizedEpoch deltas with
      | (s, Some err) => (setStore s f, Err (Wrap err "Could not apply score changes"))
      | (s, None) =>
          let f := setBalances newBalances (setStore s f) in
          (f, head (store f) justifiedRoot)
      end
  end.

(** The first Prune (store.go, lines 94-96). *)
Definition Prune (f : ForkChoice) (finalizedRoot : Root) : ForkChoice * option error :=
  let '(s, e) := prune (store f) finalizedRoot in (setStore s f, e).

(** The second Prune (store.go, lines 98-100). *)
Definition Prune' (f : ForkChoice) (finalizedRoot : Root) : ForkChoice * option error :=
  let '(s, e) := prune (store f) finalizedRoot in (setStore s f, e).

End ForkChoiceMethods.

(** ** Attestations processed one after the other *)

(** The arguments of one ProcessAttestation call. *)
Record Attestation := mkAttestation {
  attIndices : list nat;
  attRoot : Root;
  attEpoch : Z
}.

Definition processAll (f : ForkChoice) (atts : list Attestation) : ForkChoice :=
  foldl (fun f a => ProcessAttestation f (attIndices a) (attRoot a) (attEpoch a)) f atts.

(** The calls that list validator [v], in their order. *)
Definition attestationsOf (v : nat) (atts : list Attestation) : list Attestation :=
  filter (fun a => v ∈ attIndices a) atts.

End ProtoArray.

(* ===================================================================== *)
(** * validator client: the attestation history                           *)
(* ===================================================================== *)

Module Attester.

(** uint64 addition. *)
Definition add64 (a b : Z) : Z := (a + b) mod 2^64.

(** [int(x)] of a uint64 [x]: the same 64 bits read as a signed integer. *)
Definition int (x : Z) : Z := if x <? 2^63 then x else x - 2^64.

(** Subtraction of two [int], wrapping around. *)
Definition sub_int (a b : Z) : Z := (a - b + 2^63) mod 2^64 - 2^63.

(** slashpb.AttestationHistory: the fields the client reads and writes.  The
    history and its map are allocated (on a nil map the first write would
    panic). *)
Record AttestationHistory := mkHistory {
  TargetToSource : gmap Z Z;
  LatestEpochWritten : Z
}.

(** Reading a Go map: a missing key reads as zero. *)
Definition mapAt (m : gmap Z Z) (k : Z) : Z := default 0 (m !! k).

Section Config.

(** params.BeaconConfig() is not among the sources; its two constants are
    parameters here. *)
Variable WeakSubjectivityPeriod : Z.
Variable FarFutureEpoch : Z.

(** safeTargetToSource *)
Definition safeTargetToSource (history : AttestationHistory) (targetEpoch : Z) : Z :=
  let wsPeriod := WeakSubjectivityPeriod in
  if (LatestEpochWritten history <? targetEpoch)
     || (int targetEpoch <? sub_int (int (LatestEpochWritten history)) (int wsPeriod))
  then FarFutureEpoch
  else mapAt (TargetToSource history) (targetEpoch mod wsPeriod).

(** The loop of markAttestationForTargetEpoch,
    [for i := ...; i < targetEpoch && i <= maxToWrite; i++], from [i] on.
    [fuel] bounds the number of iterations (see [markLoop_fuel]). *)
Fixpoint markLoop (fuel : nat) (targetEpoch maxToWrite : Z) (i : Z)
    (m : gmap Z Z) : gmap Z Z :=
  match fuel with
  | O => m
  | S k =>
      if (i <? targetEpoch) && (i <=? maxToWrite)
      then markLoop k targetEpoch maxToWrite (add64 i 1)
             (<[i mod WeakSubjectivityPeriod := FarFutureEpoch]> m)
      else m
  end.

(** markAttestationForTargetEpoch; the history is updated in place and
    returned. *)
Definition markAttestationForTargetEpoch (history : AttestationHistory)
    (sourceEpoch targetEpoch : Z) : AttestationHistory :=
  let wsPeriod := WeakSubjectivityPeriod in
  let history :=
    if LatestEpochWritten history <? targetEpoch then
      let maxToWrite := add64 (LatestEpochWritten history) wsPeriod in
      {| TargetToSource :=
           markLoop (Z.to_nat (targetEpoch - LatestEpochWritten history))
             targetEpoch maxToWrite (add64 (LatestEpochWritten history) 1)
             (TargetToSource history);
         LatestEpochWritten := targetEpoch |}
    else history in
  {| TargetToSource := <[targetEpoch mod wsPeriod := sourceEpoch]> (TargetToSource history);
     LatestEpochWritten := LatestEpochWritten history |}.

(** The target epoch is at least the latest written epoch minus the weak
    subjectivity period, as the client computes it (on [int]s). *)
Definition withinPeriod (history : AttestationHistory) (targetEpoch : Z) : bool :=
  negb (int targetEpoch
          <? sub_int (int (LatestEpochWritten history)) (int WeakSubjectivityPeriod)).

(** ** isNewAttSlashable *)

(** The first loop of isNewAttSlashable, [for i := sourceEpoch; i <=
    targetEpoch; i++], from [i] on: [Some true] when the loop returns true,
    [Some false] when it ends, [None] when the fuel runs out before it ends.
    For [targetEpoch = 2^64 - 1] the condition never fails and [i] goes on
    from zero after [2^64 - 1]: the loop returns true at the first epoch
    that makes it do so, and runs for ever when there is none. *)
Fixpoint surroundingLoop (fuel : nat) (history : AttestationHistory)
    (sourceEpoch targetEpoch i : Z) : option bool :=
  match fuel with
  | O => if i <=? targetEpoch then None else Some false
  | S k =>
      if i <=? targetEpoch then
        if safeTargetToSource history i =? FarFutureEpoch
        then surroundingLoop k history sourceEpoch targetEpoch (add64 i 1)
        else if sourceEpoch <? mapAt (TargetToSource history) (i mod WeakSubjectivityPeriod)
        then Some true
        else surroundingLoop k history sourceEpoch targetEpoch (add64 i 1)
      else Some false
  end.

(** The second loop, [for i := targetEpoch; i <= history.LatestEpochWritten;
    i++], from [i] on. *)
Fixpoint surroundedLoop (fuel : nat) (history : AttestationHistory)
    (sourceEpoch i : Z) : option bool :=
  match fuel with
  | O => if i <=? LatestEpochWritten history then None else Some false
  | S k =>
      if i <=? LatestEpochWritten history then
        if safeTargetToSource history i <? sourceEpoch
        then Some true
        else surroundedLoop k history sourceEpoch (add64 i 1)
      else Some false
  end.

(** The number of turns after which a loop [for i := from; i <= to; i++]
    on uint64 has ended, or has seen every epoch and will never end. *)
Definition turns (from to : Z) : nat :=
  if to =? 2^64 - 1 then Z.to_nat (2^64) else Z.to_nat (to - from + 1).

(** isNewAttSlashable; [None] when one of its loops never ends (see the
    loops). *)
Definition isNewAttSlashable (history : AttestationHistory)
    (sourceEpoch targetEpoch : Z) : option bool :=
  let farFuture := FarFutureEpoch in
  let wsPeriod := WeakSubjectivityPeriod in
  if int targetEpoch <=? sub_int (int (LatestEpochWritten history)) (int wsPeriod)
  then Some false
  else if negb (safeTargetToSource history targetEpoch =? farFuture)
  then Some true
  else
    match surroundingLoop (turns sourceEpoch targetEpoch) history
            sourceEpoch targetEpoch sourceEpoch with
    | None => None
    | Some true => Some true
    | Some false =>
        surroundedLoop (turns targetEpoch (LatestEpochWritten history))
          history sourceEpoch targetEpoch
    end.

(** What makes the first loop return at epoch [i], and the second. *)
Definition surroundsAt (history : AttestationHistory) (sourceEpoch i : Z) : bool :=
  negb (safeTargetToSource history i =? FarFutureEpoch)
  && (sourceEpoch <? mapAt (TargetToSource history) (i mod WeakSubjectivityPeriod)).

Definition surroundedAt (history : AttestationHistory) (sourceEpoch i : Z) : bool :=
  safeTargetToSource history i <? sourceEpoch.

(** The target epoch is a whole period or more behind the latest written
    one: isNewAttSlashable answers false at once. *)
Definition pruned (history : AttestationHistory) (targetEpoch : Z) : bool :=
  int targetEpoch <=? sub_int (int (LatestEpochWritten history)) (int WeakSubjectivityPeriod).

End Config.

(** The shape the two loops share: the epochs from [i] to [bound] are
    scanned for one that [hit]s. *)
Fixpoint scan (hit : Z -> bool) (fuel : nat) (bound i : Z) : option bool :=
  match fuel with
  | O => if i <=? bound then None else Some false
  | S k =>
      if i <=? bound then
        if hit i then Some true else scan hit k bound (add64 i 1)
      else Some false
  end.

End Attester.

(* ===================================================================== *)
(** * blockchain/forkchoice: the epoch metrics                            *)
(* ===================================================================== *)

Module Metrics.

(** ethpb.Validator, ethpb.Checkpoint, ethpb.Eth1Data: the fields read. *)
Record ethpb_Validator := mkValidator {
  Slashed : bool;
  ExitEpoch : Z;
  ActivationEpoch : Z;
  EffectiveBalance : Z
}.

Record ethpb_Checkpoint := mkCheckpoint {
  Epoch : Z;
  Root : list Byte.byte
}.

Record ethpb_Eth1Data := mkEth1Data {
  DepositCount : Z
}.

(** stateTrie.BeaconState, by its getters; a nil pointer is [None]. *)
Record BeaconState := mkBeaconState {
  Slot : Z;
  Validators : list ethpb_Validator;
  Balances : list Z;
  CurrentJustifiedCheckpoint : option ethpb_Checkpoint;
  PreviousJustifiedCheckpoint : option ethpb_Checkpoint;
  FinalizedCheckpoint : option ethpb_Checkpoint;
  Eth1Data : option ethpb_Eth1Data
}.

(** precompute.Balances: the two fields read. *)
Record precompute_Balance := mkPrecomputeBalance {
  PrevEpoch : Z;
  PrevEpochTargetAttesters : Z
}.

(** ** float64 of an integer

    A gauge holds a float64.  Go converts an integer to the nearest float64,
    ties to the even mantissa; an integer of 64 bits is far from overflow.
    [round53 n] is that float64 for [n >= 0]: [n] itself when it has at most
    53 bits, else its leading 53 bits, rounded, times the power of two that
    was cut off.  The value of a float64 is a rational number. *)
Definition round53 (n : Z) : Z :=
  let k := Z.log2 n - 52 in
  if k <=? 0 then n
  else
    let q := n / 2 ^ k in
    let r := n mod 2 ^ k in
    let half := 2 ^ (k - 1) in
    let q' := if r <? half then q
              else if half <? r then q + 1
              else if Z.even q then q else q + 1 in
    q' * 2 ^ k.

Definition float64 (x : Z) : Q :=
  inject_Z (if x <? 0 then - round53 (- x) else round53 x).

(** uint64 addition, for the balance sums. *)
Definition add64 (a b : Z) : Z := (a + b) mod 2^64.

(** ** The gauges

    The registry maps a gauge, by its name and the value of its label (empty
    for a plain gauge), to the value last set. *)
Abbreviation Gauges := (gmap (string * string) Q).

Definition beaconFinalizedEpoch : string := "beacon_finalized_epoch".
Definition beaconFinalizedRoot : string := "beacon_finalized_root".
Definition beaconCurrentJustifiedEpoch : string := "beacon_current_justified_epoch".
Definition beaconCurrentJustifiedRoot : string := "beacon_current_justified_root".
Definition beaconPrevJustifiedEpoch : string := "beacon_previous_justified_epoch".
Definition beaconPrevJustifiedRoot : string := "beacon_previous_justified_root".
Definition validatorsCount : string := "validator_count".
Definition validatorsBalance : string := "validators_total_balance".
Definition validatorsEffectiveBalance : string := "validators_total_effective_balance".
Definition currentEth1DataDepositCount : string := "current_eth1_data_deposit_count".
Definition totalEligibleBalances : string := "total_eligible_balances".
Definition totalVotedTargetBalances : string := "total_voted_target_balances".

(** [g.Set(v)] and [g.WithLabelValues(label).Set(v)]. *)
Definition Gauge_Set (g : string) (v : Q) (m : Gauges) : Gauges :=
  <[(g, ""%string) := v]> m.
Definition GaugeVec_Set (g label : string) (v : Q) (m : Gauges) : Gauges :=
  <[(g, label) := v]> m.

(** ** reportEpochMetrics *)

(** The local counters of reportEpochMetrics. *)
Record Instances := mkInstances {
  pendingInstances : Z;
  activeInstances : Z;
  slashingInstances : Z;
  slashedInstances : Z;
  exitingInstances : Z;
  exitedInstances : Z
}.

Record Sums := mkSums {
  pendingBalance : Z;
  activeBalance : Z;
  activeEffectiveBalance : Z;
  exitingBalance : Z;
  exitingEffectiveBalance : Z;
  slashingBalance : Z;
  slashingEffectiveBalance : Z
}.

Definition noInstances : Instances := mkInstances 0 0 0 0 0 0.
Definition noSums : Sums := mkSums 0 0 0 0 0 0 0.

Section Report.

(** helpers.CurrentEpoch, state.BalanceAtIndex (an error is [None]),
    bytesutil.ToLowInt64 and params.BeaconConfig().FarFutureEpoch are not
    among the sources; they are parameters here. *)
Variable CurrentEpoch : BeaconState -> Z.
Variable BalanceAtIndex : BeaconState -> Z -> option Z.
Variable ToLowInt64 : list Byte.byte -> Z.
Variable FarFutureEpoch : Z.

(** The body of the loop over the validators, after the balance lookup. *)
Definition visit (currentEpoch : Z) (validator : ethpb_Validator) (valBalance : Z)
    (c : Instances * Sums) : Instances * Sums :=
  let '(n, b) := c in
  if Slashed validator then
    if currentEpoch <? ExitEpoch validator then
      (mkInstances (pendingInstances n) (activeInstances n) (slashingInstances n + 1)
         (slashedInstances n) (exitingInstances n) (exitedInstances n),
       mkSums (pendingBalance b) (activeBalance b) (activeEffectiveBalance b)
         (exitingBalance b) (exitingEffectiveBalance b)
         (add64 (slashingBalance b) valBalance)
         (add64 (slashingEffectiveBalance b) (EffectiveBalance validator)))
    else
      (mkInstances (pendingInstances n) (activeInstances n) (slashingInstances n)
         (slashedInstances n + 1) (exitingInstances n) (exitedInstances n), b)
  else if negb (ExitEpoch validator =? FarFutureEpoch) then
    if currentEpoch <? ExitEpoch validator then
      (mkInstances (pendingInstances n) (activeInstances n) (slashingInstances n)
         (slashedInstances n) (exitingInstances n + 1) (exitedInstances n),
       mkSums (pendingBalance b) (activeBalance b) (activeEffectiveBalance b)
         (add64 (exitingBalance b) valBalance)
         (add64 (exitingEffectiveBalance b) (EffectiveBalance validator))
         (slashingBalance b) (slashingEffectiveBalance b))
    else
      (mkInstances (pendingInstances n) (activeInstances n) (slashingInstances n)
         (slashedInstances n) (exitingInstances n) (exitedInstances n + 1), b)
  else if currentEpoch <? ActivationEpoch validator then
    (mkInstances (pendingInstances n + 1) (activeInstances n) (slashingInstances n)
       (slashedInstances n) (exitingInstances n) (exitedInstances n),
     mkSums (add64 (pendingBalance b) valBalance) (activeBalance b)
       (activeEffectiveBalance b) (exitingBalance b) (exitingEffectiveBalance b)
       (slashingBalance b) (slashingEffectiveBalance b))
  else
    (mkInstances (pendingInstances n) (activeInstances n + 1) (slashingInstances n)
       (slashedInstances n) (exitingInstances n) (exitedInstances n),
     mkSums (pendingBalance b) (add64 (activeBalance b) valBalance)
       (add64 (activeEffectiveBalance b) (EffectiveBalance validator))
       (exitingBalance b) (exitingEffectiveBalance b)
       (slashingBalance b) (slashingEffectiveBalance b)).

(** The loop [for i, validator := range validators], from index [i] on;
    [None] when a balance lookup fails and the function returns. *)
Fixpoint visitAll (state : BeaconState) (currentEpoch : Z) (i : nat)
    (validators : list ethpb_Validator) (c : Instances * Sums)
    : option (Instances * Sums) :=
  match validators with
  | [] => Some c
  | validator :: rest =>
      match BalanceAtIndex state (Z.of_nat i) with
      | None => None
      | Some valBalance =>
          visitAll state currentEpoch (S i) rest (visit currentEpoch validator valBalance c)
      end
  end.

(** Every balance lookup of the loop succeeds. *)
Definition balancesAvailable (state : BeaconState) : Prop :=
  forall i, (i < length (Validators state))%nat ->
    is_Some (BalanceAtIndex state (Z.of_nat i)).

(** The thirteen validator gauges. *)
Definition setValidatorGauges (c : Instances * Sums) (m : Gauges) : Gauges :=
  let '(n, b) := c in
  let m := GaugeVec_Set validatorsCount "Pending" (float64 (pendingInstances n)) m in
  let m := GaugeVec_Set validatorsCount "Active" (float64 (activeInstances n)) m in
  let m := GaugeVec_Set validatorsCount "Exiting" (float64 (exitingInstances n)) m in
  let m := GaugeVec_Set validatorsCount "Exited" (float64 (exitedInstances n)) m in
  let m := GaugeVec_Set validatorsCount "Slashing" (float64 (slashingInstances n)) m in
  let m := GaugeVec_Set validatorsCount "Slashed" (float64 (slashedInstances n)) m in
  let m := GaugeVec_Set validatorsBalance "Pending" (float64 (pendingBalance b)) m in
  let m := GaugeVec_Set validatorsBalance "Active" (float64 (activeBalance b)) m in
  let m := GaugeVec_Set validatorsBalance "Exiting" (float64 (exitingBalance b)) m in
  let m := GaugeVec_Set validatorsBalance "Slashing" (float64 (slashingBalance b)) m in
  let m := GaugeVec_Set validatorsEffectiveBalance "Active"
             (float64 (activeEffectiveBalance b)) m in
  let m := GaugeVec_Set validatorsEffectiveBalance "Exiting"
             (float64 (exitingEffectiveBalance b)) m in
  GaugeVec_Set validatorsEffectiveBalance "Slashing"
    (float64 (slashingEffectiveBalance b)) m.

(** The two gauges of a checkpoint, when it is not nil. *)
Definition setCheckpointGauges (epochGauge rootGauge : string)
    (c : option ethpb_Checkpoint) (m : Gauges) : Gauges :=
  match c with
  | Some c =>
      let m := Gauge_Set epochGauge (float64 (Epoch c)) m in
      Gauge_Set rootGauge (float64 (ToLowInt64 (Root c))) m
  | None => m
  end.

(** reportEpochMetrics; [precomputeBalances] is the package variable
    precompute.Balances. *)
Definition reportEpochMetrics (state : BeaconState)
    (precomputeBalances : option precompute_Balance) (m : Gauges) : Gauges :=
  let currentEpoch := CurrentEpoch state in
  let validators := Validators state in
  match visitAll state currentEpoch 0 validators (noInstances, noSums) with
  | None => m
  | Some c =>
      let m := setValidatorGauges c m in
      let m := setCheckpointGauges beaconCurrentJustifiedEpoch beaconCurrentJustifiedRoot
                 (CurrentJustifiedCheckpoint state) m in
      let m := setCheckpointGauges beaconPrevJustifiedEpoch beaconPrevJustifiedRoot
                 (PreviousJustifiedCheckpoint state) m in
      let m := setCheckpointGauges beaconFinalizedEpoch beaconFinalizedRoot
                 (FinalizedCheckpoint state) m in
      let m := match Eth1Data state with
               | Some e => Gauge_Set currentEth1DataDepositCount (float64 (DepositCount e)) m
               | None => m
               end in
      match precomputeBalances with
      | Some p =>
          let m := Gauge_Set totalEligibleBalances (float64 (PrevEpoch p)) m in
          Gauge_Set totalVotedTargetBalances (float64 (PrevEpochTargetAttesters p)) m
      | None => m
      end
  end.

End Report.

(** ** The missing helpers, for concrete states *)

(** Modelled from the spec: helpers.CurrentEpoch is not among the sources;
    the spec's current_epoch(state) with SLOTS_PER_EPOCH = 32. *)
Definition CurrentEpoch (state : BeaconState) : Z := Slot state / 32.

(** Modelled from the spec: state.BalanceAtIndex is not among the sources and
    the spec does not describe it; it fails on an index the balances do not
    reach, the bound UpdateBalancesAtIndex of the state setters checks. *)
Definition BalanceAtIndex (state : BeaconState) (idx : Z) : option Z :=
  if Z.of_nat (length (Balances state)) <=? idx then None
  else Balances state !! Z.to_nat idx.

(** Modelled from the spec: bytesutil.ToLowInt64 is not among the sources;
    the spec's "low-64-bit of root", the root read as a big-endian integer
    and its low 64 bits as an int64. *)
Definition ToLowInt64 (x : list Byte.byte) : Z :=
  let n := fold_left (fun acc b => acc * 256 + Z.of_N (Byte.to_N b)) x 0 in
  let low := n mod 2^64 in
  if low <? 2^63 then low else low - 2^64.

(** Modelled from the spec: params.BeaconConfig() is not among the sources
    and the spec gives no value; the far-future epoch is the largest
    uint64. *)
Definition FarFutureEpoch : Z := 2^64 - 1.

(** ** Concrete states, with the helpers above *)

Definition someValidator : ethpb_Validator :=
  {| Slashed := false; ExitEpoch := FarFutureEpoch; ActivationEpoch := 0;
     EffectiveBalance := 32 |}.

Definition someCheckpoint : ethpb_Checkpoint :=
  {| Epoch := 3; Root := [Byte.x00; Byte.x2a] |}.

(** One validator, with its balance. *)
Definition stateOfOne : BeaconState :=
  {| Slot := 128; Validators := [someValidator]; Balances := [32];
     CurrentJustifiedCheckpoint := None; PreviousJustifiedCheckpoint := None;
     FinalizedCheckpoint := Some someCheckpoint; Eth1Data := None |}.

(** Two validators, and the balance of the first only. *)
Definition stateOfTwo : BeaconState :=
  {| Slot := 128; Validators := [someValidator; someValidator]; Balances := [32];
     CurrentJustifiedCheckpoint := None; PreviousJustifiedCheckpoint := None;
     FinalizedCheckpoint := Some someCheckpoint; Eth1Data := None |}.

(** No validator, and a finalized checkpoint of an epoch beyond 2^53. *)
Definition lateCheckpoint : ethpb_Checkpoint :=
  {| Epoch := 2^53 + 1; Root := [Byte.x00; Byte.x2a] |}.

Definition stateOfNone : BeaconState :=
  {| Slot := 128; Validators := []; Balances := [];
     CurrentJustifiedCheckpoint := None; PreviousJustifiedCheckpoint := None;
     FinalizedCheckpoint := Some lateCheckpoint; Eth1Data := None |}.

Definition report : BeaconState -> option precompute_Balance -> Gauges -> Gauges :=
  reportEpochMetrics CurrentEpoch BalanceAtIndex ToLowInt64 FarFutureEpoch.

(** The value a gauge shows: the last one set, zero before any. *)
Definition gaugeValue (m : Gauges) (g label : string) : Q :=
  default (inject_Z 0) (m !! (g, label)).

(** The six categories of the validator_count gauge, with the local counter
    of each. *)
Inductive Category := cPending | cActive | cExiting | cExited | cSlashing | cSlashed.

#[global] Instance Category_eq_dec : EqDecision Category.
Proof. solve_decision. Defined.

Definition count (cat : Category) (n : Instances) : Z :=
  match cat with
  | cPending => pendingInstances n
  | cActive => activeInstances n
  | cExiting => exitingInstances n
  | cExited => exitedInstances n
  | cSlashing => slashingInstances n
  | cSlashed => slashedInstances n
  end.

Definition label (cat : Category) : string :=
  match cat with
  | cPending => "Pending"
  | cActive => "Active"
  | cExiting => "Exiting"
  | cExited => "Exited"
  | cSlashing => "Slashing"
  | cSlashed => "Slashed"
  end.

Definition categories : list Category :=
  [cPending; cActive; cExiting; cExited; cSlashing; cSlashed].

Definition total (n : Instances) : Z :=
  pendingInstances n + activeInstances n + exitingInstances n
  + exitedInstances n + slashingInstances n + slashedInstances n.

(** The two gauges of a checkpoint show its epoch and the low 64 bits of its
    root, as float64; the float64 is the integer itself up to 2^53. *)
Definition checkpointReported (toLowInt64 : list Byte.byte -> Z) (m : Gauges)
    (epochGauge rootGauge : string) (c : option ethpb_Checkpoint) : Prop :=
  forall cp, c = Some cp ->
    m !! (epochGauge, ""%string) = Some (float64 (Epoch cp)) /\
    m !! (rootGauge, ""%string) = Some (float64 (toLowInt64 (Root cp))) /\
    (0 <= Epoch cp <= 2^53 -> gaugeValue m epochGauge "" = inject_Z (Epoch cp)) /\
    (Z.abs (toLowInt64 (Root cp)) <= 2^53 ->
     gaugeValue m rootGauge "" = inject_Z (toLowInt64 (Root cp))).

(** Every value of [m'] is one [m] had already, or an integer. *)
Definition integralSince (m m' : Gauges) : Prop :=
  forall k q, m' !! k = Some q -> m !! k = Some q \/ exists z, q = inject_Z z.

(** The category the loop of reportEpochMetrics puts a validator in, by the
    branch that counts it. *)
Definition categoryOf (farFutureEpoch currentEpoch : Z) (validator : ethpb_Validator)
    : Category :=
  if Slashed validator then
    if currentEpoch <? ExitEpoch validator then cSlashing else cSlashed
  else if negb (ExitEpoch validator =? farFutureEpoch) then
    if currentEpoch <? ExitEpoch validator then cExiting else cExited
  else if currentEpoch <? ActivationEpoch validator then cPending
  else cActive.

(** The validators of a category, each with its balance. *)
Definition members (farFutureEpoch currentEpoch : Z) (cat : Category)
    (vbs : list (ethpb_Validator * Z)) : list (ethpb_Validator * Z) :=
  filter (fun vb => categoryOf farFutureEpoch currentEpoch (fst vb) = cat) vbs.

Definition sumZ (l : list Z) : Z := foldr Z.add 0 l.

(** The local sum behind a balance gauge ([effective = false]) or an
    effective-balance gauge of a category; the function keeps no sum for
    the other pairs. *)
Definition sumOf (effective : bool) (cat : Category) (b : Sums) : option Z :=
  match effective, cat with
  | false, cPending => Some (pendingBalance b)
  | false, cActive => Some (activeBalance b)
  | false, cExiting => Some (exitingBalance b)
  | false, cSlashing => Some (slashingBalance b)
  | true, cActive => Some (activeEffectiveBalance b)
  | true, cExiting => Some (exitingEffectiveBalance b)
  | true, cSlashing => Some (slashingEffectiveBalance b)
  | _, _ => None
  end.

Definition sumGauge (effective : bool) : string :=
  if effective then validatorsEffectiveBalance else validatorsBalance.

(** What a validator adds to a sum. *)
Definition amount (effective : bool) (vb : ethpb_Validator * Z) : Z :=
  if effective then EffectiveBalance (fst vb) else snd vb.

(** Three validators: two active ones whose balances add up to 2^64 + 5, and
    a slashed one. *)
Definition stateOfThree : BeaconState :=
  {| Slot := 128;
     Validators := [someValidator; someValidator;
                    {| Slashed := true; ExitEpoch := 2; ActivationEpoch := 0;
                       EffectiveBalance := 32 |}];
     Balances := [2^63; 2^63 + 5; 7];
     CurrentJustifiedCheckpoint := None; PreviousJustifiedCheckpoint := None;
     FinalizedCheckpoint := None; Eth1Data := None |}.

End Metrics.

(* ===================================================================== *)
(** * validator client: duties and the attestation log                    *)
(* ===================================================================== *)

Module Validator.

(** ethpb.DutiesResponse_Duty: the fields the client reads. *)
Record Duty := mkDuty {
  Committee : list Z;
  CommitteeIndex : Z;
  ValidatorIndex : Z;
  PublicKey : list Byte.byte
}.

#[global] Instance byte_eq_dec : EqDecision Byte.byte := Byte.byte_eq_dec.

Inductive dutyResult :=
  | DutyOk (d : Duty)
  | DutyErr (msg : string).

(** The loop of [duty] over the remaining duties.  The message of the last
    error also prints the first bytes of the key (bytesutil.Trunc, not among
    the sources); the model keeps its fixed part. *)
Fixpoint dutyLoop (pubKey : list Byte.byte) (duties : list Duty) : dutyResult :=
  match duties with
  | [] => DutyErr "pubkey not in duties"
  | duty :: rest =>
      if bool_decide (pubKey = PublicKey duty) then DutyOk duty
      else dutyLoop pubKey rest
  end.

(** duty: [duties] is [v.duties], nil or the list [v.duties.Duties]. *)
Definition duty (duties : option (list Duty)) (pubKey : list Byte.byte) : dutyResult :=
  match duties with
  | None => DutyErr "no duties for validators"
  | Some ds => dutyLoop pubKey ds
  end.

(** attSubmitted, a struct of three fields set by position: the attestation
    data and two lists of indices, the first being the attesters'. *)
Record attSubmitted (Data : Type) := mkAttSubmitted {
  data : Data;
  attesterIndices : list Z;
  aggregatorIndices : list Z
}.
Arguments mkAttSubmitted {Data} _ _ _.
Arguments data {Data} _.
Arguments attesterIndices {Data} _.
Arguments aggregatorIndices {Data} _.

Section AttLogs.

(** ethpb.AttestationData and hashutil.HashProto are not among the sources:
    the data is of any type, the hash a function that may fail. *)
Context {Data : Type}.
Variable HashProto : Data -> option Z.

(** saveAttesterIndexToData: the log, updated, or [None] for the error of
    the hash. *)
Definition saveAttesterIndexToData (attLogs : gmap Z (attSubmitted Data))
    (d : Data) (index : Z) : option (gmap Z (attSubmitted Data)) :=
  match HashProto d with
  | None => None
  | Some h =>
      let attLogs :=
        match attLogs !! h with
        | None => <[h := mkAttSubmitted d [] []]> attLogs
        | Some _ => attLogs
        end in
      match attLogs !! h with
      | Some entry =>
          Some (<[h := mkAttSubmitted d (attesterIndices entry ++ [index]) []]> attLogs)
      | None => None
      end
  end.

(** The log entry of a hash, and the attesters it lists. *)
Definition attestersOf (attLogs : gmap Z (attSubmitted Data)) (h : Z) : list Z :=
  match attLogs !! h with
  | Some entry => attesterIndices entry
  | None => []
  end.

(** The indices of a list saved one after the other, as the client does for
    the keys it runs when they attest to the same data. *)
Fixpoint saveAll (attLogs : gmap Z (attSubmitted Data)) (d : Data)
    (indices : list Z) : option (gmap Z (attSubmitted Data)) :=
  match indices with
  | [] => Some attLogs
  | index :: rest =>
      match saveAttesterIndexToData attLogs d index with
      | None => None
      | Some attLogs => saveAll attLogs d rest
      end
  end.

End AttLogs.

End Validator.

(* ===================================================================== *)
(** * beacon-chain/state: the setters of the beacon state                 *)
(* ===================================================================== *)

Module State.

(** fieldIndex: the constants of the [iota] block, in its order. *)
Inductive fieldIndex :=
  | genesisTime
  | slot
  | fork
  | latestBlockHeader
  | blockRoots
  | stateRoots
  | historicalRoots
  | eth1Data
  | eth1DataVotes
  | eth1DepositIndex
  | validators
  | balances
  | randaoMixes
  | slashings
  | previousEpochAttestations
  | currentEpochAttestations
  | justificationBits
  | previousJustifiedCheckpoint
  | currentJustifiedCheckpoint
  | finalizedCheckpoint.

#[global] Instance fieldIndex_eq_dec : EqDecision fieldIndex.
Proof. solve_decision. Defined.

(** The value [iota] gives each constant. *)
Definition iota (f : fieldIndex) : nat :=
  match f with
  | genesisTime => 0%nat
  | slot => 1%nat
  | fork => 2%nat
  | latestBlockHeader => 3%nat
  | blockRoots => 4%nat
  | stateRoots => 5%nat
  | historicalRoots => 6%nat
  | eth1Data => 7%nat
  | eth1DataVotes => 8%nat
  | eth1DepositIndex => 9%nat
  | validators => 10%nat
  | balances => 11%nat
  | randaoMixes => 12%nat
  | slashings => 13%nat
  | previousEpochAttestations => 14%nat
  | currentEpochAttestations => 15%nat
  | justificationBits => 16%nat
  | previousJustifiedCheckpoint => 17%nat
  | currentJustifiedCheckpoint => 18%nat
  | finalizedCheckpoint => 19%nat
  end.

Definition ofIota (n : nat) : option fieldIndex :=
  match n with
  | 0%nat => Some genesisTime
  | 1%nat => Some slot
  | 2%nat => Some fork
  | 3%nat => Some latestBlockHeader
  | 4%nat => Some blockRoots
  | 5%nat => Some stateRoots
  | 6%nat => Some historicalRoots
  | 7%nat => Some eth1Data
  | 8%nat => Some eth1DataVotes
  | 9%nat => Some eth1DepositIndex
  | 10%nat => Some validators
  | 11%nat => Some balances
  | 12%nat => Some randaoMixes
  | 13%nat => Some slashings
  | 14%nat => Some previousEpochAttestations
  | 15%nat => Some currentEpochAttestations
  | 16%nat => Some justificationBits
  | 17%nat => Some previousJustifiedCheckpoint
  | 18%nat => Some currentJustifiedCheckpoint
  | 19%nat => Some finalizedCheckpoint
  | _ => None
  end.

#[global] Instance fieldIndex_countable : Countable fieldIndex.
Proof. apply (inj_countable iota ofIota). by intros []. Defined.

(** [int(x)] of a uint64 [x]. *)
Definition int (x : Z) : Z := if x <? 2^63 then x else x - 2^64.

(** What a setter gives: the updated state, the error it returns, or the
    panic of an index out of range.  An error is its message without the
    formatted arguments ("invalid index provided %d" without the index). *)
Inductive outcome (A : Type) :=
  | Ok (a : A)
  | Err (msg : string)
  | Panic.
Arguments Ok {A} a.
Arguments Err {A} msg.
Arguments Panic {A}.

(** [s[idx] = val] on a slice, [idx] a uint64: [None] for the panic. *)
Definition store {A} (s : list A) (idx : Z) (val : A) : option (list A) :=
  if idx <? Z.of_nat (length s) then Some (<[Z.to_nat idx := val]> s) else None.

(** ** Byte slices

    recomputeRoot appends to the nodes of the Merkle trie, and [append]
    writes in place when its first operand has capacity to spare.  The nodes
    of the trie are therefore slices of arrays of a heap, which they may
    share, and not their bytes. *)

(** A [[]byte]: [len] bytes of the array [arr] of the heap, from [off] on,
    with [cap] bytes of the array at its disposal from there. *)
Record slice := mkSlice {
  arr : nat;
  off : nat;
  len : nat;
  cap : nat
}.

(** The arrays allocated so far, by their address. *)
Abbreviation heap := (list (list Byte.byte)).

Definition arrayOf (h : heap) (s : slice) : list Byte.byte := default [] (h !! arr s).

(** The bytes a slice reads. *)
Definition bytesOf (h : heap) (s : slice) : list Byte.byte :=
  take (len s) (drop (off s) (arrayOf h s)).

(** What Go keeps true of a slice: it lies within its array. *)
Definition valid (h : heap) (s : slice) : Prop :=
  exists a, h !! arr s = Some a /\ (off s + cap s <= length a)%nat /\ (len s <= cap s)%nat.

(** The array [a] with the bytes [bs] written from position [pos] on. *)
Definition write (pos : nat) (bs : list Byte.byte) (a : list Byte.byte) : list Byte.byte :=
  take pos a ++ bs ++ drop (pos + length bs) a.

(** A new array, and the slice of all of it. *)
Definition alloc (h : heap) (a : list Byte.byte) : heap * slice :=
  (h ++ [a], {| arr := length h; off := 0; len := length a; cap := length a |}).

(** [append(s, t...)]: when the capacity of [s] has room for the bytes of
    [t] they are written behind [s] in its array, whatever else lies there;
    otherwise the bytes of both go to a new array (of a capacity Go chooses;
    the model takes the length, the slice being dropped once hashed). *)
Definition append (h : heap) (s t : slice) : heap * slice :=
  let bs := bytesOf h t in
  if (len s + len t <=? cap s)%nat
  then (<[arr s := write (off s + len s) bs (arrayOf h s)]> h,
        {| arr := arr s; off := off s; len := len s + len t; cap := cap s |})
  else alloc h (bytesOf h s ++ bs).

(** The bytes of the nodes of a trie. *)
Definition contents (h : heap) (layers : list (list slice)) : list (list (list Byte.byte)) :=
  (fun layer : list slice => bytesOf h <$> layer) <$> layers.

(** The slice of the whole of array [l], of [n] bytes. *)
Definition whole (l n : nat) : slice := {| arr := l; off := 0; len := n; cap := n |}.

Section Messages.

(** The messages the state holds are declared in the proto packages, which
    are not among the sources; they are of any type here.  A pointer is an
    [option]; proto.Clone copies and is the identity of a value. *)
Context {Fork_ BeaconBlockHeader Eth1Data_ Validator PendingAttestation Checkpoint : Type}.

(** pbp2p.BeaconState: the fields the setters write. *)
Record pbBeaconState := mkPb {
  GenesisTime : Z;
  Slot : Z;
  Fork : option Fork_;
  LatestBlockHeader : option BeaconBlockHeader;
  BlockRoots : list (list Byte.byte);
  StateRoots : list (list Byte.byte);
  HistoricalRoots : list (list Byte.byte);
  Eth1Data : option Eth1Data_;
  Eth1DataVotes : list Eth1Data_;
  Eth1DepositIndex : Z;
  Validators : list Validator;
  Balances : list Z;
  RandaoMixes : list (list Byte.byte);
  Slashings : list Z;
  PreviousEpochAttestations : list PendingAttestation;
  CurrentEpochAttestations : list PendingAttestation;
  JustificationBits : list Byte.byte;
  PreviousJustifiedCheckpoint : option Checkpoint;
  CurrentJustifiedCheckpoint : option Checkpoint;
  FinalizedCheckpoint : option Checkpoint
}.

(** The record with one field replaced. *)
Definition withGenesisTime (v : Z) (s : pbBeaconState) : pbBeaconState :=
  mkPb v (Slot s) (Fork s) (LatestBlockHeader s) (BlockRoots s) (StateRoots s) (HistoricalRoots s) (Eth1Data s) (Eth1DataVotes s) (Eth1DepositIndex s) (Validators s) (Balances s) (RandaoMixes s) (Slashings s) (PreviousEpochAttestations s) (CurrentEpochAttestations s) (JustificationBits s) (PreviousJustifiedCheckpoint s) (CurrentJustifiedCheckpoint s) (FinalizedCheckpoint s).
Definition withSlot (v : Z) (s : pbBeaconState) : pbBeaconState :=
  mkPb (GenesisTime s) v (Fork s) (LatestBlockHeader s) (BlockRoots s) (StateRoots s) (HistoricalRoots s) (Eth1Data s) (Eth1DataVotes s) (Eth1DepositIndex s) (Validators s) (Balances s) (RandaoMixes s) (Slashings s) (PreviousEpochAttestations s) (CurrentEpochAttestations s) (JustificationBits s) (PreviousJustifiedCheckpoint s) (CurrentJustifiedCheckpoint s) (FinalizedCheckpoint s).
Definition withFork (v : option Fork_) (s : pbBeaconState) : pbBeaconState :=
  mkPb (GenesisTime s) (Slot s) v (LatestBlockHeader s) (BlockRoots s) (StateRoots s) (HistoricalRoots s) (Eth1Data s) (Eth1DataVotes s) (Eth1DepositIndex s) (Validators s) (Balances s) (RandaoMixes s) (Slashings s) (PreviousEpochAttestations s) (CurrentEpochAttestations s) (JustificationBits s) (PreviousJustifiedCheckpoint s) (CurrentJustifiedCheckpoint s) (FinalizedCheckpoint s).
Definition withLatestBlockHeader (v : option BeaconBlockHeader) (s : pbBeaconState) : pbBeaconState :=
  mkPb (GenesisTime s) (Slot s) (Fork s) v (BlockRoots s) (StateRoots s) (HistoricalRoots s) (Eth1Data s) (Eth1DataVotes s) (Eth1DepositIndex s) (Validators s) (Balances s) (RandaoMixes s) (Slashings s) (PreviousEpochAttestations s) (CurrentEpochAttestations s) (JustificationBits s) (PreviousJustifiedCheckpoint s) (CurrentJustifiedCheckpoint s) (FinalizedCheckpoint s).
Definition withBlockRoots (v : list (list Byte.byte)) (s : pbBeaconState) : pbBeaconState :=
  mkPb (GenesisTime s) (Slot s) (Fork s) (LatestBlockHeader s) v (StateRoots s) (HistoricalRoots s) (Eth1Data s) (Eth1DataVotes s) (Eth1DepositIndex s) (Validators s) (Balances s) (RandaoMixes s) (Slashings s) (PreviousEpochAttestations s) (CurrentEpochAttestations s) (JustificationBits s) (PreviousJustifiedCheckpoint s) (CurrentJustifiedCheckpoint s) (FinalizedCheckpoint s).
Definition withStateRoots (v : list (list Byte.byte)) (s : pbBeaconState) : pbBeaconState :=
  mkPb (GenesisTime s) (Slot s) (Fork s) (LatestBlockHeader s) (BlockRoots s) v (HistoricalRoots s) (Eth1Data s) (Eth1DataVotes s) (Eth1DepositIndex s) (Validators s) (Balances s) (RandaoMixes s) (Slashings s) (PreviousEpochAttestations s) (CurrentEpochAttestations s) (JustificationBits s) (PreviousJustifiedCheckpoint s) (CurrentJustifiedCheckpoint s) (FinalizedCheckpoint s).
Definition withHistoricalRoots (v : list (list Byte.byte)) (s : pbBeaconState) : pbBeaconState :=
  mkPb (GenesisTime s) (Slot s) (Fork s) (LatestBlockHeader s) (BlockRoots s) (StateRoots s) v (Eth1Data s) (Eth1DataVotes s) (Eth1DepositIndex s) (Validators s) (Balances s) (RandaoMixes s) (Slashings s) (PreviousEpochAttestations s) (CurrentEpochAttestations s) (JustificationBits s) (PreviousJustifiedCheckpoint s) (CurrentJustifiedCheckpoint s) (FinalizedCheckpoint s).
Definition withEth1Data (v : option Eth1Data_) (s : pbBeaconState) : pbBeaconState :=
  mkPb (GenesisTime s) (Slot s) (Fork s) (LatestBlockHeader s) (BlockRoots s) (StateRoots s) (HistoricalRoots s) v (Eth1DataVotes s) (Eth1DepositIndex s) (Validators s) (Balances s) (RandaoMixes s) (Slashings s) (PreviousEpochAttestations s) (CurrentEpochAttestations s) (JustificationBits s) (PreviousJustifiedCheckpoint s) (CurrentJustifiedCheckpoint s) (FinalizedCheckpoint s).
Definition withEth1DataVotes (v : list Eth1Data_) (s : pbBeaconState) : pbBeaconState :=
  mkPb (GenesisTime s) (Slot s) (Fork s) (LatestBlockHeader s) (BlockRoots s) (StateRoots s) (HistoricalRoots s) (Eth1Data s) v (Eth1DepositIndex s) (Validators s) (Balances s) (RandaoMixes s) (Slashings s) (PreviousEpochAttestations s) (CurrentEpochAttestations s) (JustificationBits s) (PreviousJustifiedCheckpoint s) (CurrentJustifiedCheckpoint s) (FinalizedCheckpoint s).
Definition withEth1DepositIndex (v : Z) (s : pbBeaconState) : pbBeaconState :=
  mkPb (GenesisTime s) (Slot s) (Fork s) (LatestBlockHeader s) (BlockRoots s) (StateRoots s) (HistoricalRoots s) (Eth1Data s) (Eth1DataVotes s) v (Validators s) (Balances s) (RandaoMixes s) (Slashings s) (PreviousEpochAttestations s) (CurrentEpochAttestations s) (JustificationBits s) (PreviousJustifiedCheckpoint s) (CurrentJustifiedCheckpoint s) (FinalizedCheckpoint s).
Definition withValidators (v : list Validator) (s : pbBeaconState) : pbBeaconState :=
  mkPb (GenesisTime s) (Slot s) (Fork s) (LatestBlockHeader s) (BlockRoots s) (StateRoots s) (HistoricalRoots s) (Eth1Data s) (Eth1DataVotes s) (Eth1DepositIndex s) v (Balances s) (RandaoMixes s) (Slashings s) (PreviousEpochAttestations s) (CurrentEpochAttestations s) (JustificationBits s) (PreviousJustifiedCheckpoint s) (CurrentJustifiedCheckpoint s) (FinalizedCheckpoint s).
Definition withBalances (v : list Z) (s : pbBeaconState) : pbBeaconState :=
  mkPb (GenesisTime s) (Slot s) (Fork s) (LatestBlockHeader s) (BlockRoots s) (StateRoots s) (HistoricalRoots s) (Eth1Data s) (Eth1DataVotes s) (Eth1DepositIndex s) (Validators s) v (RandaoMixes s) (Slashings s) (PreviousEpochAttestations s) (CurrentEpochAttestations s) (JustificationBits s) (PreviousJustifiedCheckpoint s) (CurrentJustifiedCheckpoint s) (FinalizedCheckpoint s).
Definition withRandaoMixes (v : list (list Byte.byte)) (s : pbBeaconState) : pbBeaconState :=
  mkPb (GenesisTime s) (Slot s) (Fork s) (LatestBlockHeader s) (BlockRoots s) (StateRoots s) (HistoricalRoots s) (Eth1Data s) (Eth1DataVotes s) (Eth1DepositIndex s) (Validators s) (Balances s) v (Slashings s) (PreviousEpochAttestations s) (CurrentEpochAttestations s) (JustificationBits s) (PreviousJustifiedCheckpoint s) (CurrentJustifiedCheckpoint s) (FinalizedCheckpoint s).
Definition withSlashings (v : list Z) (s : pbBeaconState) : pbBeaconState :=
  mkPb (GenesisTime s) (Slot s) (Fork s) (LatestBlockHeader s) (BlockRoots s) (StateRoots s) (HistoricalRoots s) (Eth1Data s) (Eth1DataVotes s) (Eth1DepositIndex s) (Validators s) (Balances s) (RandaoMixes s) v (PreviousEpochAttestations s) (CurrentEpochAttestations s) (JustificationBits s) (PreviousJustifiedCheckpoint s) (CurrentJustifiedCheckpoint s) (FinalizedCheckpoint s).
Definition withPreviousEpochAttestations (v : list PendingAttestation) (s : pbBeaconState) : pbBeaconState :=
  mkPb (GenesisTime s) (Slot s) (Fork s) (LatestBlockHeader s) (BlockRoots s) (StateRoots s) (HistoricalRoots s) (Eth1Data s) (Eth1DataVotes s) (Eth1DepositIndex s) (Validators s) (Balances s) (RandaoMixes s) (Slashings s) v (CurrentEpochAttestations s) (JustificationBits s) (PreviousJustifiedCheckpoint s) (CurrentJustifiedCheckpoint s) (FinalizedCheckpoint s).
Definition withCurrentEpochAttestations (v : list PendingAttestation) (s : pbBeaconState) : pbBeaconState :=
  mkPb (GenesisTime s) (Slot s) (Fork s) (LatestBlockHeader s) (BlockRoots s) (StateRoots s) (HistoricalRoots s) (Eth1Data s) (Eth1DataVotes s) (Eth1DepositIndex s) (Validators s) (Balances s) (RandaoMixes s) (Slashings s) (PreviousEpochAttestations s) v (JustificationBits s) (PreviousJustifiedCheckpoint s) (CurrentJustifiedCheckpoint s) (FinalizedCheckpoint s).
Definition withJustificationBits (v : list Byte.byte) (s : pbBeaconState) : pbBeaconState :=
  mkPb (GenesisTime s) (Slot s) (Fork s) (LatestBlockHeader s) (BlockRoots s) (StateRoots s) (HistoricalRoots s) (Eth1Data s) (Eth1DataVotes s) (Eth1DepositIndex s) (Validators s) (Balances s) (RandaoMixes s) (Slashings s) (PreviousEpochAttestations s) (CurrentEpochAttestations s) v (PreviousJustifiedCheckpoint s) (CurrentJustifiedCheckpoint s) (FinalizedCheckpoint s).
Definition withPreviousJustifiedCheckpoint (v : option Checkpoint) (s : pbBeaconState) : pbBeaconState :=
  mkPb (GenesisTime s) (Slot s) (Fork s) (LatestBlockHeader s) (BlockRoots s) (StateRoots s) (HistoricalRoots s) (Eth1Data s) (Eth1DataVotes s) (Eth1DepositIndex s) (Validators s) (Balances s) (RandaoMixes s) (Slashings s) (PreviousEpochAttestations s) (CurrentEpochAttestations s) (JustificationBits s) v (CurrentJustifiedCheckpoint s) (FinalizedCheckpoint s).
Definition withCurrentJustifiedCheckpoint (v : option Checkpoint) (s : pbBeaconState) : pbBeaconState :=
  mkPb (GenesisTime s) (Slot s) (Fork s) (LatestBlockHeader s) (BlockRoots s) (StateRoots s) (HistoricalRoots s) (Eth1Data s) (Eth1DataVotes s) (Eth1DepositIndex s) (Validators s) (Balances s) (RandaoMixes s) (Slashings s) (PreviousEpochAttestations s) (CurrentEpochAttestations s) (JustificationBits s) (PreviousJustifiedCheckpoint s) v (FinalizedCheckpoint s).
Definition withFinalizedCheckpoint (v : option Checkpoint) (s : pbBeaconState) : pbBeaconState :=
  mkPb (GenesisTime s) (Slot s) (Fork s) (LatestBlockHeader s) (BlockRoots s) (StateRoots s) (HistoricalRoots s) (Eth1Data s) (Eth1DataVotes s) (Eth1DepositIndex s) (Validators s) (Balances s) (RandaoMixes s) (Slashings s) (PreviousEpochAttestations s) (CurrentEpochAttestations s) (JustificationBits s) (PreviousJustifiedCheckpoint s) (CurrentJustifiedCheckpoint s) v.

(** BeaconState: the protobuf state, the dirty fields, the index of the
    validators by public key (a [48]byte key is the integer it encodes) and
    the layers of the Merkle trie, leaves first, each node a byte slice.
    The slices that hold the layers are taken not to share their arrays of
    slice headers. *)
Record BeaconState := mkBeaconState {
  state : pbBeaconState;
  dirtyFields : gmap fieldIndex bool;
  valIdxMap : gmap Z Z;
  merkleLayers : list (list slice)
}.

Definition withState (s : pbBeaconState) (b : BeaconState) : BeaconState :=
  mkBeaconState s (dirtyFields b) (valIdxMap b) (merkleLayers b).
Definition withDirtyFields (d : gmap fieldIndex bool) (b : BeaconState) : BeaconState :=
  mkBeaconState (state b) d (valIdxMap b) (merkleLayers b).
Definition withValIdxMap (m : gmap Z Z) (b : BeaconState) : BeaconState :=
  mkBeaconState (state b) (dirtyFields b) m (merkleLayers b).
Definition withMerkleLayers (l : list (list slice)) (b : BeaconState) : BeaconState :=
  mkBeaconState (state b) (dirtyFields b) (valIdxMap b) l.

(** markFieldAsDirty *)
Definition markFieldAsDirty (field : fieldIndex) (b : BeaconState) : BeaconState :=
  match dirtyFields b !! field with
  | None => withDirtyFields (<[field := true]> (dirtyFields b)) b
  | Some _ => b
  end.

(** The setters, in the order of the source.  Each returns a nil error but
    the updates at an index. *)
Definition SetGenesisTime (val : Z) (b : BeaconState) : outcome BeaconState :=
  Ok (markFieldAsDirty genesisTime (withState (withGenesisTime val (state b)) b)).
Definition SetSlot (val : Z) (b : BeaconState) : outcome BeaconState :=
  Ok (markFieldAsDirty slot (withState (withSlot val (state b)) b)).
Definition SetFork (val : option Fork_) (b : BeaconState) : outcome BeaconState :=
  Ok (markFieldAsDirty fork (withState (withFork val (state b)) b)).
Definition SetLatestBlockHeader (val : option BeaconBlockHeader) (b : BeaconState) : outcome BeaconState :=
  Ok (markFieldAsDirty latestBlockHeader (withState (withLatestBlockHeader val (state b)) b)).
Definition SetBlockRoots (val : list (list Byte.byte)) (b : BeaconState) : outcome BeaconState :=
  Ok (markFieldAsDirty blockRoots (withState (withBlockRoots val (state b)) b)).

(** The updates at an index: the bound is checked on [int(idx)], the write
    is at [idx].  The copy of the slice the source takes first is the slice
    itself here. *)
Definition UpdateBlockRootAtIndex (idx : Z) (val : list Byte.byte) (b : BeaconState) : outcome BeaconState :=
  if Z.of_nat (length (BlockRoots (state b))) <=? int idx then Err "invalid index provided"
  else
    match store (BlockRoots (state b)) idx val with
    | None => Panic
    | Some r => Ok (markFieldAsDirty blockRoots (withState (withBlockRoots r (state b)) b))
    end.
Definition SetStateRoots (val : list (list Byte.byte)) (b : BeaconState) : outcome BeaconState :=
  Ok (markFieldAsDirty stateRoots (withState (withStateRoots val (state b)) b)).
Definition UpdateStateRootAtIndex (idx : Z) (val : list Byte.byte) (b : BeaconState) : outcome BeaconState :=
  if Z.of_nat (length (StateRoots (state b))) <=? int idx then Err "invalid index provided"
  else
    match store (StateRoots (state b)) idx val with
    | None => Panic
    | Some r => Ok (markFieldAsDirty stateRoots (withState (withStateRoots r (state b)) b))
    end.
Definition SetHistoricalRoots (val : list (list Byte.byte)) (b : BeaconState) : outcome BeaconState :=
  Ok (markFieldAsDirty historicalRoots (withState (withHistoricalRoots val (state b)) b)).
Definition SetEth1Data (val : option Eth1Data_) (b : BeaconState) : outcome BeaconState :=
  Ok (markFieldAsDirty eth1Data (withState (withEth1Data val (state b)) b)).
Definition SetEth1DataVotes (val : list Eth1Data_) (b : BeaconState) : outcome BeaconState :=
  Ok (markFieldAsDirty eth1DataVotes (withState (withEth1DataVotes val (state b)) b)).
Definition AppendEth1DataVotes (val : Eth1Data_) (b : BeaconState) : outcome BeaconState :=
  Ok (markFieldAsDirty eth1DataVotes (withState (withEth1DataVotes (Eth1DataVotes (state b) ++ [val]) (state b)) b)).
Definition SetEth1DepositIndex (val : Z) (b : BeaconState) : outcome BeaconState :=
  Ok (markFieldAsDirty eth1DepositIndex (withState (withEth1DepositIndex val (state b)) b)).
Definition SetValidators (val : list Validator) (b : BeaconState) : outcome BeaconState :=
  Ok (markFieldAsDirty validators (withState (withValidators val (state b)) b)).
Definition UpdateValidatorAtIndex (idx : Z) (val : Validator) (b : BeaconState) : outcome BeaconState :=
  if Z.of_nat (length (Validators (state b))) <=? int idx then Err "invalid index provided"
  else
    match store (Validators (state b)) idx val with
    | None => Panic
    | Some r => Ok (markFieldAsDirty validators (withState (withValidators r (state b)) b))
    end.

(** SetValidatorIndexByPubkey: no field is marked dirty. *)
Definition SetValidatorIndexByPubkey (pubKey : Z) (validatorIdx : Z) (b : BeaconState)
    : BeaconState :=
  withValIdxMap (<[pubKey := validatorIdx]> (valIdxMap b)) b.

Definition SetBalances (val : list Z) (b : BeaconState) : outcome BeaconState :=
  Ok (markFieldAsDirty balances (withState (withBalances val (state b)) b)).
Definition UpdateBalancesAtIndex (idx : Z) (val : Z) (b : BeaconState) : outcome BeaconState :=
  if Z.of_nat (length (Balances (state b))) <=? int idx then Err "invalid index provided"
  else
    match store (Balances (state b)) idx val with
    | None => Panic
    | Some r => Ok (markFieldAsDirty balances (withState (withBalances r (state b)) b))
    end.
Definition SetRandaoMixes (val : list (list Byte.byte)) (b : BeaconState) : outcome BeaconState :=
  Ok (markFieldAsDirty randaoMixes (withState (withRandaoMixes val (state b)) b)).
Definition UpdateRandaoMixesAtIndex (val : list Byte.byte) (idx : Z) (b : BeaconState) : outcome BeaconState :=
  if Z.of_nat (length (RandaoMixes (state b))) <=? int idx then Err "invalid index provided"
  else
    match store (RandaoMixes (state b)) idx val with
    | None => Panic
    | Some r => Ok (markFieldAsDirty randaoMixes (withState (withRandaoMixes r (state b)) b))
    end.
Definition SetSlashings (val : list Z) (b : BeaconState) : outcome BeaconState :=
  Ok (markFieldAsDirty slashings (withState (withSlashings val (state b)) b)).
Definition UpdateSlashingsAtIndex (idx : Z) (val : Z) (b : BeaconState) : outcome BeaconState :=
  if Z.of_nat (length (Slashings (state b))) <=? int idx then Err "invalid index provided"
  else
    match store (Slashings (state b)) idx val with
    | None => Panic
    | Some r => Ok (markFieldAsDirty slashings (withState (withSlashings r (state b)) b))
    end.
Definition SetPreviousEpochAttestations (val : list PendingAttestation) (b : BeaconState) : outcome BeaconState :=
  Ok (markFieldAsDirty previousEpochAttestations (withState (withPreviousEpochAttestations val (state b)) b)).
Definition SetCurrentEpochAttestations (val : list PendingAttestation) (b : BeaconState) : outcome BeaconState :=
  Ok (markFieldAsDirty currentEpochAttestations (withState (withCurrentEpochAttestations val (state b)) b)).
Definition AppendHistoricalRoots (val : list Byte.byte) (b : BeaconState) : outcome BeaconState :=
  Ok (markFieldAsDirty historicalRoots (withState (withHistoricalRoots (HistoricalRoots (state b) ++ [val]) (state b)) b)).
Definition AppendCurrentEpochAttestations (val : PendingAttestation) (b : BeaconState) : outcome BeaconState :=
  Ok (markFieldAsDirty currentEpochAttestations (withState (withCurrentEpochAttestations (CurrentEpochAttestations (state b) ++ [val]) (state b)) b)).
Definition AppendPreviousEpochAttestations (val : PendingAttestation) (b : BeaconState) : outcome BeaconState :=
  Ok (markFieldAsDirty previousEpochAttestations (withState (withPreviousEpochAttestations (PreviousEpochAttestations (state b) ++ [val]) (state b)) b)).
Definition AppendValidator (val : Validator) (b : BeaconState) : outcome BeaconState :=
  Ok (markFieldAsDirty validators (withState (withValidators (Validators (state b) ++ [val]) (state b)) b)).
Definition AppendBalance (val : Z) (b : BeaconState) : outcome BeaconState :=
  Ok (markFieldAsDirty balances (withState (withBalances (Balances (state b) ++ [val]) (state b)) b)).
Definition SetJustificationBits (val : list Byte.byte) (b : BeaconState) : outcome BeaconState :=
  Ok (markFieldAsDirty justificationBits (withState (withJustificationBits val (state b)) b)).
Definition SetPreviousJustifiedCheckpoint (val : option Checkpoint) (b : BeaconState) : outcome BeaconState :=
  Ok (markFieldAsDirty previousJustifiedCheckpoint (withState (withPreviousJustifiedCheckpoint val (state b)) b)).
Definition SetCurrentJustifiedCheckpoint (val : option Checkpoint) (b : BeaconState) : outcome BeaconState :=
  Ok (markFieldAsDirty currentJustifiedCheckpoint (withState (withCurrentJustifiedCheckpoint val (state b)) b)).
Definition SetFinalizedCheckpoint (val : option Checkpoint) (b : BeaconState) : outcome BeaconState :=
  Ok (markFieldAsDirty finalizedCheckpoint (withState (withFinalizedCheckpoint val (state b)) b)).

(** ApplyToEveryValidator.  The callback is given the index and a validator
    of a copy of the registry, may change that validator and may fail: [f]
    returns the validator as the call leaves it, with the error.  The loop
    stops at the first error, and the registry is replaced only when no call
    failed. *)
Fixpoint applyToEach (f : nat -> Validator -> Validator * option string) (i : nat)
    (v : list Validator) : list Validator * option string :=
  match v with
  | [] => ([], None)
  | val :: rest =>
      match f i val with
      | (val, Some err) => (val :: rest, Some err)
      | (val, None) =>
          let '(rest, e) := applyToEach f (S i) rest in (val :: rest, e)
      end
  end.

Definition ApplyToEveryValidator (f : nat -> Validator -> Validator * option string)
    (b : BeaconState) : outcome BeaconState :=
  match applyToEach f 0 (Validators (state b)) with
  | (_, Some err) => Err err
  | (v, None) => Ok (markFieldAsDirty validators (withState (withValidators v (state b)) b))
  end.

(** ** recomputeRoot *)

(** [make([]byte, 32)] *)
Definition zeroNode : list Byte.byte := replicate 32 Byte.x00.

(** Node [j] of level [i] of the trie, level 0 being the leaves. *)
Definition nodeAt {A} (layers : list (list A)) (i j : nat) : option A :=
  match layers !! i with
  | Some layer => layer !! j
  | None => None
  end.

(** The operands of the [append] of the first turn of the loop, for the
    leaf [c]: the slice appended to, and the bytes appended to it. *)
Definition firstAppend (h : heap) (leaves : list slice) (c : nat)
    : option (slice * list Byte.byte) :=
  match leaves !! c with
  | None => None
  | Some root =>
      if Nat.even c
      then Some (root, default zeroNode (bytesOf h <$> leaves !! Nat.lxor c 1))
      else match leaves !! Nat.lxor c 1 with
           | Some neighbor => Some (neighbor, bytesOf h root)
           | None => None
           end
  end.

Section Hash.

(** hashutil.CustomSHA256Hasher() is not among the sources: any function
    from bytes to the 32 bytes of a digest. *)
Variable hashFunc : list Byte.byte -> list Byte.byte.

(** The loop of recomputeRoot, [n] iterations from level [i] on, on the heap
    [h]; [None] for the panic of an index out of range.  [neighbor] is
    first a new array of zeros; [parentHash] is a new array, of which
    [root] is the slice. *)
Fixpoint recomputeLoop (n : nat) (i : nat) (currentIndex : nat) (root : slice)
    (h : heap) (layers : list (list slice)) : option (heap * list (list slice)) :=
  match n with
  | O => Some (h, layers)
  | S n' =>
      let isLeft := Nat.even currentIndex in
      let neighborIdx := Nat.lxor currentIndex 1 in
      match layers !! i with
      | None => None
      | Some layer =>
          let '(h, neighbor) := alloc h zeroNode in
          let neighbor := default neighbor (layer !! neighborIdx) in
          let '(h, joined) :=
            if isLeft then append h root neighbor else append h neighbor root in
          let '(h, root) := alloc h (hashFunc (bytesOf h joined)) in
          let parentIdx := Nat.div2 currentIndex in
          match layers !! S i with
          | None => None
          | Some upper =>
              if (parentIdx <? length upper)%nat
              then recomputeLoop n' (S i) parentIdx root h
                     (<[S i := <[parentIdx := root]> upper]> layers)
              else None
          end
      end
  end.

(** recomputeRoot; [idx] is an [int]. *)
Definition recomputeRoot (idx : Z) (h : heap) (b : BeaconState)
    : option (heap * BeaconState) :=
  let layers := merkleLayers b in
  if idx <? 0 then None
  else
    match layers !! O with
    | None => None
    | Some leaves =>
        match leaves !! Z.to_nat idx with
        | None => None
        | Some root =>
            match recomputeLoop (length layers - 1)%nat 0 (Z.to_nat idx) root h layers with
            | None => None
            | Some (h, layers) => Some (h, withMerkleLayers layers b)
            end
        end
    end.

(** What the loop does to the bytes of the nodes when no [append] writes in
    place: the branch above the leaf is hashed anew (see
    [recomputeLoop_rehash]). *)
Fixpoint rehash (n : nat) (i : nat) (currentIndex : nat) (root : list Byte.byte)
    (layers : list (list (list Byte.byte))) : option (list (list (list Byte.byte))) :=
  match n with
  | O => Some layers
  | S n' =>
      let isLeft := Nat.even currentIndex in
      let neighborIdx := Nat.lxor currentIndex 1 in
      match layers !! i with
      | None => None
      | Some layer =>
          let neighbor := default zeroNode (layer !! neighborIdx) in
          let root :=
            if isLeft then hashFunc (root ++ neighbor) else hashFunc (neighbor ++ root) in
          let parentIdx := Nat.div2 currentIndex in
          match layers !! S i with
          | None => None
          | Some upper =>
              if (parentIdx <? length upper)%nat
              then rehash n' (S i) parentIdx root
                     (<[S i := <[parentIdx := root]> upper]> layers)
              else None
          end
      end
  end.

(** The parent the trie wants above the nodes [2j] and [2j+1] of level [i]:
    the hash of the two, a missing right node being thirty-two zero bytes. *)
Definition parentOf (layers : list (list (list Byte.byte))) (i j : nat)
    : option (list Byte.byte) :=
  match nodeAt layers i (2 * j)%nat with
  | Some l => Some (hashFunc (l ++ default zeroNode (nodeAt layers i (2 * j + 1)%nat)))
  | None => None
  end.

(** The trie is a Merkle tree at the node [j] of level [k+1]: the node, if
    the level has it, is the parent of the nodes below it. *)
Definition merkleAt (layers : list (list (list Byte.byte))) (k j : nat) : Prop :=
  is_Some (nodeAt layers (S k) j) -> nodeAt layers (S k) j = parentOf layers k j.

End Hash.

(** ** The setters as calls *)

Inductive call :=
  | CSetGenesisTime (val : Z)
  | CSetSlot (val : Z)
  | CSetFork (val : option Fork_)
  | CSetLatestBlockHeader (val : option BeaconBlockHeader)
  | CSetBlockRoots (val : list (list Byte.byte))
  | CUpdateBlockRootAtIndex (idx : Z) (blockRoot : list Byte.byte)
  | CSetStateRoots (val : list (list Byte.byte))
  | CUpdateStateRootAtIndex (idx : Z) (stateRoot : list Byte.byte)
  | CSetHistoricalRoots (val : list (list Byte.byte))
  | CSetEth1Data (val : option Eth1Data_)
  | CSetEth1DataVotes (val : list Eth1Data_)
  | CAppendEth1DataVotes (val : Eth1Data_)
  | CSetEth1DepositIndex (val : Z)
  | CSetValidators (val : list Validator)
  | CApplyToEveryValidator (f : nat -> Validator -> Validator * option string)
  | CUpdateValidatorAtIndex (idx : Z) (val : Validator)
  | CSetBalances (val : list Z)
  | CUpdateBalancesAtIndex (idx : Z) (val : Z)
  | CSetRandaoMixes (val : list (list Byte.byte))
  | CUpdateRandaoMixesAtIndex (val : list Byte.byte) (idx : Z)
  | CSetSlashings (val : list Z)
  | CUpdateSlashingsAtIndex (idx : Z) (val : Z)
  | CSetPreviousEpochAttestations (val : list PendingAttestation)
  | CSetCurrentEpochAttestations (val : list PendingAttestation)
  | CAppendHistoricalRoots (root : list Byte.byte)
  | CAppendCurrentEpochAttestations (val : PendingAttestation)
  | CAppendPreviousEpochAttestations (val : PendingAttestation)
  | CAppendValidator (val : Validator)
  | CAppendBalance (bal : Z)
  | CSetJustificationBits (val : list Byte.byte)
  | CSetPreviousJustifiedCheckpoint (val : option Checkpoint)
  | CSetCurrentJustifiedCheckpoint (val : option Checkpoint)
  | CSetFinalizedCheckpoint (val : option Checkpoint)
  | CSetValidatorIndexByPubkey (pubKey : Z) (validatorIdx : Z).

Definition run (c : call) (b : BeaconState) : outcome BeaconState :=
  match c with
  | CSetGenesisTime val => SetGenesisTime val b
  | CSetSlot val => SetSlot val b
  | CSetFork val => SetFork val b
  | CSetLatestBlockHeader val => SetLatestBlockHeader val b
  | CSetBlockRoots val => SetBlockRoots val b
  | CUpdateBlockRootAtIndex idx blockRoot => UpdateBlockRootAtIndex idx blockRoot b
  | CSetStateRoots val => SetStateRoots val b
  | CUpdateStateRootAtIndex idx stateRoot => UpdateStateRootAtIndex idx stateRoot b
  | CSetHistoricalRoots val => SetHistoricalRoots val b
  | CSetEth1Data val => SetEth1Data val b
  | CSetEth1DataVotes val => SetEth1DataVotes val b
  | CAppendEth1DataVotes val => AppendEth1DataVotes val b
  | CSetEth1DepositIndex val => SetEth1DepositIndex val b
  | CSetValidators val => SetValidators val b
  | CApplyToEveryValidator f => ApplyToEveryValidator f b
  | CUpdateValidatorAtIndex idx val => UpdateValidatorAtIndex idx val b
  | CSetBalances val => SetBalances val b
  | CUpdateBalancesAtIndex idx val => UpdateBalancesAtIndex idx val b
  | CSetRandaoMixes val => SetRandaoMixes val b
  | CUpdateRandaoMixesAtIndex val idx => UpdateRandaoMixesAtIndex val idx b
  | CSetSlashings val => SetSlashings val b
  | CUpdateSlashingsAtIndex idx val => UpdateSlashingsAtIndex idx val b
  | CSetPreviousEpochAttestations val => SetPreviousEpochAttestations val b
  | CSetCurrentEpochAttestations val => SetCurrentEpochAttestations val b
  | CAppendHistoricalRoots root => AppendHistoricalRoots root b
  | CAppendCurrentEpochAttestations val => AppendCurrentEpochAttestations val b
  | CAppendPreviousEpochAttestations val => AppendPreviousEpochAttestations val b
  | CAppendValidator val => AppendValidator val b
  | CAppendBalance bal => AppendBalance bal b
  | CSetJustificationBits val => SetJustificationBits val b
  | CSetPreviousJustifiedCheckpoint val => SetPreviousJustifiedCheckpoint val b
  | CSetCurrentJustifiedCheckpoint val => SetCurrentJustifiedCheckpoint val b
  | CSetFinalizedCheckpoint val => SetFinalizedCheckpoint val b
  | CSetValidatorIndexByPubkey pubKey validatorIdx =>
      Ok (SetValidatorIndexByPubkey pubKey validatorIdx b)
  end.

(** The field a call marks dirty. *)
Definition fieldOf (c : call) : option fieldIndex :=
  match c with
  | CSetGenesisTime _ => Some genesisTime
  | CSetSlot _ => Some slot
  | CSetFork _ => Some fork
  | CSetLatestBlockHeader _ => Some latestBlockHeader
  | CSetBlockRoots _ => Some blockRoots
  | CUpdateBlockRootAtIndex _ _ => Some blockRoots
  | CSetStateRoots _ => Some stateRoots
  | CUpdateStateRootAtIndex _ _ => Some stateRoots
  | CSetHistoricalRoots _ => Some historicalRoots
  | CSetEth1Data _ => Some eth1Data
  | CSetEth1DataVotes _ => Some eth1DataVotes
  | CAppendEth1DataVotes _ => Some eth1DataVotes
  | CSetEth1DepositIndex _ => Some eth1DepositIndex
  | CSetValidators _ => Some validators
  | CApplyToEveryValidator _ => Some validators
  | CUpdateValidatorAtIndex _ _ => Some validators
  | CSetBalances _ => Some balances
  | CUpdateBalancesAtIndex _ _ => Some balances
  | CSetRandaoMixes _ => Some randaoMixes
  | CUpdateRandaoMixesAtIndex _ _ => Some randaoMixes
  | CSetSlashings _ => Some slashings
  | CUpdateSlashingsAtIndex _ _ => Some slashings
  | CSetPreviousEpochAttestations _ => Some previousEpochAttestations
  | CSetCurrentEpochAttestations _ => Some currentEpochAttestations
  | CAppendHistoricalRoots _ => Some historicalRoots
  | CAppendCurrentEpochAttestations _ => Some currentEpochAttestations
  | CAppendPreviousEpochAttestations _ => Some previousEpochAttestations
  | CAppendValidator _ => Some validators
  | CAppendBalance _ => Some balances
  | CSetJustificationBits _ => Some justificationBits
  | CSetPreviousJustifiedCheckpoint _ => Some previousJustifiedCheckpoint
  | CSetCurrentJustifiedCheckpoint _ => Some currentJustifiedCheckpoint
  | CSetFinalizedCheckpoint _ => Some finalizedCheckpoint
  | CSetValidatorIndexByPubkey _ _ => None
  end.

(** Calls one after the other, stopping at the first that fails. *)
Fixpoint runAll (cs : list call) (b : BeaconState) : outcome BeaconState :=
  match cs with
  | [] => Ok b
  | c :: rest =>
      match run c b with
      | Ok b => runAll rest b
      | Err msg => Err msg
      | Panic => Panic
      end
  end.

(** What a call keeps: the layers of the trie, the marks already set and,
    when it marks a field, the index of public keys. *)
Definition keeps (c : call) (b b' : BeaconState) : Prop :=
  merkleLayers b' = merkleLayers b /\
  (forall g x, dirtyFields b !! g = Some x -> dirtyFields b' !! g = Some x) /\
  (forall f, fieldOf c = Some f -> is_Some (dirtyFields b' !! f)) /\
  (forall f, fieldOf c = Some f -> valIdxMap b' = valIdxMap b).

(** What an update of the slice [get] at an index does, by the index: below
    the length, the element is stored and the field marked dirty, the rest of
    the state being kept; from the length up to 2^63 - 1, the error; from
    2^63 on (the slice being shorter), the bound check passes, [int(idx)]
    being negative, and the write panics. *)
Definition updatesAtIndex {A} (get : pbBeaconState -> list A)
    (field : fieldIndex) (update : Z -> A -> BeaconState -> outcome BeaconState) : Prop :=
  forall (b : BeaconState) idx val,
    0 <= idx < 2^64 ->
    let n := Z.of_nat (length (get (state b))) in
    (idx < n ->
     exists b', update idx val b = Ok b' /\
       get (state b') !! Z.to_nat idx = Some val /\
       length (get (state b')) = length (get (state b)) /\
       (forall j, j <> Z.to_nat idx -> get (state b') !! j = get (state b) !! j) /\
       is_Some (dirtyFields b' !! field)) /\
    (n <= idx < 2^63 -> update idx val b = Err "invalid index provided") /\
    (2^63 <= idx -> n <= idx -> update idx val b = Panic).

End Messages.

Arguments pbBeaconState : clear implicits.
Arguments BeaconState : clear implicits.
Arguments call : clear implicits.

(** A trie of four leaves under concatenation as the hash; the first leaf
    has been replaced and the levels above are stale.  Every node is the
    whole of an array of its own. *)
Definition leafA : list Byte.byte := [Byte.x0a].
Definition leafB : list Byte.byte := [Byte.x0b].
Definition leafC : list Byte.byte := [Byte.x0c].
Definition leafD : list Byte.byte := [Byte.x0d].
Definition leafE : list Byte.byte := [Byte.x0e].

Definition staleHeap : heap :=
  [ leafE; leafB; leafC; leafD;
    leafA ++ leafB; leafC ++ leafD;
    (leafA ++ leafB) ++ (leafC ++ leafD) ].

Definition staleTrie : BeaconState unit unit unit unit unit unit :=
  mkBeaconState (mkPb 0 0 None None [] [] [] None [] 0 [] [] [] [] [] [] [] None None None)
    ∅ ∅
    [ [whole 0 1; whole 1 1; whole 2 1; whole 3 1];
      [whole 4 2; whole 5 2];
      [whole 6 4] ].

(** The same trie with the first and the third leaf in one array, the
    first leaf having the capacity of both. *)
Definition sharedHeap : heap :=
  [ leafE ++ leafC; leafB; leafD;
    leafA ++ leafB; leafC ++ leafD;
    (leafA ++ leafB) ++ (leafC ++ leafD) ].

Definition thirdLeaf : slice := {| arr := 0; off := 1; len := 1; cap := 1 |}.

Definition sharedTrie : BeaconState unit unit unit unit unit unit :=
  mkBeaconState (mkPb 0 0 None None [] [] [] None [] 0 [] [] [] [] [] [] [] None None None)
    ∅ ∅
    [ [{| arr := 0; off := 0; len := 1; cap := 2 |}; whole 1 1; thirdLeaf; whole 2 1];
      [whole 3 2; whole 4 2];
      [whole 5 4] ].

End State.

(* ===================================================================== *)
(** * rpc: ListValidatorBalances                                           *)
(* ===================================================================== *)

Module Rpc.

(** ethpb.Validator: the field the server reads. *)
Record Validator := mkValidator {
  Validator_PublicKey : list Byte.byte
}.

(** ethpb.ValidatorBalances_Balance *)
Record ValidatorBalances_Balance := mkBalance {
  PublicKey : list Byte.byte;
  Index : Z;
  Balance : Z
}.

(** ethpb.GetValidatorBalancesRequest *)
Record GetValidatorBalancesRequest := mkRequest {
  PublicKeys : list (list Byte.byte);
  Indices : list Z
}.

(** The gRPC status codes the function uses. *)
Inductive code := Internal | OutOfRange.

(** The response, the status error (its code and the fixed part of its
    message), or the panic of an index out of range or a nil pointer. *)
Inductive outcome (A : Type) :=
  | Ok (a : A)
  | Err (c : code) (msg : string)
  | Panic.
Arguments Ok {A} a.
Arguments Err {A} c msg.
Arguments Panic {A}.

(** [int(x)] of a uint64 [x]. *)
Definition int (x : Z) : Z := if x <? 2^63 then x else x - 2^64.

(** [s[idx]] on a slice, [idx] a uint64: [None] for the panic. *)
Definition at_ {A} (s : list A) (idx : Z) : option A :=
  if idx <? Z.of_nat (length s) then s !! Z.to_nat idx else None.

Section Server.

(** bs.beaconDB: db.BeaconDB is not among the sources.  What its three reads
    return, [None] for an error; the registry is a slice of pointers, a nil
    one being [None]. *)
Variable Balances : option (list Z).
Variable Validators : option (list (option Validator)).
Variable ValidatorIndex : list Byte.byte -> option Z.

(** The loop over req.PublicKeys. *)
Fixpoint keysLoop (balances : list Z) (pubKeys : list (list Byte.byte))
    (filtered : gset Z) (res : list ValidatorBalances_Balance)
    : outcome (gset Z * list ValidatorBalances_Balance) :=
  match pubKeys with
  | [] => Ok (filtered, res)
  | pubKey :: rest =>
      match ValidatorIndex pubKey with
      | None => Err Internal "could not retrieve validator index"
      | Some index =>
          let filtered := {[index]} ∪ filtered in
          if Z.of_nat (length balances) <=? int index
          then Err OutOfRange "validator index >= balance list"
          else
            match at_ balances index with
            | None => Panic
            | Some balance =>
                keysLoop balances rest filtered (res ++ [mkBalance pubKey index balance])
            end
      end
  end.

(** The loop over req.Indices. *)
Fixpoint indicesLoop (balances : list Z) (validators : list (option Validator))
    (indices : list Z) (filtered : gset Z) (res : list ValidatorBalances_Balance)
    : outcome (list ValidatorBalances_Balance) :=
  match indices with
  | [] => Ok res
  | index :: rest =>
      if Z.of_nat (length balances) <=? int index
      then Err OutOfRange "validator index >= balance list"
      else if bool_decide (index ∈ filtered)
      then indicesLoop balances validators rest filtered res
      else
        match at_ validators index with
        | Some (Some validator) =>
            match at_ balances index with
            | Some balance =>
                indicesLoop balances validators rest filtered
                  (res ++ [mkBalance (Validator_PublicKey validator) index balance])
            | None => Panic
            end
        | _ => Panic
        end
  end.

(** ListValidatorBalances: the Balances of the response. *)
Definition ListValidatorBalances (req : GetValidatorBalancesRequest)
    : outcome (list ValidatorBalances_Balance) :=
  match Balances with
  | None => Err Internal "could not retrieve validator balances"
  | Some balances =>
      match Validators with
      | None => Err Internal "could not retrieve validators"
      | Some validators =>
          match keysLoop balances (PublicKeys req) ∅ [] with
          | Ok (filtered, res) => indicesLoop balances validators (Indices req) filtered res
          | Err c msg => Err c msg
          | Panic => Panic
          end
      end
  end.

End Server.

(** An entry of the response reports the balance at its index. *)
Definition reportsBalance (balances : list Z) (e : ValidatorBalances_Balance) : Prop :=
  at_ balances (Index e) = Some (Balance e).

(** An entry of the response carries the key of the registry at its index. *)
Definition reportsKey (validators : list (option Validator))
    (e : ValidatorBalances_Balance) : Prop :=
  exists v, at_ validators (Index e) = Some (Some v) /\ Validator_PublicKey v = PublicKey e.

(** A registry of three validators whose keys are one byte each, with
    their balances. *)
Definition keyA : list Byte.byte := [Byte.x0a].
Definition keyB : list Byte.byte := [Byte.x0b].
Definition keyC : list Byte.byte := [Byte.x0c].

Definition someRegistry : list (option Validator) :=
  [Some (mkValidator keyA); Some (mkValidator keyB); Some (mkValidator keyC)].

Definition someBalances : option (list Z) := Some [10; 20; 30].

Definition someIndex (pubKey : list Byte.byte) : option Z :=
  if bool_decide (pubKey = keyA) then Some 0
  else if bool_decide (pubKey = keyB) then Some 1
  else if bool_decide (pubKey = keyC) then Some 2
  else None.

End Rpc.

(* ===================================================================== *)
(** * validator client: SubmitAttestation                                 *)
(* ===================================================================== *)

Module Client.

(** ethpb.Checkpoint and ethpb.AttestationData; a pointer is an [option]. *)
Record Checkpoint := mkCheckpoint {
  Epoch : Z;
  Root : list Byte.byte
}.

Record AttestationData := mkAttestationData {
  Slot : Z;
  CommitteeIndex : Z;
  BeaconBlockRoot : list Byte.byte;
  Source : option Checkpoint;
  Target : option Checkpoint
}.

(** How a call ends: it returns, or it panics on a nil pointer. *)
Inductive ending := Returned | Panicked.

(** The first position of [vID] in the committee, from position [i] on:
    the loop [for i, vID := range duty.Committee]. *)
Fixpoint indexInCommittee (vID : Z) (committee : list Z) (i : Z) : option Z :=
  match committee with
  | [] => None
  | x :: rest => if x =? vID then Some i else indexInCommittee vID rest (i + 1)
  end.

Section Services.

(** bitfield.Bitlist, the signature domain, ethpb.AttestResponse and the
    validator's database are declared in packages that are not among the
    sources; they are of any type here. *)
Context {Bits Domain AttestResponse DB : Type}.

(** ethpb.Attestation *)
Record Attestation := mkAttestation {
  Data : AttestationData;
  AggregationBits : Bits;
  Signature : list Byte.byte
}.

(** What the beacon node and the key manager answer during one call, [None]
    for an error: validatorClient.GetAttestationData (by slot and committee
    index), validatorClient.DomainData (by epoch, the domain being
    DomainBeaconAttester), keyManager.Sign followed by Marshal, and
    validatorClient.ProposeAttestation. *)
Record Services := mkServices {
  GetAttestationData : Z -> Z -> option AttestationData;
  DomainData : Z -> option Domain;
  Sign : list Byte.byte -> list Byte.byte -> Domain -> option (list Byte.byte);
  ProposeAttestation : Attestation -> option AttestResponse
}.

(** Not among the sources: featureconfig.Get().ProtectAttester, the two
    constants of params.BeaconConfig(), ssz.HashTreeRoot and
    hashutil.HashProto ([None] for an error), bitfield.NewBitlist and
    SetBitAt, and the two operations of the database, AttestationHistory
    ([None] for an error) and SaveAttestationHistory (the database
    afterwards, and whether it returned an error). *)
Variable ProtectAttester : bool.
Variable WeakSubjectivityPeriod : Z.
Variable FarFutureEpoch : Z.
Variable HashTreeRoot : AttestationData -> option (list Byte.byte).
Variable HashProto : AttestationData -> option Z.
Variable NewBitlist : Z -> Bits.
Variable SetBitAt : Bits -> Z -> bool -> Bits.
Variable AttestationHistory : DB -> list Byte.byte -> option Attester.AttestationHistory.
Variable SaveAttestationHistory :
  DB -> list Byte.byte -> Attester.AttestationHistory -> DB * bool.

(** The validator: the fields SubmitAttestation reads and writes. *)
Record validator := mkValidator {
  duties : option (list Validator.Duty);
  attLogs : gmap Z (Validator.attSubmitted AttestationData);
  db : DB
}.

Definition withAttLogs (l : gmap Z (Validator.attSubmitted AttestationData))
    (v : validator) : validator :=
  {| duties := duties v; attLogs := l; db := db v |}.
Definition withDb (d : DB) (v : validator) : validator :=
  {| duties := duties v; attLogs := attLogs v; db := d |}.

(** What a call has done when it ends: the validator afterwards, and the
    attestations it has passed to ProposeAttestation. *)
Record run := mkRun {
  after : validator;
  proposed : list Attestation;
  ended : ending
}.

(** signAtt: the signature, an error, or the panic of [data.Target.Epoch]
    on a nil target. *)
Inductive signed :=
  | SignOk (sig : list Byte.byte)
  | SignErr
  | SignPanic.

Definition signAtt (s : Services) (pubKey : list Byte.byte) (data : AttestationData)
    : signed :=
  match Target data with
  | None => SignPanic
  | Some target =>
      match DomainData s (Epoch target) with
      | None => SignErr
      | Some domain =>
          match HashTreeRoot data with
          | None => SignErr
          | Some root =>
              match Sign s pubKey root domain with
              | None => SignErr
              | Some sig => SignOk sig
              end
          end
      end
  end.

(** The first block under ProtectAttester: go on, return, panic (a nil
    source or target), or never come back from isNewAttSlashable. *)
Inductive checked := Proceed | Stop | CheckPanic | CheckLoops.

Definition protectCheck (v : validator) (pubKey : list Byte.byte)
    (data : AttestationData) : checked :=
  if ProtectAttester then
    match AttestationHistory (db v) pubKey with
    | None => Stop
    | Some history =>
        match Source data, Target data with
        | Some source, Some target =>
            match Attester.isNewAttSlashable WeakSubjectivityPeriod FarFutureEpoch
                    history (Epoch source) (Epoch target) with
            | None => CheckLoops
            | Some true => Stop
            | Some false => Proceed
            end
        | _, _ => CheckPanic
        end
    end
  else Proceed.

(** The second block under ProtectAttester: the validator with the history
    marked and saved, and how to go on. *)
Definition protectMark (v : validator) (pubKey : list Byte.byte)
    (data : AttestationData) : validator * checked :=
  if ProtectAttester then
    match AttestationHistory (db v) pubKey with
    | None => (v, Stop)
    | Some history =>
        match Source data, Target data with
        | Some source, Some target =>
            let history :=
              Attester.markAttestationForTargetEpoch WeakSubjectivityPeriod FarFutureEpoch
                history (Epoch source) (Epoch target) in
            match SaveAttestationHistory (db v) pubKey history with
            | (d, true) => (withDb d v, Stop)
            | (d, false) => (withDb d v, Proceed)
            end
        | _, _ => (v, CheckPanic)
        end
    end
  else (v, Proceed).

(** SubmitAttestation, without its waiting (waitToOneThird sleeps), its log
    lines and its tracing span, of which the evaluation of
    [data.Source.Epoch] for the last attributes is kept.  [None] when the
    call does not end. *)
Definition SubmitAttestation (s : Services) (v : validator) (slot : Z)
    (pubKey : list Byte.byte) : option run :=
  match Validator.duty (duties v) pubKey with
  | Validator.DutyErr _ => Some (mkRun v [] Returned)
  | Validator.DutyOk duty =>
      match GetAttestationData s slot (Validator.CommitteeIndex duty) with
      | None => Some (mkRun v [] Returned)
      | Some data =>
          match protectCheck v pubKey data with
          | CheckLoops => None
          | CheckPanic => Some (mkRun v [] Panicked)
          | Stop => Some (mkRun v [] Returned)
          | Proceed =>
              match signAtt s pubKey data with
              | SignPanic => Some (mkRun v [] Panicked)
              | SignErr => Some (mkRun v [] Returned)
              | SignOk sig =>
                  match indexInCommittee (Validator.ValidatorIndex duty)
                          (Validator.Committee duty) 0 with
                  | None => Some (mkRun v [] Returned)
                  | Some index =>
                      let aggregationBitfield :=
                        SetBitAt
                          (NewBitlist (Z.of_nat (length (Validator.Committee duty))))
                          index true in
                      let attestation :=
                        {| Data := data; AggregationBits := aggregationBitfield;
                           Signature := sig |} in
                      match ProposeAttestation s attestation with
                      | None => Some (mkRun v [attestation] Returned)
                      | Some attResp =>
                          match protectMark v pubKey data with
                          | (v, CheckPanic) => Some (mkRun v [attestation] Panicked)
                          | (v, Proceed) =>
                              match Validator.saveAttesterIndexToData HashProto (attLogs v)
                                      data (Validator.ValidatorIndex duty) with
                              | None => Some (mkRun v [attestation] Returned)
                              | Some logs =>
                                  Some (mkRun (withAttLogs logs v) [attestation]
                                          (match Source data with
                                           | Some _ => Returned
                                           | None => Panicked
                                           end))
                              end
                          | (v, _) => Some (mkRun v [attestation] Returned)
                          end
                      end
                  end
              end
          end
      end
  end.

End Services.

Arguments Attestation : clear implicits.
Arguments Services : clear implicits.
Arguments validator : clear implicits.
Arguments run : clear implicits.

(** Two votes in conflict, the second being of the same target epoch as
    the first, surrounding it, or surrounded by it and within the period
    the history still covers. *)
Definition conflicting (wsPeriod latestEpochWritten source1 target1 source2 target2 : Z)
    : Prop :=
  target2 = target1 \/
  (source2 < source1 /\ source2 <= target1 <= target2) \/
  (source1 < source2 /\ target2 <= target1 /\
   Z.max latestEpochWritten target1 - wsPeriod < target2).

(** A client with one duty, a database that is a function from keys to
    histories, an unknown key reading as the empty history, and a node
    that answers every call. *)
Definition someKey : list Byte.byte := [Byte.x0a].

Definition someDB : Type := list Byte.byte -> option Attester.AttestationHistory.

Definition someClient : validator someDB :=
  {| duties := Some [Validator.mkDuty [7; 9] 1 9 someKey]; attLogs := ∅;
     db := fun _ => None |}.

Definition someRead (d : someDB) (k : list Byte.byte)
    : option Attester.AttestationHistory :=
  Some (default (Attester.mkHistory ∅ 0) (d k)).

Definition someSave (d : someDB) (k : list Byte.byte) (h : Attester.AttestationHistory)
    : someDB * bool :=
  (fun k' => if bool_decide (k' = k) then Some h else d k', false).

Definition someData : AttestationData :=
  {| Slot := 160; CommitteeIndex := 1; BeaconBlockRoot := [Byte.x01];
     Source := Some (mkCheckpoint 3 []); Target := Some (mkCheckpoint 5 []) |}.

(** The same target epoch, for another block. *)
Definition otherData : AttestationData :=
  {| Slot := 161; CommitteeIndex := 1; BeaconBlockRoot := [Byte.x02];
     Source := Some (mkCheckpoint 4 []); Target := Some (mkCheckpoint 5 []) |}.

Definition someServices : Services (list bool) unit unit :=
  {| GetAttestationData := fun _ _ => Some someData;
     DomainData := fun _ => Some tt;
     Sign := fun _ _ _ => Some [Byte.x01];
     ProposeAttestation := fun _ => Some tt |}.

Definition otherServices : Services (list bool) unit unit :=
  {| GetAttestationData := fun _ _ => Some otherData;
     DomainData := fun _ => Some tt;
     Sign := fun _ _ _ => Some [Byte.x01];
     ProposeAttestation := fun _ => Some tt |}.

(** A node that takes the proposal and answers with an error. *)
Definition deafServices : Services (list bool) unit unit :=
  {| GetAttestationData := fun _ _ => Some someData;
     DomainData := fun _ => Some tt;
     Sign := fun _ _ _ => Some [Byte.x01];
     ProposeAttestation := fun _ => None |}.

(** SubmitAttestation with the attester protected, a weak subjectivity
    period of 8 epochs, and a bit list that is a list of booleans. *)
Definition someSubmit :=
  SubmitAttestation true 8 (2^64 - 1) (fun _ => Some []) (fun _ => Some 1)
    (fun n => replicate (Z.to_nat n) false)
    (fun (bits : list bool) i b => <[Z.to_nat i := b]> bits)
    someRead someSave (AttestResponse := unit) (Domain := unit).

End Client.


(* ===================================================================== *)
(** * Properties of the ForkChoice object                                  *)
(* ===================================================================== *)

Module ProtoArrayProps.
Import ProtoArray.

Lemma grow_closed_form fuel index vs :
  (S index <= fuel + length vs)%nat ->
  grow fuel index vs = vs ++ replicate (S index - length vs) zeroVote.
Proof.
  revert vs. induction fuel as [|k IH]; intros vs Hf; simpl.
  - replace (S index - length vs)%nat with O by lia. by rewrite app_nil_r.
  - destruct (Nat.leb_spec (length vs) index) as [Hle|Hgt].
    + rewrite IH; [|rewrite length_app; simpl; lia].
      rewrite length_app. simpl.
      replace (S index - length vs)%nat with (S (index - length vs)) by lia.
      replace (S index - (length vs + 1))%nat with (index - length vs)%nat by lia.
      simpl. by rewrite <- app_assoc.
    + replace (S index - length vs)%nat with O by lia. by rewrite app_nil_r.
Qed.

Lemma grow_length index vs :
  length (grow (S index) index vs) = Nat.max (length vs) (S index).
Proof.
  rewrite grow_closed_form by lia. rewrite length_app, length_replicate. lia.
Qed.

Lemma grow_voteAt index vs j :
  voteAt (grow (S index) index vs) j = voteAt vs j.
Proof.
  rewrite grow_closed_form by lia. unfold voteAt.
  destruct (decide (j < length vs)%nat) as [Hlt|Hge].
  - by rewrite lookup_app_l.
  - rewrite lookup_app_r by lia.
    rewrite (lookup_ge_None_2 vs j) by lia. simpl.
    destruct (replicate _ _ !! _) as [v|] eqn:E; [|done].
    apply lookup_replicate in E as [-> _]. done.
Qed.

Lemma grow_lookup_index index vs :
  grow (S index) index vs !! index = Some (voteAt vs index).
Proof.
  pose proof (grow_voteAt index vs index) as H. unfold voteAt at 1 in H.
  destruct (grow _ _ _ !! index) as [v|] eqn:E; [simpl in H; by subst|].
  apply lookup_ge_None_1 in E. rewrite grow_length in E. lia.
Qed.

Lemma processIndex_eq r e vs i :
  processIndex r e vs i =
    <[i := updated r e (voteAt vs i)]> (grow (S i) i vs).
Proof.
  unfold processIndex, updated. rewrite grow_lookup_index.
  destruct (newVote _ || _); [done|].
  symmetry. apply list_insert_id, grow_lookup_index.
Qed.

Lemma processIndex_length r e vs i :
  length (processIndex r e vs i) = Nat.max (length vs) (S i).
Proof. by rewrite processIndex_eq, length_insert, grow_length. Qed.

Lemma processIndex_voteAt r e vs i j :
  voteAt (processIndex r e vs i) j =
    if decide (j = i) then updated r e (voteAt vs i) else voteAt vs j.
Proof.
  rewrite processIndex_eq. case_decide as Hj.
  - subst j. unfold voteAt at 1.
    rewrite list_lookup_insert_eq; [done|]. rewrite grow_length. lia.
  - unfold voteAt at 1. rewrite list_lookup_insert_ne by congruence.
    apply grow_voteAt.
Qed.

Lemma updated_idem r e v : updated r e (updated r e v) = updated r e v.
Proof.
  unfold updated. destruct (newVote v || (nextEpoch v <? e)) eqn:E.
  - destruct (newVote (setNext r e v) || _); reflexivity.
  - by rewrite E.
Qed.

Lemma fold_length r e idxs vs :
  length (foldl (processIndex r e) vs idxs) = Nat.max (length vs) (needed idxs).
Proof.
  revert vs. induction idxs as [|i idxs IH]; intros vs; simpl; [lia|].
  rewrite IH, processIndex_length. lia.
Qed.

Lemma fold_voteAt r e idxs vs j :
  voteAt (foldl (processIndex r e) vs idxs) j =
    if decide (j ∈ idxs) then updated r e (voteAt vs j) else voteAt vs j.
Proof.
  revert vs. induction idxs as [|i idxs IH]; intros vs; cbn [foldl].
  - case_decide as H; [by apply elem_of_nil in H|done].
  - rewrite IH, processIndex_voteAt.
    destruct (decide (j = i)) as [->|Hne].
    + rewrite (decide_True (P := i ∈ i :: idxs)) by apply list_elem_of_here.
      case_decide; [apply updated_idem|done].
    + case_decide as Hin.
      * rewrite decide_True by (by apply list_elem_of_further). done.
      * rewrite decide_False; [done|]. intros [?|?]%elem_of_cons; done.
Qed.

Lemma votes_ext (l1 l2 : list Vote) :
  length l1 = length l2 -> (forall j, voteAt l1 j = voteAt l2 j) -> l1 = l2.
Proof.
  intros Hlen Hv. apply list_eq. intros j. specialize (Hv j). unfold voteAt in Hv.
  destruct (decide (j < length l1)%nat) as [Hlt|Hge].
  - destruct (lookup_lt_is_Some_2 l1 j Hlt) as [a Ha].
    destruct (lookup_lt_is_Some_2 l2 j ltac:(lia)) as [b Hb].
    rewrite Ha, Hb in *. simpl in Hv. by subst.
  - rewrite !lookup_ge_None_2 by lia. done.
Qed.

Lemma voteAt_lookup (vs : list Vote) j :
  (j < length vs)%nat -> vs !! j = Some (voteAt vs j).
Proof.
  intros Hlt. destruct (lookup_lt_is_Some_2 vs j Hlt) as [a Ha].
  unfold voteAt. by rewrite Ha.
Qed.

Lemma needed_ge idxs i : i ∈ idxs -> (S i <= needed idxs)%nat.
Proof.
  induction idxs as [|k idxs IH]; simpl; [by intros ?%elem_of_nil|].
  intros [->|Hin]%elem_of_cons; [lia|]. specialize (IH Hin). lia.
Qed.

Lemma needed_attained idxs :
  idxs <> [] -> exists i, i ∈ idxs /\ needed idxs = S i /\ forall k, k ∈ idxs -> (k <= i)%nat.
Proof.
  induction idxs as [|a idxs IH]; [done|]. intros _. simpl.
  destruct idxs as [|b idxs'].
  - exists a. simpl. split; [apply list_elem_of_here|]. split; [lia|].
    intros k ->%list_elem_of_singleton. lia.
  - destruct IH as (i & Hin & Hn & Hmax); [done|].
    destruct (Nat.le_gt_cases a i) as [Hle|Hgt].
    + exists i. split; [by apply list_elem_of_further|]. split; [lia|].
      intros k [->|Hk]%elem_of_cons; [lia|by apply Hmax].
    + exists a. split; [apply list_elem_of_here|]. split; [lia|].
      intros k [->|Hk]%elem_of_cons; [lia|]. specialize (Hmax k Hk). lia.
Qed.

Lemma newVote_zeroVote : newVote zeroVote = true.
Proof. reflexivity. Qed.

Lemma voteAt_beyond (vs : list Vote) j : (length vs <= j)%nat -> voteAt vs j = zeroVote.
Proof. intros H. unfold voteAt. by rewrite lookup_ge_None_2. Qed.

Lemma updated_lower r r' e e' v :
  e' < e -> r <> ZeroHash \/ currentRoot v <> ZeroHash ->
  updated r' e' (updated r e v) = updated r e v.
Proof.
  intros Hlt Hnz. unfold updated.
  destruct (newVote v || (nextEpoch v <? e)) eqn:E.
  - assert (newVote (setNext r e v) || (nextEpoch (setNext r e v) <? e') = false) as ->; [|done].
    unfold newVote, ZeroHash in *. simpl. apply orb_false_iff. split; [|lia].
    apply andb_false_iff. destruct Hnz; [left|right]; lia.
  - apply orb_false_iff in E as [E1 E2]. rewrite E1.
    replace (nextEpoch v <? e') with false by lia. done.
Qed.

(** ** New *)

(** C6: for every justifiedEpoch, finalizedEpoch and finalizedRoot, New
    returns a ForkChoice whose store records exactly these three values, has
    no node and an empty root-to-index map, a prune threshold of 256, and
    whose balance and vote vectors are empty. *)
Theorem New_initial (je fe : Z) (fr : Z) :
  let f := New je fe fr in
  justifiedEpoch (store f) = je /\
  finalizedEpoch (store f) = fe /\
  finalizedRoot (store f) = fr /\
  nodes (store f) = [] /\
  nodeIndices (store f) = ∅ /\
  pruneThreshold (store f) = 256 /\
  balances f = [] /\
  votes f = [].
Proof. cbv zeta. unfold New. simpl. repeat split; reflexivity. Qed.

(** ** ProcessAttestation *)

(** The entry of a listed index after the call, in terms of its entry (or
    the zero vote) before the call. *)
Lemma ProcessAttestation_voteAt f idxs r e j :
  voteAt (votes (ProcessAttestation f idxs r e)) j =
    if decide (j ∈ idxs) then updated r e (voteAt (votes f) j) else voteAt (votes f) j.
Proof. apply fold_voteAt. Qed.

Lemma ProcessAttestation_length f idxs r e :
  length (votes (ProcessAttestation f idxs r e)) = Nat.max (length (votes f)) (needed idxs).
Proof. apply fold_length. Qed.

(** C5: after ProcessAttestation the vote vector is as long as the maximum of
    its previous length and the largest listed index plus one ([needed],
    which is attained by a listed index and bounds them all; zero when no
    index is listed), so it never shrinks; a slot allocated by the growth and
    not listed is the zero vote (zero roots, epoch zero); a slot below the
    old length and not listed is unchanged. *)
Theorem ProcessAttestation_growth f (idxs : list nat) r e :
  let vs := votes f in
  let vs' := votes (ProcessAttestation f idxs r e) in
  length vs' = Nat.max (length vs) (needed idxs) /\
  (idxs <> [] ->
   exists i, i ∈ idxs /\ needed idxs = S i /\ forall k, k ∈ idxs -> (k <= i)%nat) /\
  (length vs <= length vs')%nat /\
  (forall j, (length vs <= j < length vs')%nat -> j ∉ idxs -> vs' !! j = Some zeroVote) /\
  (forall j, (j < length vs)%nat -> j ∉ idxs -> vs' !! j = vs !! j).
Proof.
  cbv zeta. pose proof (ProcessAttestation_length f idxs r e) as Hlen.
  split; [exact Hlen|]. split; [apply needed_attained|]. split; [lia|]. split.
  - intros j [Hge Hlt] Hnot. rewrite voteAt_lookup by done.
    rewrite ProcessAttestation_voteAt, decide_False by done.
    by rewrite voteAt_beyond.
  - intros j Hlt Hnot. rewrite voteAt_lookup by lia.
    rewrite ProcessAttestation_voteAt, decide_False by done.
    symmetry. by apply voteAt_lookup.
Qed.

(** C4: ProcessAttestation is idempotent: a second call with the same
    arguments leaves the ForkChoice, and so the vote vector, as the first
    call left it. *)
Theorem ProcessAttestation_idempotent f (idxs : list nat) r e :
  ProcessAttestation (ProcessAttestation f idxs r e) idxs r e =
  ProcessAttestation f idxs r e.
Proof.
  set (f1 := ProcessAttestation f idxs r e).
  assert (votes (ProcessAttestation f1 idxs r e) = votes f1) as Hv.
  { apply votes_ext.
    - rewrite ProcessAttestation_length. subst f1.
      rewrite ProcessAttestation_length. lia.
    - intros j. rewrite ProcessAttestation_voteAt. subst f1.
      rewrite ProcessAttestation_voteAt.
      case_decide; [apply updated_idem|done]. }
  change (ProcessAttestation f1 idxs r e)
    with {| store := store f1; balances := balances f1;
            votes := votes (ProcessAttestation f1 idxs r e) |}.
  rewrite Hv. clearbody f1. by destruct f1.
Qed.

Lemma needed_mono (idxs idxs' : list nat) :
  (forall i, i ∈ idxs -> i ∈ idxs') -> (needed idxs <= needed idxs')%nat.
Proof.
  induction idxs as [|a idxs IH]; intros Hsub; simpl; [lia|].
  pose proof (needed_ge idxs' a (Hsub a (list_elem_of_here a idxs))).
  specialize (IH (fun i Hi => Hsub i (list_elem_of_further i a idxs Hi))). lia.
Qed.

(** ProcessAttestation depends on the listed indices as a set: their order
    and their repetitions do not matter. *)
Theorem ProcessAttestation_set f (idxs idxs' : list nat) r e :
  (forall i, i ∈ idxs <-> i ∈ idxs') ->
  ProcessAttestation f idxs r e = ProcessAttestation f idxs' r e.
Proof.
  intros Hsame. unfold ProcessAttestation. f_equal. apply votes_ext.
  - rewrite !fold_length.
    pose proof (needed_mono idxs idxs' (fun i => proj1 (Hsame i))).
    pose proof (needed_mono idxs' idxs (fun i => proj2 (Hsame i))). lia.
  - intros j. rewrite !fold_voteAt.
    destruct (decide (j ∈ idxs)) as [Hin|Hnot].
    + rewrite decide_True by (by apply Hsame). done.
    + rewrite decide_False; [done|]. intros ?%Hsame. done.
Qed.

Lemma ProcessAttestation_set_witness :
  ProcessAttestation (New 0 0 0) [2%nat; 0%nat; 2%nat] 7 5 =
  ProcessAttestation (New 0 0 0) [0%nat; 2%nat] 7 5.
Proof.
  apply ProcessAttestation_set. intros i. rewrite !elem_of_cons, !elem_of_nil. tauto.
Defined.

(** C2 (amended): the entry of a listed index receives blockRoot and
    targetEpoch exactly when, before the call, both its roots are the zero
    hash ([newVote]; this holds of every slot the call allocates, and of a
    slot allocated earlier and never voted for) or targetEpoch is strictly
    greater than its nextEpoch; otherwise it is left as it was. *)
Theorem ProcessAttestation_listed f (idxs : list nat) r e i :
  i ∈ idxs ->
  let v := voteAt (votes f) i in
  votes (ProcessAttestation f idxs r e) !! i =
    Some (if newVote v || (nextEpoch v <? e) then setNext r e v else v) /\
  ((length (votes f) <= i)%nat -> newVote v = true).
Proof.
  intros Hin. cbv zeta. split.
  - rewrite voteAt_lookup.
    + by rewrite ProcessAttestation_voteAt, decide_True.
    + rewrite ProcessAttestation_length. pose proof (needed_ge idxs i Hin). lia.
  - intros Hge. by rewrite voteAt_beyond.
Qed.

Lemma ProcessAttestation_listed_witness :
  votes (ProcessAttestation (New 0 0 0) [2%nat] 7 5) !! 2%nat =
    Some {| currentRoot := 0; nextRoot := 7; nextEpoch := 5 |}.
Proof.
  exact (proj1 (ProcessAttestation_listed (New 0 0 0) [2%nat] 7 5 2%nat
                  (list_elem_of_here 2%nat []))).
Defined.

(** C2 as stated fails: validator 0's slot was allocated by an earlier call
    for validator 1 and never voted for; a vote with target epoch 0 is then
    neither newly allocated by the call nor of a greater epoch, yet it is
    recorded. *)
Lemma ProcessAttestation_untouched_slot_updated :
  let f1 := ProcessAttestation (New 0 0 0) [1%nat] 7 5 in
  votes f1 !! 0%nat = Some zeroVote /\
  entry_as_claimed (votes f1) 9 0 0 = zeroVote /\
  votes (ProcessAttestation f1 [0%nat] 9 0) !! 0%nat =
    Some {| currentRoot := 0; nextRoot := 9; nextEpoch := 0 |} /\
  votes (ProcessAttestation f1 [0%nat] 9 0) !! 0%nat <>
    Some (entry_as_claimed (votes f1) 9 0 0).
Proof. cbv zeta. repeat split; try reflexivity. vm_compute. discriminate. Qed.

(** A sequence of calls never shortens the vote vector. *)
Lemma processAll_length (atts : list Attestation) : forall f,
  (length (votes f) <= length (votes (processAll f atts)))%nat.
Proof.
  induction atts as [|a atts IH]; intros f; [done|].
  unfold processAll in *. cbn [foldl].
  etrans; [|apply IH]. rewrite ProcessAttestation_length. lia.
Qed.

(** What every call that lists [v] keeps of a vote, a sequence of calls
    keeps of the vote of [v]. *)
Lemma processAll_keeps (P : Vote -> Prop) v (atts : list Attestation) :
  (forall a w, a ∈ atts -> v ∈ attIndices a ->
     P w -> P (updated (attRoot a) (attEpoch a) w)) ->
  forall f, P (voteAt (votes f) v) -> P (voteAt (votes (processAll f atts)) v).
Proof.
  induction atts as [|a atts IH]; intros Hstep f Hf; [done|].
  unfold processAll in *. cbn [foldl]. apply IH.
  - intros a' w Ha'. apply Hstep. by apply list_elem_of_further.
  - rewrite ProcessAttestation_voteAt. case_decide; [|done].
    apply Hstep; [apply list_elem_of_here|done|done].
Qed.

(** A vote that has been recorded with epoch [e] or more, with [c] as its
    current root, and that does not read as untouched. *)
Abbreviation recordedFrom e c w :=
  (e <= nextEpoch w /\ currentRoot w = c /\ newVote w = false).

Lemma recordedFrom_first r e (w : Vote) :
  r <> ZeroHash \/ currentRoot w <> ZeroHash ->
  recordedFrom e (currentRoot w) (updated r e w).
Proof.
  intros Hnz. unfold updated.
  destruct (newVote w || (nextEpoch w <? e)) eqn:E.
  - simpl. split; [lia|]. split; [done|]. unfold newVote, ZeroHash in *. simpl.
    apply andb_false_iff. destruct Hnz; [left|right]; lia.
  - apply orb_false_iff in E as [E1 E2]. split; [lia|]. by split.
Qed.

Lemma recordedFrom_next r' e' e c (w : Vote) :
  c <> ZeroHash \/ r' <> ZeroHash ->
  recordedFrom e c w -> recordedFrom e c (updated r' e' w).
Proof.
  intros Hnz (He & Hc & Hn). unfold updated. rewrite Hn. cbn [orb].
  destruct (Z.ltb_spec (nextEpoch w) e') as [Hlt|Hge]; [|done].
  simpl. split; [lia|]. split; [done|]. unfold newVote, ZeroHash in *. simpl.
  apply andb_false_iff. destruct Hnz; [right|left]; lia.
Qed.

Lemma recordedFrom_lower r' e' e c (w : Vote) :
  e' < e -> recordedFrom e c w -> updated r' e' w = w.
Proof.
  intros Hlt (He & _ & Hn). unfold updated. rewrite Hn. cbn [orb].
  by replace (nextEpoch w <? e') with false by lia.
Qed.

(** C3 (amended): once a vote of v with root r and epoch e was processed, a
    later vote of v with a smaller epoch is ignored, whatever
    ProcessAttestation calls come between the two, provided v's currentRoot
    is not the zero hash, or neither r nor the root of a call between the
    two that lists v is the zero hash (so that the recorded vote never reads
    as untouched). *)
Theorem vote_monotonic f (idxs idxs' : list nat) (between : list Attestation) v r r' e e' :
  v ∈ idxs -> v ∈ idxs' ->
  e' < e ->
  currentRoot (voteAt (votes f) v) <> ZeroHash \/
    (r <> ZeroHash /\
     forall a, a ∈ between -> v ∈ attIndices a -> attRoot a <> ZeroHash) ->
  let f1 := processAll (ProcessAttestation f idxs r e) between in
  votes (ProcessAttestation f1 idxs' r' e') !! v = votes f1 !! v.
Proof.
  intros Hin Hin' Hlt Hnz. cbv zeta.
  set (f0 := ProcessAttestation f idxs r e).
  assert (length (votes (processAll f0 between)) > v)%nat as Hlen.
  { pose proof (processAll_length between f0) as Hge. unfold f0 in Hge at 1.
    rewrite ProcessAttestation_length in Hge. pose proof (needed_ge idxs v Hin). lia. }
  rewrite (voteAt_lookup (votes (processAll f0 between))) by lia.
  rewrite voteAt_lookup by (rewrite ProcessAttestation_length; lia).
  f_equal. rewrite ProcessAttestation_voteAt, decide_True by done.
  apply (recordedFrom_lower r' e' e (currentRoot (voteAt (votes f) v))); [done|].
  apply (processAll_keeps
           (fun w => recordedFrom e (currentRoot (voteAt (votes f) v)) w)).
  - intros a w Ha Hv. apply recordedFrom_next.
    destruct Hnz as [Hc|[_ Hall]]; [by left|right; by apply Hall].
  - unfold f0. rewrite ProcessAttestation_voteAt, decide_True by done.
    apply recordedFrom_first. destruct Hnz as [Hc|[Hr _]]; [by right|by left].
Qed.

Lemma vote_monotonic_witness :
  votes (ProcessAttestation
           (processAll (ProcessAttestation (New 0 0 0) [0%nat] 7 5)
              [mkAttestation [0%nat; 1%nat] 8 6; mkAttestation [1%nat] ZeroHash 7])
           [0%nat] 9 3) !! 0%nat
  = votes (processAll (ProcessAttestation (New 0 0 0) [0%nat] 7 5)
             [mkAttestation [0%nat; 1%nat] 8 6; mkAttestation [1%nat] ZeroHash 7]) !! 0%nat.
Proof.
  apply (vote_monotonic (New 0 0 0) [0%nat] [0%nat]
           [mkAttestation [0%nat; 1%nat] 8 6; mkAttestation [1%nat] ZeroHash 7]
           0%nat 7 9 5 3).
  - apply list_elem_of_here.
  - apply list_elem_of_here.
  - lia.
  - right. split; [unfold ZeroHash; lia|]. intros a Ha Hv.
    apply elem_of_cons in Ha as [->|Ha]; [unfold ZeroHash; simpl; lia|].
    apply list_elem_of_singleton in Ha as ->. simpl in Hv.
    apply list_elem_of_singleton in Hv. discriminate.
Defined.

(** C3 as stated fails for r the zero hash: the recorded vote still has both
    roots zero, reads as untouched, and the later vote of a smaller epoch
    replaces it. *)
Lemma vote_for_zero_root_overridden :
  let f1 := ProcessAttestation (New 0 0 0) [0%nat] ZeroHash 5 in
  let f2 := ProcessAttestation f1 [0%nat] 9 3 in
  3 < 5 /\
  votes f1 !! 0%nat = Some {| currentRoot := 0; nextRoot := 0; nextEpoch := 5 |} /\
  votes f2 !! 0%nat = Some {| currentRoot := 0; nextRoot := 9; nextEpoch := 3 |} /\
  votes f2 !! 0%nat <> votes f1 !! 0%nat.
Proof. cbv zeta. repeat split; try reflexivity. vm_compute. discriminate. Qed.

(** Nor does a root r other than the zero hash suffice when calls come
    between: a vote for the zero hash with a greater epoch makes the entry
    read as untouched again, and the vote of the smaller epoch replaces
    it. *)
Lemma vote_for_zero_root_between :
  let f1 := ProcessAttestation (New 0 0 0) [0%nat] 7 5 in
  let f2 := ProcessAttestation f1 [0%nat] ZeroHash 6 in
  let f3 := ProcessAttestation f2 [0%nat] 9 3 in
  votes f1 !! 0%nat = Some {| currentRoot := 0; nextRoot := 7; nextEpoch := 5 |} /\
  votes f2 !! 0%nat = Some {| currentRoot := 0; nextRoot := 0; nextEpoch := 6 |} /\
  votes f3 !! 0%nat = Some {| currentRoot := 0; nextRoot := 9; nextEpoch := 3 |}.
Proof. cbv zeta. repeat split; reflexivity. Qed.

(** ** Head and Prune *)

Section HeadAndPrune.

Variable computeDeltas :
  gmap Z nat -> list Vote -> list Z -> list Z -> result (list Z * list Vote).
Variable applyWeightChanges : Store -> Z -> Z -> list Z -> Store * option error.
Variable head : Store -> Z -> result Z.
Variable prune : Store -> Z -> Store * option error.

(** C1 (amended): whatever the store's methods compute, Head leaves the
    ForkChoice untouched only when computeDeltas fails.  Once computeDeltas
    has succeeded the vote vector is the one it returned, also when Head then
    returns an error; the balance snapshot is still the old one when
    applyWeightChanges fails, and is the justified state's balances once
    applyWeightChanges has succeeded, also when the head lookup then fails. *)
Theorem Head_effects f (finalizedEpoch : Z) (justifiedRoot : Z)
    (justifiedStateBalances : list Z) (justifiedEpoch : Z) :
  let out := Head computeDeltas applyWeightChanges head f finalizedEpoch justifiedRoot
               justifiedStateBalances justifiedEpoch in
  match computeDeltas (nodeIndices (store f)) (votes f) (balances f)
          justifiedStateBalances with
  | Err e =>
      is_Err (snd out) = true /\ fst out = f
  | Ok (deltas, newVotes) =>
      votes (fst out) = newVotes /\
      match applyWeightChanges (store f) justifiedEpoch finalizedEpoch deltas with
      | (s, Some e) =>
          is_Err (snd out) = true /\
          store (fst out) = s /\ balances (fst out) = balances f
      | (s, None) =>
          snd out = head s justifiedRoot /\
          store (fst out) = s /\ balances (fst out) = justifiedStateBalances
      end
  end.
Proof.
  cbv zeta. unfold Head.
  destruct (computeDeltas _ _ _ _) as [[deltas newVotes]|e]; [|done].
  simpl. split; [|destruct (applyWeightChanges _ _ _ _) as [s [e|]]]; simpl.
  - by destruct (applyWeightChanges _ _ _ _) as [s [e|]].
  - done.
  - done.
Qed.

(** C7: the two Prune definitions agree on every ForkChoice and finalized
    root: each hands the root, unchanged, to the store's prune and returns
    its result together with the pruned store. *)
Theorem Prune_definitions_agree f (finalizedRoot : Z) :
  Prune prune f finalizedRoot = Prune' prune f finalizedRoot /\
  Prune prune f finalizedRoot =
    (setStore (fst (prune (store f) finalizedRoot)) f,
     snd (prune (store f) finalizedRoot)).
Proof.
  unfold Prune, Prune'. split; [reflexivity|].
  by destruct (prune (store f) finalizedRoot).
Qed.

End HeadAndPrune.

(** With the store's methods as the spec describes them, computeDeltas never
    fails, so every call of Head promotes the votes. *)
Lemma Head_promotes_votes f fe jr jb je :
  votes (fst (Head StoreModel.computeDeltas StoreModel.applyWeightChanges
                StoreModel.head f fe jr jb je)) =
  map StoreModel.promote (votes f).
Proof.
  unfold Head, StoreModel.computeDeltas.
  by destruct (StoreModel.applyWeightChanges _ _ _ _) as [s [e|]].
Qed.

(** C1 as stated fails.  A fresh ForkChoice with one vote is asked for the
    head below a justified root the store does not know: Head returns the
    error of the head lookup, and by then the vote has been promoted and the
    balance snapshot replaced. *)
Lemma Head_error_after_swap :
  let f := ProcessAttestation (New 0 0 0) [0%nat] 1 1 in
  let out := Head StoreModel.computeDeltas StoreModel.applyWeightChanges
               StoreModel.head f 0 7 [32] 0 in
  snd out = Err UnknownJustifiedRoot /\
  votes f = [ {| currentRoot := 0; nextRoot := 1; nextEpoch := 1 |} ] /\
  votes (fst out) = [ {| currentRoot := 1; nextRoot := 1; nextEpoch := 1 |} ] /\
  balances f = [] /\
  balances (fst out) = [32].
Proof. cbv zeta. repeat split; vm_compute; reflexivity. Qed.

(** A failure of applyWeightChanges: the only node has weight 0 while the
    snapshot credits it with 32, so moving the vote away drives its weight
    negative.  Head returns the wrapped error; the vote is promoted all the
    same and the balance snapshot is kept. *)
Example Head_error_in_applyWeightChanges :
  let n := {| slot := 1; root := 1; parent_index := None; justified_epoch := 0;
              finalized_epoch := 0; weight := 0; best_child_index := None;
              best_descendant_index := None |} in
  let s := {| justifiedEpoch := 0; finalizedEpoch := 0; finalizedRoot := 1;
              nodes := [n]; nodeIndices := {[ 1 := 0%nat ]};
              pruneThreshold := defaultPruneThreshold |} in
  let f := {| store := s; balances := [32];
              votes := [ {| currentRoot := 1; nextRoot := 2; nextEpoch := 1 |} ] |} in
  let out := Head StoreModel.computeDeltas StoreModel.applyWeightChanges
               StoreModel.head f 0 1 [32] 0 in
  snd out = Err (Wrap NegativeWeight "Could not apply score changes") /\
  votes (fst out) = [ {| currentRoot := 2; nextRoot := 2; nextEpoch := 1 |} ] /\
  balances (fst out) = [32].
Proof. cbv zeta. repeat split; vm_compute; reflexivity. Qed.

(** On a store that knows the justified root, Head succeeds. *)
Example Head_succeeds :
  let n := {| slot := 1; root := 1; parent_index := None; justified_epoch := 0;
              finalized_epoch := 0; weight := 0; best_child_index := None;
              best_descendant_index := None |} in
  let s := {| justifiedEpoch := 0; finalizedEpoch := 0; finalizedRoot := 1;
              nodes := [n]; nodeIndices := {[ 1 := 0%nat ]};
              pruneThreshold := defaultPruneThreshold |} in
  let f := {| store := s; balances := [];
              votes := [ {| currentRoot := 0; nextRoot := 1; nextEpoch := 1 |} ] |} in
  let out := Head StoreModel.computeDeltas StoreModel.applyWeightChanges
               StoreModel.head f 0 1 [32] 0 in
  snd out = Ok 1 /\
  map weight (nodes (store (fst out))) = [32] /\
  votes (fst out) = [ {| currentRoot := 1; nextRoot := 1; nextEpoch := 1 |} ] /\
  balances (fst out) = [32].
Proof. cbv zeta. repeat split; vm_compute; reflexivity. Qed.

End ProtoArrayProps.

(* ===================================================================== *)
(** * Properties of the attestation history                                *)
(* ===================================================================== *)

Module AttesterProps.
Import Attester.

Ltac unfold_ints :=
  unfold int, sub_int, add64 in *;
  change (2 ^ 64) with 18446744073709551616 in *;
  change (2 ^ 63) with 9223372036854775808 in *;
  change (2 ^ 62) with 4611686018427387904 in *.

Section Config.

Variable WeakSubjectivityPeriod : Z.
Variable FarFutureEpoch : Z.

Let safeTargetToSource := safeTargetToSource WeakSubjectivityPeriod FarFutureEpoch.
Let markAttestationForTargetEpoch :=
  markAttestationForTargetEpoch WeakSubjectivityPeriod FarFutureEpoch.
Let markLoop := markLoop WeakSubjectivityPeriod FarFutureEpoch.
Let withinPeriod := withinPeriod WeakSubjectivityPeriod.

(** The loop stops by its own condition before the fuel runs out: more fuel
    changes nothing. *)
Lemma markLoop_fuel fuel targetEpoch maxToWrite i m :
  0 <= i -> targetEpoch < 2^64 -> targetEpoch - i <= Z.of_nat fuel ->
  markLoop (S fuel) targetEpoch maxToWrite i m = markLoop fuel targetEpoch maxToWrite i m.
Proof.
  revert i m. induction fuel as [|k IH]; intros i m Hi Ht Hf.
  - simpl. replace (i <? targetEpoch) with false by lia. done.
  - change (markLoop (S (S k)) targetEpoch maxToWrite i m)
      with (if (i <? targetEpoch) && (i <=? maxToWrite)
            then markLoop (S k) targetEpoch maxToWrite (add64 i 1)
                   (<[i mod WeakSubjectivityPeriod := FarFutureEpoch]> m)
            else m).
    change (markLoop (S k) targetEpoch maxToWrite i m)
      with (if (i <? targetEpoch) && (i <=? maxToWrite)
            then markLoop k targetEpoch maxToWrite (add64 i 1)
                   (<[i mod WeakSubjectivityPeriod := FarFutureEpoch]> m)
            else m).
    destruct (Z.ltb_spec i targetEpoch) as [Hlt|Hge]; [|done].
    destruct (i <=? maxToWrite); [|done]. simpl.
    assert (add64 i 1 = i + 1) as ->.
    { unfold add64. apply Z.mod_small. lia. }
    apply IH; lia.
Qed.

(** After the marking, the window test of safeTargetToSource passes for the
    marked epoch. *)
Lemma window_after_mark latest targetEpoch :
  0 < WeakSubjectivityPeriod < 2^62 ->
  0 <= latest < 2^64 -> 0 <= targetEpoch < 2^64 ->
  (int targetEpoch <? sub_int (int latest) (int WeakSubjectivityPeriod)) = false ->
  latest < targetEpoch ->
  (int targetEpoch <? sub_int (int targetEpoch) (int WeakSubjectivityPeriod)) = false.
Proof.
  intros Hws Hl Ht Hw Hlt.
  apply Z.ltb_ge. apply Z.ltb_ge in Hw. revert Hw. unfold_ints.
  destruct (Z.ltb_spec WeakSubjectivityPeriod 9223372036854775808); [|lia].
  destruct (Z.ltb_spec targetEpoch 9223372036854775808);
    destruct (Z.ltb_spec latest 9223372036854775808);
    intros Hw; Z.div_mod_to_equations; lia.
Qed.

(** On epochs below 2^63 the window test is the plain comparison of
    integers: targetEpoch >= LatestEpochWritten - WeakSubjectivityPeriod. *)
Lemma withinPeriod_plain history targetEpoch :
  0 < WeakSubjectivityPeriod < 2^62 ->
  0 <= LatestEpochWritten history < 2^63 -> 0 <= targetEpoch < 2^63 ->
  withinPeriod history targetEpoch =
    (LatestEpochWritten history - WeakSubjectivityPeriod <=? targetEpoch).
Proof.
  intros Hws Hl Ht. unfold withinPeriod, Attester.withinPeriod.
  rewrite <- Z.leb_antisym. unfold_ints.
  destruct (Z.ltb_spec WeakSubjectivityPeriod 9223372036854775808); [|lia].
  destruct (Z.ltb_spec targetEpoch 9223372036854775808); [|lia].
  destruct (Z.ltb_spec (LatestEpochWritten history) 9223372036854775808); [|lia].
  f_equal. Z.div_mod_to_equations. lia.
Qed.

(** The marked epoch is read back whenever the window test of the client,
    made on [int] conversions, lets the target epoch through. *)
Lemma mark_then_lookup_int history sourceEpoch targetEpoch :
  0 < WeakSubjectivityPeriod < 2^62 ->
  0 <= LatestEpochWritten history < 2^64 ->
  0 <= targetEpoch < 2^64 ->
  withinPeriod history targetEpoch = true ->
  let marked := markAttestationForTargetEpoch history sourceEpoch targetEpoch in
  safeTargetToSource marked targetEpoch = sourceEpoch /\
  LatestEpochWritten marked = Z.max (LatestEpochWritten history) targetEpoch /\
  (sourceEpoch <> FarFutureEpoch ->
   safeTargetToSource marked targetEpoch <> FarFutureEpoch).
Proof.
  intros Hws Hl Ht Hw. cbv zeta.
  apply negb_true_iff in Hw.
  assert (safeTargetToSource (markAttestationForTargetEpoch history sourceEpoch targetEpoch)
            targetEpoch = sourceEpoch) as Heq.
  { unfold safeTargetToSource, Attester.safeTargetToSource,
      markAttestationForTargetEpoch, Attester.markAttestationForTargetEpoch.
    destruct (Z.ltb_spec (LatestEpochWritten history) targetEpoch) as [Hlt|Hge]; simpl.
    - rewrite Z.ltb_irrefl.
      rewrite (window_after_mark (LatestEpochWritten history) targetEpoch) by done.
      simpl. unfold mapAt. by rewrite lookup_insert_eq.
    - replace (LatestEpochWritten history <? targetEpoch) with false by lia.
      rewrite Hw. simpl. unfold mapAt. by rewrite lookup_insert_eq. }
  split; [exact Heq|]. split.
  - unfold markAttestationForTargetEpoch, Attester.markAttestationForTargetEpoch.
    destruct (Z.ltb_spec (LatestEpochWritten history) targetEpoch); simpl; lia.
  - intros Hne. by rewrite Heq.
Qed.

(** On epochs and a period below 2^63 the window test of safeTargetToSource
    is the plain comparison. *)
Lemma window_plain latest targetEpoch :
  0 < WeakSubjectivityPeriod < 2^63 ->
  0 <= latest < 2^63 -> 0 <= targetEpoch < 2^63 ->
  (int targetEpoch <? sub_int (int latest) (int WeakSubjectivityPeriod))
  = (targetEpoch <? latest - WeakSubjectivityPeriod).
Proof.
  intros Hws Hl Ht. unfold_ints.
  destruct (Z.ltb_spec WeakSubjectivityPeriod 9223372036854775808); [|lia].
  destruct (Z.ltb_spec targetEpoch 9223372036854775808); [|lia].
  destruct (Z.ltb_spec latest 9223372036854775808); [|lia].
  f_equal. Z.div_mod_to_equations. lia.
Qed.

(** C10 (amended): for a weak subjectivity period that is positive and
    below 2^63, every history whose LatestEpochWritten is below 2^63 and
    every source epoch and target epoch below 2^63 such that the target
    epoch is at least LatestEpochWritten minus the period (as integers),
    safeTargetToSource of the target epoch on the history
    markAttestationForTargetEpoch returns is the source epoch; so it is
    FAR_FUTURE_EPOCH no more, for a source epoch that is not that marker. *)
Theorem mark_then_lookup history sourceEpoch targetEpoch :
  0 < WeakSubjectivityPeriod < 2^63 ->
  0 <= LatestEpochWritten history < 2^63 ->
  0 <= targetEpoch < 2^63 ->
  LatestEpochWritten history - WeakSubjectivityPeriod <= targetEpoch ->
  let marked := markAttestationForTargetEpoch history sourceEpoch targetEpoch in
  safeTargetToSource marked targetEpoch = sourceEpoch /\
  LatestEpochWritten marked = Z.max (LatestEpochWritten history) targetEpoch /\
  (sourceEpoch <> FarFutureEpoch ->
   safeTargetToSource marked targetEpoch <> FarFutureEpoch).
Proof.
  intros Hws Hl Ht Hw. cbv zeta.
  assert (safeTargetToSource (markAttestationForTargetEpoch history sourceEpoch targetEpoch)
            targetEpoch = sourceEpoch) as Heq.
  { unfold safeTargetToSource, Attester.safeTargetToSource,
      markAttestationForTargetEpoch, Attester.markAttestationForTargetEpoch.
    destruct (Z.ltb_spec (LatestEpochWritten history) targetEpoch) as [Hlt|Hge]; simpl.
    - rewrite Z.ltb_irrefl, window_plain by done.
      replace (targetEpoch <? targetEpoch - WeakSubjectivityPeriod) with false by lia.
      simpl. unfold mapAt. by rewrite lookup_insert_eq.
    - replace (LatestEpochWritten history <? targetEpoch) with false by lia.
      rewrite window_plain by done.
      replace (targetEpoch <? LatestEpochWritten history - WeakSubjectivityPeriod)
        with false by lia.
      simpl. unfold mapAt. by rewrite lookup_insert_eq. }
  split; [exact Heq|]. split.
  - unfold markAttestationForTargetEpoch, Attester.markAttestationForTargetEpoch.
    destruct (Z.ltb_spec (LatestEpochWritten history) targetEpoch); simpl; lia.
  - intros Hne. by rewrite Heq.
Qed.

(** ** The epochs the marking skips *)

Lemma markLoop_keeps fuel targetEpoch maxToWrite k : forall i m,
  m !! k = Some FarFutureEpoch ->
  markLoop fuel targetEpoch maxToWrite i m !! k = Some FarFutureEpoch.
Proof.
  induction fuel as [|n IH]; intros i m Hk; [exact Hk|].
  unfold markLoop. cbn [Attester.markLoop].
  destruct ((i <? targetEpoch) && (i <=? maxToWrite)); [|exact Hk].
  apply IH. destruct (decide (i mod WeakSubjectivityPeriod = k)) as [->|Hne].
  - apply lookup_insert_eq.
  - by rewrite lookup_insert_ne.
Qed.

Lemma markLoop_writes fuel targetEpoch maxToWrite j : forall i m,
  0 <= i -> targetEpoch < 2^64 ->
  i <= j < targetEpoch -> j <= maxToWrite -> j - i < Z.of_nat fuel ->
  markLoop fuel targetEpoch maxToWrite i m !! (j mod WeakSubjectivityPeriod)
    = Some FarFutureEpoch.
Proof.
  induction fuel as [|n IH]; intros i m Hi Ht Hj Hmax Hfuel; [simpl in Hfuel; lia|].
  unfold markLoop. cbn [Attester.markLoop].
  replace (i <? targetEpoch) with true by lia.
  replace (i <=? maxToWrite) with true by lia. simpl.
  assert (add64 i 1 = i + 1) as ->.
  { unfold add64. apply Z.mod_small. lia. }
  destruct (decide (i = j)) as [->|Hne].
  - apply markLoop_keeps, lookup_insert_eq.
  - apply IH; lia.
Qed.

(** An epoch between the latest written one and a newly marked target, less
    than a period before the target, reads as not attested. *)
Theorem skipped_epoch_unattested history sourceEpoch targetEpoch i :
  0 < WeakSubjectivityPeriod < 2^62 ->
  0 <= LatestEpochWritten history -> targetEpoch < 2^63 ->
  LatestEpochWritten history < i < targetEpoch ->
  targetEpoch - WeakSubjectivityPeriod < i ->
  safeTargetToSource (markAttestationForTargetEpoch history sourceEpoch targetEpoch) i
    = FarFutureEpoch.
Proof.
  intros Hws Hl Ht Hi Hnear.
  set (latest := LatestEpochWritten history) in *.
  set (ws := WeakSubjectivityPeriod) in *.
  unfold safeTargetToSource, Attester.safeTargetToSource,
    markAttestationForTargetEpoch, Attester.markAttestationForTargetEpoch.
  fold latest ws. replace (latest <? targetEpoch) with true by lia. simpl.
  destruct ((targetEpoch <? i) || (int i <? sub_int (int targetEpoch) (int ws))); [done|].
  unfold mapAt.
  assert (i mod ws <> targetEpoch mod ws) as Hslot.
  { intros Heq. assert ((targetEpoch - i) mod ws = 0) as H0.
    { rewrite Zminus_mod, Heq, Z.sub_diag. apply Z.mod_0_l. lia. }
    rewrite Z.mod_small in H0 by lia. lia. }
  rewrite lookup_insert_ne by congruence.
  assert (add64 latest ws = latest + ws) as Hmax.
  { unfold add64. apply Z.mod_small. unfold_ints. lia. }
  assert (add64 latest 1 = latest + 1) as Hstart.
  { unfold add64. apply Z.mod_small. unfold_ints. lia. }
  rewrite Hmax, Hstart. fold markLoop.
  set (j := if i <=? latest + ws then i else latest + 1 + (i - latest - 1) mod ws).
  assert (j mod ws = i mod ws /\ latest + 1 <= j < targetEpoch /\ j <= latest + ws)
    as (Hjm & Hjr & Hjx).
  { subst j. destruct (Z.leb_spec i (latest + ws)); [lia|].
    pose proof (Z.mod_pos_bound (i - latest - 1) ws ltac:(lia)).
    split; [|lia].
    rewrite Z.add_mod_idemp_r by lia. f_equal. lia. }
  rewrite <- Hjm.
  rewrite (markLoop_writes (Z.to_nat (targetEpoch - latest)) targetEpoch (latest + ws) j);
    try done; lia.
Qed.

End Config.

Lemma skipped_epoch_unattested_witness :
  safeTargetToSource 54000 (2^64 - 1)
    (markAttestationForTargetEpoch 54000 (2^64 - 1) (mkHistory {[ 11 := 4 ]} 10) 3 13) 11
  = 2^64 - 1.
Proof.
  apply (skipped_epoch_unattested 54000 (2^64 - 1) (mkHistory {[ 11 := 4 ]} 10) 3 13 11);
    simpl; lia.
Defined.

Lemma mark_then_lookup_witness :
  safeTargetToSource 54000 (2^64 - 1)
    (markAttestationForTargetEpoch 54000 (2^64 - 1) (mkHistory ∅ 10) 3 12) 12 = 3.
Proof.
  refine (proj1 (mark_then_lookup 54000 (2^64 - 1) (mkHistory ∅ 10) 3 12 _ _ _ _)).
  - lia.
  - simpl. lia.
  - lia.
  - simpl. lia.
Defined.

(** C10 as stated fails for epochs from 2^63 on: the client compares the
    epochs as [int]s, where such an epoch is negative and the latest written
    epoch minus the period wraps around to a positive number.  The target
    epoch is the latest written one, hence not less than it minus the
    period, and is read back as FAR_FUTURE_EPOCH after the marking. *)
Lemma mark_then_lookup_beyond_int :
  LatestEpochWritten (mkHistory ∅ (2^63 + 5)) - 54000 <= 2^63 + 5 /\
  safeTargetToSource 54000 (2^64 - 1)
    (markAttestationForTargetEpoch 54000 (2^64 - 1) (mkHistory ∅ (2^63 + 5)) 3 (2^63 + 5))
    (2^63 + 5) = 2^64 - 1 /\
  safeTargetToSource 54000 (2^64 - 1)
    (markAttestationForTargetEpoch 54000 (2^64 - 1) (mkHistory ∅ (2^63 + 5)) 3 (2^63 + 5))
    (2^63 + 5) <> 3.
Proof.
  split; [simpl; lia|]. split; [vm_compute; reflexivity|]. vm_compute. discriminate.
Qed.

(** A target epoch behind the latest one, and one far ahead of it. *)
Example mark_older_target :
  let h := markAttestationForTargetEpoch 54000 (2^64 - 1) (mkHistory ∅ 10) 3 12 in
  let h' := markAttestationForTargetEpoch 54000 (2^64 - 1) h 5 7 in
  LatestEpochWritten h' = 12 /\
  safeTargetToSource 54000 (2^64 - 1) h' 7 = 5 /\
  safeTargetToSource 54000 (2^64 - 1) h' 12 = 3 /\
  safeTargetToSource 54000 (2^64 - 1) h' 11 = 2^64 - 1 /\
  safeTargetToSource 54000 (2^64 - 1) h' 13 = 2^64 - 1.
Proof. cbv zeta. repeat split; vm_compute; reflexivity. Qed.

End AttesterProps.

(* ===================================================================== *)
(** * Properties of the epoch metrics                                      *)
(* ===================================================================== *)

Module MetricsProps.
Import Metrics.

(** ** float64 *)

Lemma round53_exact n : 0 <= n <= 2^53 -> round53 n = n.
Proof.
  intros [H0 H53]. destruct (Z.eq_dec n (2^53)) as [->|Hne]; [reflexivity|].
  unfold round53. destruct (Z.eq_dec n 0) as [->|Hnz]; [reflexivity|].
  assert (Z.log2 n < 53) as Hlog by (apply Z.log2_lt_pow2; lia).
  replace (Z.log2 n - 52 <=? 0) with true by lia. reflexivity.
Qed.

Lemma float64_exact x : Z.abs x <= 2^53 -> float64 x = inject_Z x.
Proof.
  intros Hx. unfold float64. destruct (Z.ltb_spec x 0).
  - rewrite round53_exact by lia. f_equal. lia.
  - rewrite round53_exact by lia. reflexivity.
Qed.

(** Beyond 2^53 the conversion rounds. *)
Example float64_rounds :
  float64 (2^53 + 1) = inject_Z (2^53) /\
  float64 (2^64 - 1) = inject_Z (2^64) /\
  float64 (2^53 + 3) = inject_Z (2^53 + 4).
Proof. repeat split; vm_compute; reflexivity. Qed.

(** ** The loop over the validators *)

Section Report.

Variable CurrentEpoch : BeaconState -> Z.
Variable BalanceAtIndex : BeaconState -> Z -> option Z.
Variable ToLowInt64 : list Byte.byte -> Z.
Variable FarFutureEpoch : Z.

Let visit := visit FarFutureEpoch.
Let visitAll := visitAll BalanceAtIndex FarFutureEpoch.
Let setCheckpointGauges := setCheckpointGauges ToLowInt64.
Let reportEpochMetrics :=
  reportEpochMetrics CurrentEpoch BalanceAtIndex ToLowInt64 FarFutureEpoch.
Let balancesAvailable := balancesAvailable BalanceAtIndex.

(** One validator raises the counter of exactly one category, by one. *)
Lemma visit_one_category currentEpoch validator valBalance c :
  exists cat, forall cat',
    count cat' (fst (visit currentEpoch validator valBalance c)) =
    count cat' (fst c) + (if decide (cat' = cat) then 1 else 0).
Proof.
  destruct c as [n b]. unfold visit, Metrics.visit.
  destruct (Slashed validator); [|destruct (negb _); [|destruct (_ <? ActivationEpoch _)]];
    try destruct (_ <? ExitEpoch _).
  - exists cSlashing. intros []; simpl; lia.
  - exists cSlashed. intros []; simpl; lia.
  - exists cExiting. intros []; simpl; lia.
  - exists cExited. intros []; simpl; lia.
  - exists cPending. intros []; simpl; lia.
  - exists cActive. intros []; simpl; lia.
Qed.

Lemma visit_total currentEpoch validator valBalance c :
  total (fst (visit currentEpoch validator valBalance c)) = total (fst c) + 1 /\
  ((forall cat, 0 <= count cat (fst c)) ->
   forall cat, 0 <= count cat (fst (visit currentEpoch validator valBalance c))).
Proof.
  destruct (visit_one_category currentEpoch validator valBalance c) as [cat H].
  split.
  - unfold total.
    pose proof (H cPending). pose proof (H cActive). pose proof (H cExiting).
    pose proof (H cExited). pose proof (H cSlashing). pose proof (H cSlashed).
    simpl in *. destruct cat; simpl in *; lia.
  - intros Hpos cat'. rewrite H. specialize (Hpos cat'). case_decide; lia.
Qed.

Lemma visitAll_total state currentEpoch validators : forall i c,
  (forall j, (j < length validators)%nat ->
     is_Some (BalanceAtIndex state (Z.of_nat (i + j)))) ->
  exists c', visitAll state currentEpoch i validators c = Some c' /\
    total (fst c') = total (fst c) + Z.of_nat (length validators) /\
    ((forall cat, 0 <= count cat (fst c)) -> forall cat, 0 <= count cat (fst c')).
Proof.
  induction validators as [|v vs IH]; intros i c Hb.
  - exists c. simpl. split; [done|]. split; [lia|done].
  - cbn [visitAll Metrics.visitAll]. unfold visitAll. cbn [Metrics.visitAll].
    destruct (Hb O ltac:(simpl; lia)) as [b Hb0].
    rewrite Nat.add_0_r in Hb0. rewrite Hb0.
    destruct (IH (S i) (visit currentEpoch v b c)) as (c' & Hc' & Ht & Hp).
    { intros j Hj. replace (S i + j)%nat with (i + S j)%nat by lia.
      apply Hb. simpl. lia. }
    exists c'. split; [exact Hc'|].
    destruct (visit_total currentEpoch v b c) as [Hv Hvp].
    split; [rewrite Ht, Hv; simpl length; lia|]. intros Hpos. apply Hp, Hvp, Hpos.
Qed.

Lemma visitAll_fails state currentEpoch validators : forall i c,
  (exists j, (j < length validators)%nat /\
     BalanceAtIndex state (Z.of_nat (i + j)) = None) ->
  visitAll state currentEpoch i validators c = None.
Proof.
  induction validators as [|v vs IH]; intros i c (j & Hj & Hn); [simpl in Hj; lia|].
  unfold visitAll. cbn [Metrics.visitAll].
  destruct (BalanceAtIndex state (Z.of_nat i)) as [b|] eqn:E; [|done].
  apply IH. destruct j as [|j]; [rewrite Nat.add_0_r in Hn; congruence|].
  exists j. split; [simpl in Hj; lia|].
  by replace (S i + j)%nat with (i + S j)%nat by lia.
Qed.

(** ** What the gauges show after the call *)

Ltac unfold_gauges :=
  unfold Gauge_Set, GaugeVec_Set, gaugeValue,
    beaconFinalizedEpoch, beaconFinalizedRoot, beaconCurrentJustifiedEpoch,
    beaconCurrentJustifiedRoot, beaconPrevJustifiedEpoch, beaconPrevJustifiedRoot,
    validatorsCount, validatorsBalance, validatorsEffectiveBalance,
    currentEth1DataDepositCount, totalEligibleBalances, totalVotedTargetBalances in *.

Ltac skip_other_gauges :=
  repeat (rewrite lookup_insert_ne by discriminate).

Lemma integralSince_refl (m : Gauges) : integralSince m m.
Proof. intros k q H. by left. Qed.

Lemma integralSince_set (m m' : Gauges) k x :
  integralSince m m' -> integralSince m (<[k := float64 x]> m').
Proof.
  intros H k' q. destruct (decide (k = k')) as [->|Hne].
  - rewrite lookup_insert_eq. intros [= <-]. right. unfold float64. eauto.
  - rewrite lookup_insert_ne by done. apply H.
Qed.

Lemma integralSince_validators (m m' : Gauges) c :
  integralSince m m' -> integralSince m (setValidatorGauges c m').
Proof.
  intros H. destruct c as [n b]. unfold setValidatorGauges, GaugeVec_Set.
  repeat apply integralSince_set. exact H.
Qed.

Lemma integralSince_checkpoint (m m' : Gauges) eg rg c :
  integralSince m m' -> integralSince m (setCheckpointGauges eg rg c m').
Proof.
  intros H. unfold setCheckpointGauges, Metrics.setCheckpointGauges, Gauge_Set.
  destruct c; [|exact H]. repeat apply integralSince_set. exact H.
Qed.

(** C8 (amended): for every beacon state in which the balance of every
    validator can be looked up, reportEpochMetrics sets, for each of the
    finalized, current justified and previous justified checkpoints that is
    present, the epoch gauge to float64 of the checkpoint's epoch and the
    root gauge to float64 of ToLowInt64 of its root; the float64 is the
    integer itself when that is at most 2^53 in absolute value, and the
    nearest float64 otherwise.  Every value the call sets is an integer. *)
Theorem reportEpochMetrics_checkpoints (state : BeaconState)
    (precomputeBalances : option precompute_Balance) (m : Gauges) :
  balancesAvailable state ->
  let m' := reportEpochMetrics state precomputeBalances m in
  checkpointReported ToLowInt64 m' beaconFinalizedEpoch beaconFinalizedRoot
    (FinalizedCheckpoint state) /\
  checkpointReported ToLowInt64 m' beaconCurrentJustifiedEpoch beaconCurrentJustifiedRoot
    (CurrentJustifiedCheckpoint state) /\
  checkpointReported ToLowInt64 m' beaconPrevJustifiedEpoch beaconPrevJustifiedRoot
    (PreviousJustifiedCheckpoint state) /\
  integralSince m m'.
Proof.
  intros Hb. cbv zeta.
  destruct (visitAll_total state (CurrentEpoch state) (Validators state) O
              (noInstances, noSums)) as (c & Hc & _); [exact Hb|].
  unfold reportEpochMetrics, Metrics.reportEpochMetrics.
  fold visitAll. rewrite Hc. clear Hc.
  fold setCheckpointGauges.
  assert (forall m1 eg rg cp,
    m1 !! (eg, ""%string) = Some (float64 (Epoch cp)) ->
    m1 !! (rg, ""%string) = Some (float64 (ToLowInt64 (Root cp))) ->
    m1 !! (eg, ""%string) = Some (float64 (Epoch cp)) /\
    m1 !! (rg, ""%string) = Some (float64 (ToLowInt64 (Root cp))) /\
    (0 <= Epoch cp <= 2^53 -> gaugeValue m1 eg "" = inject_Z (Epoch cp)) /\
    (Z.abs (ToLowInt64 (Root cp)) <= 2^53 ->
     gaugeValue m1 rg "" = inject_Z (ToLowInt64 (Root cp)))) as Hrep.
  { intros m1 eg rg cp He Hr. unfold gaugeValue. rewrite He, Hr. simpl.
    repeat split; intros; apply float64_exact; lia. }
  split; [|split; [|split]].
  - intros cp Hcp. apply Hrep; rewrite Hcp;
      unfold setCheckpointGauges, Metrics.setCheckpointGauges;
      destruct (Eth1Data state), precomputeBalances;
      unfold_gauges; skip_other_gauges; by rewrite lookup_insert_eq.
  - intros cp Hcp. apply Hrep; rewrite Hcp;
      unfold setCheckpointGauges, Metrics.setCheckpointGauges;
      destruct (Eth1Data state), precomputeBalances,
        (PreviousJustifiedCheckpoint state), (FinalizedCheckpoint state);
      unfold_gauges; skip_other_gauges; by rewrite lookup_insert_eq.
  - intros cp Hcp. apply Hrep; rewrite Hcp;
      unfold setCheckpointGauges, Metrics.setCheckpointGauges;
      destruct (Eth1Data state), precomputeBalances, (FinalizedCheckpoint state);
      unfold_gauges; skip_other_gauges; by rewrite lookup_insert_eq.
  - assert (integralSince m
              (setCheckpointGauges beaconFinalizedEpoch beaconFinalizedRoot
                 (FinalizedCheckpoint state)
                 (setCheckpointGauges beaconPrevJustifiedEpoch beaconPrevJustifiedRoot
                    (PreviousJustifiedCheckpoint state)
                    (setCheckpointGauges beaconCurrentJustifiedEpoch
                       beaconCurrentJustifiedRoot (CurrentJustifiedCheckpoint state)
                       (setValidatorGauges c m))))) as H.
    { repeat apply integralSince_checkpoint.
      apply integralSince_validators, integralSince_refl. }
    destruct (Eth1Data state), precomputeBalances; unfold Gauge_Set;
      repeat apply integralSince_set; exact H.
Qed.

(** C9 (amended): the classification is a partition: a validator raises the
    counter of exactly one of the six categories, by one; and for every
    beacon state in which the balance of every validator can be looked up,
    the six counters sum to the number of validators in the registry and the
    six validator_count gauges are set to float64 of them, which is the
    counters themselves when the registry has at most 2^53 entries. *)
Theorem validator_counts_partition (state : BeaconState)
    (precomputeBalances : option precompute_Balance) (m : Gauges) :
  balancesAvailable state ->
  let m' := reportEpochMetrics state precomputeBalances m in
  (forall currentEpoch validator valBalance c,
     exists cat, forall cat',
       count cat' (fst (visit currentEpoch validator valBalance c)) =
       count cat' (fst c) + (if decide (cat' = cat) then 1 else 0)) /\
  exists n : Instances,
    total n = Z.of_nat (length (Validators state)) /\
    (forall cat,
       0 <= count cat n /\
       m' !! (validatorsCount, label cat) = Some (float64 (count cat n))) /\
    (Z.of_nat (length (Validators state)) <= 2^53 ->
     forall cat, gaugeValue m' validatorsCount (label cat) = inject_Z (count cat n)).
Proof.
  intros Hb. cbv zeta. split; [apply visit_one_category|].
  destruct (visitAll_total state (CurrentEpoch state) (Validators state) O
              (noInstances, noSums)) as (c & Hc & Ht & Hpos); [exact Hb|].
  specialize (Hpos ltac:(intros []; simpl; lia)).
  exists (fst c). split; [rewrite Ht; reflexivity|].
  assert (forall cat,
            reportEpochMetrics state precomputeBalances m !! (validatorsCount, label cat)
            = Some (float64 (count cat (fst c)))) as Hset.
  { intros cat. unfold reportEpochMetrics, Metrics.reportEpochMetrics.
    fold visitAll. rewrite Hc. clear Hc. destruct c as [n b].
    unfold Metrics.setCheckpointGauges, setValidatorGauges.
    destruct (Eth1Data state), precomputeBalances, (CurrentJustifiedCheckpoint state),
      (PreviousJustifiedCheckpoint state), (FinalizedCheckpoint state);
      destruct cat; unfold_gauges; simpl label; simpl count;
      skip_other_gauges; by rewrite lookup_insert_eq. }
  split; [intros cat; split; [apply Hpos|apply Hset]|].
  intros Hlen cat. unfold gaugeValue. rewrite Hset. simpl.
  apply float64_exact.
  pose proof (Hpos cPending). pose proof (Hpos cActive). pose proof (Hpos cExiting).
  pose proof (Hpos cExited). pose proof (Hpos cSlashing). pose proof (Hpos cSlashed).
  unfold total in Ht. simpl in *. destruct cat; simpl; lia.
Qed.

(** A failed balance lookup: the function returns and no gauge changes. *)
Lemma reportEpochMetrics_early_return (state : BeaconState)
    (precomputeBalances : option precompute_Balance) (m : Gauges) i :
  (i < length (Validators state))%nat ->
  BalanceAtIndex state (Z.of_nat i) = None ->
  reportEpochMetrics state precomputeBalances m = m.
Proof.
  intros Hi Hn. unfold reportEpochMetrics, Metrics.reportEpochMetrics.
  fold visitAll. rewrite visitAll_fails; [done|]. exists i. by split.
Qed.

End Report.

(** ** Concrete states *)

Lemma stateOfOne_available : balancesAvailable BalanceAtIndex stateOfOne.
Proof.
  intros i Hi. simpl in Hi. assert (i = O) as -> by lia. vm_compute. eauto.
Qed.

Lemma reportEpochMetrics_early_return_witness :
  report stateOfTwo None ∅ = ∅.
Proof.
  apply (reportEpochMetrics_early_return CurrentEpoch BalanceAtIndex ToLowInt64
           FarFutureEpoch stateOfTwo None ∅ 1%nat).
  - simpl. lia.
  - reflexivity.
Defined.

Lemma reportEpochMetrics_checkpoints_witness :
  report stateOfOne None ∅ !! (beaconFinalizedEpoch, ""%string) = Some (float64 3) /\
  report stateOfOne None ∅ !! (beaconFinalizedRoot, ""%string) = Some (float64 42) /\
  (0 <= 3 <= 2^53 ->
   gaugeValue (report stateOfOne None ∅) beaconFinalizedEpoch "" = inject_Z 3) /\
  (Z.abs 42 <= 2^53 ->
   gaugeValue (report stateOfOne None ∅) beaconFinalizedRoot "" = inject_Z 42).
Proof.
  exact (proj1 (reportEpochMetrics_checkpoints CurrentEpoch BalanceAtIndex ToLowInt64
                  FarFutureEpoch stateOfOne None ∅ stateOfOne_available)
           someCheckpoint eq_refl).
Defined.

Lemma validator_counts_partition_witness :
  exists n : Instances,
    total n = 1 /\
    (forall cat,
       0 <= count cat n /\
       report stateOfOne None ∅ !! (validatorsCount, label cat)
         = Some (float64 (count cat n))) /\
    (1 <= 2^53 ->
     forall cat,
       gaugeValue (report stateOfOne None ∅) validatorsCount (label cat)
         = inject_Z (count cat n)).
Proof.
  exact (proj2 (validator_counts_partition CurrentEpoch BalanceAtIndex ToLowInt64
                  FarFutureEpoch stateOfOne None ∅ stateOfOne_available)).
Defined.

(** C8 as stated fails.  In [stateOfTwo] the finalized checkpoint is present
    with epoch 3, but the second validator has no balance: the loop returns
    at the failed lookup and no gauge is set; beacon_finalized_epoch still
    shows what it showed before.  And in [stateOfNone], where nothing fails,
    the finalized epoch 2^53 + 1 is not a float64: the gauge shows 2^53. *)
Lemma reportEpochMetrics_not_as_claimed :
  (let m := Gauge_Set beaconFinalizedEpoch (inject_Z 1) ∅ in
   let m' := report stateOfTwo None m in
   FinalizedCheckpoint stateOfTwo = Some someCheckpoint /\
   Epoch someCheckpoint = 3 /\
   BalanceAtIndex stateOfTwo 1 = None /\
   m' = m /\
   gaugeValue m' beaconFinalizedEpoch "" = inject_Z 1 /\
   m' !! (beaconFinalizedRoot, ""%string) = None) /\
  (FinalizedCheckpoint stateOfNone = Some lateCheckpoint /\
   Epoch lateCheckpoint = 2^53 + 1 /\
   gaugeValue (report stateOfNone None ∅) beaconFinalizedEpoch "" = inject_Z (2^53)).
Proof. cbv zeta. repeat split; vm_compute; reflexivity. Qed.

(** C9 as stated fails.  After a report on [stateOfOne], a report on
    [stateOfTwo] returns at the failed balance lookup: the six
    validator_count values are those of the earlier report and sum to 1,
    while the registry has two validators. *)
Lemma validator_counts_stale :
  let m := report stateOfOne None ∅ in
  let m' := report stateOfTwo None m in
  length (Validators stateOfTwo) = 2%nat /\
  map (fun cat => gaugeValue m' validatorsCount (label cat)) categories =
    [inject_Z 0; inject_Z 1; inject_Z 0; inject_Z 0; inject_Z 0; inject_Z 0] /\
  m' = m.
Proof. cbv zeta. repeat split; vm_compute; reflexivity. Qed.

(** The rounding of a root gauge, with ToLowInt64 as modelled from the spec:
    the low 64 bits of this root are 2^53 + 1, and the gauge shows 2^53. *)
Example root_gauge_rounds :
  let cp := {| Epoch := 3;
               Root := [Byte.x00; Byte.x20; Byte.x00; Byte.x00; Byte.x00;
                        Byte.x00; Byte.x00; Byte.x01] |} in
  let st := {| Slot := 128; Validators := []; Balances := [];
               CurrentJustifiedCheckpoint := None;
               PreviousJustifiedCheckpoint := None;
               FinalizedCheckpoint := Some cp; Eth1Data := None |} in
  ToLowInt64 (Root cp) = 2^53 + 1 /\
  gaugeValue (report st None ∅) beaconFinalizedRoot "" = inject_Z (2^53) /\
  gaugeValue (report st None ∅) beaconFinalizedEpoch "" = inject_Z 3.
Proof. cbv zeta. repeat split; vm_compute; reflexivity. Qed.

End MetricsProps.

(* ===================================================================== *)
(** * Properties of isNewAttSlashable                                      *)
(* ===================================================================== *)

Module SlashableProps.
Import Attester.

Lemma scan_spec hit bound : forall fuel i,
  0 <= i -> bound < 2^64 - 1 -> bound - i + 1 <= Z.of_nat fuel ->
  scan hit fuel bound i = Some (existsb hit (seqZ i (bound - i + 1))).
Proof.
  induction fuel as [|k IH]; intros i Hi Hb Hf; cbn [scan].
  - replace (i <=? bound) with false by lia.
    rewrite seqZ_nil by lia. reflexivity.
  - destruct (Z.leb_spec i bound) as [Hle|Hgt].
    + rewrite seqZ_cons by lia. cbn [existsb].
      destruct (hit i); [reflexivity|]. simpl.
      assert (add64 i 1 = i + 1) as ->.
      { unfold add64. apply Z.mod_small.
        change (2 ^ 64) with 18446744073709551616 in *. lia. }
      rewrite IH by lia. do 3 f_equal; lia.
    + rewrite seqZ_nil by lia. reflexivity.
Qed.

Lemma existsb_seqZ hit m n :
  existsb hit (seqZ m n) = true <-> exists i, m <= i < m + n /\ hit i = true.
Proof.
  rewrite existsb_exists. split.
  - intros (i & Hin & Hh). exists i. split; [|done].
    apply list_elem_of_In, elem_of_seqZ in Hin. lia.
  - intros (i & Hr & Hh). exists i. split; [|done].
    apply list_elem_of_In, elem_of_seqZ. lia.
Qed.

Section Config.

Variable WeakSubjectivityPeriod : Z.
Variable FarFutureEpoch : Z.

Let safeTargetToSource := safeTargetToSource WeakSubjectivityPeriod FarFutureEpoch.
Let markAttestationForTargetEpoch :=
  markAttestationForTargetEpoch WeakSubjectivityPeriod FarFutureEpoch.
Let isNewAttSlashable := isNewAttSlashable WeakSubjectivityPeriod FarFutureEpoch.
Let surroundingLoop := surroundingLoop WeakSubjectivityPeriod FarFutureEpoch.
Let surroundedLoop := surroundedLoop WeakSubjectivityPeriod FarFutureEpoch.
Let surroundsAt := surroundsAt WeakSubjectivityPeriod FarFutureEpoch.
Let surroundedAt := surroundedAt WeakSubjectivityPeriod FarFutureEpoch.
Let pruned := pruned WeakSubjectivityPeriod.

Lemma surroundingLoop_scan history sourceEpoch targetEpoch : forall fuel i,
  surroundingLoop fuel history sourceEpoch targetEpoch i =
  scan (surroundsAt history sourceEpoch) fuel targetEpoch i.
Proof.
  induction fuel as [|k IH]; intros i; [reflexivity|].
  unfold surroundingLoop. cbn [Attester.surroundingLoop scan].
  fold surroundingLoop. rewrite !IH.
  unfold surroundsAt, Attester.surroundsAt. fold safeTargetToSource.
  destruct (i <=? targetEpoch); [|reflexivity].
  destruct (safeTargetToSource history i =? FarFutureEpoch); [reflexivity|]. simpl.
  destruct (sourceEpoch <? _); reflexivity.
Qed.

Lemma surroundedLoop_scan history sourceEpoch : forall fuel i,
  surroundedLoop fuel history sourceEpoch i =
  scan (surroundedAt history sourceEpoch) fuel (LatestEpochWritten history) i.
Proof.
  induction fuel as [|k IH]; intros i; [reflexivity|].
  unfold surroundedLoop. cbn [Attester.surroundedLoop scan].
  fold surroundedLoop. rewrite !IH.
  unfold surroundedAt, Attester.surroundedAt. fold safeTargetToSource.
  destruct (i <=? LatestEpochWritten history); [|reflexivity].
  destruct (safeTargetToSource history i <? sourceEpoch); reflexivity.
Qed.

(** isNewAttSlashable in closed form, when its loops end. *)
Lemma isNewAttSlashable_closed history sourceEpoch targetEpoch :
  0 <= sourceEpoch -> 0 <= targetEpoch < 2^64 - 1 ->
  LatestEpochWritten history < 2^64 - 1 ->
  isNewAttSlashable history sourceEpoch targetEpoch =
    Some (negb (pruned history targetEpoch)
          && (negb (safeTargetToSource history targetEpoch =? FarFutureEpoch)
              || existsb (surroundsAt history sourceEpoch)
                   (seqZ sourceEpoch (targetEpoch - sourceEpoch + 1))
              || existsb (surroundedAt history sourceEpoch)
                   (seqZ targetEpoch (LatestEpochWritten history - targetEpoch + 1)))).
Proof.
  intros Hs Ht Hl.
  unfold isNewAttSlashable, Attester.isNewAttSlashable, pruned, Attester.pruned, turns.
  fold safeTargetToSource surroundingLoop surroundedLoop.
  destruct (Z.eqb_spec targetEpoch (2^64 - 1)) as [?|_]; [lia|].
  destruct (Z.eqb_spec (LatestEpochWritten history) (2^64 - 1)) as [?|_]; [lia|].
  destruct (int targetEpoch <=? _); [reflexivity|]. simpl.
  destruct (safeTargetToSource history targetEpoch =? FarFutureEpoch); [|reflexivity].
  simpl. rewrite surroundingLoop_scan, scan_spec by lia.
  destruct (existsb (surroundsAt history sourceEpoch) _); [reflexivity|]. simpl.
  rewrite surroundedLoop_scan, scan_spec by lia. reflexivity.
Qed.

(** For epochs below 2^64 - 1, isNewAttSlashable answers, and it answers
    true exactly when the target epoch is less than a period behind the
    latest written one and either the target epoch is attested already, or
    an epoch from the source to the target epoch is attested with a greater
    source, or an epoch from the target to the latest written epoch reads a
    smaller source. *)
Theorem isNewAttSlashable_iff history sourceEpoch targetEpoch :
  0 < WeakSubjectivityPeriod ->
  0 <= sourceEpoch -> 0 <= targetEpoch < 2^64 - 1 ->
  LatestEpochWritten history < 2^64 - 1 ->
  exists b, isNewAttSlashable history sourceEpoch targetEpoch = Some b /\
    (b = true <->
     pruned history targetEpoch = false /\
     (safeTargetToSource history targetEpoch <> FarFutureEpoch \/
      (exists i, sourceEpoch <= i <= targetEpoch /\
                 safeTargetToSource history i <> FarFutureEpoch /\
                 sourceEpoch
                   < mapAt (TargetToSource history) (i mod WeakSubjectivityPeriod)) \/
      (exists i, targetEpoch <= i <= LatestEpochWritten history /\
                 safeTargetToSource history i < sourceEpoch))).
Proof.
  intros _ Hs Ht Hl. eexists. split; [by apply isNewAttSlashable_closed|].
  rewrite andb_true_iff, negb_true_iff, !orb_true_iff, negb_true_iff, Z.eqb_neq.
  rewrite !existsb_seqZ.
  split.
  - intros [Hp [[Hd|(i & Hi & Hh)]|(i & Hi & Hh)]]; (split; [exact Hp|]).
    + by left.
    + right; left. exists i. split; [lia|].
      unfold surroundsAt, Attester.surroundsAt in Hh. fold safeTargetToSource in Hh.
      apply andb_true_iff in Hh as [H1 H2].
      apply negb_true_iff, Z.eqb_neq in H1. split; [done|lia].
    + right; right. exists i. split; [lia|].
      unfold surroundedAt, Attester.surroundedAt in Hh. fold safeTargetToSource in Hh. lia.
  - intros [Hp [Hd|[(i & Hi & H1 & H2)|(i & Hi & Hh)]]]; (split; [exact Hp|]).
    + by left; left.
    + left; right. exists i. split; [lia|].
      unfold surroundsAt, Attester.surroundsAt. fold safeTargetToSource.
      apply andb_true_iff. split; [by apply negb_true_iff, Z.eqb_neq|lia].
    + right. exists i. split; [lia|].
      unfold surroundedAt, Attester.surroundedAt. fold safeTargetToSource. lia.
Qed.

(** ** Marking, then asking *)

Ltac plain_ints :=
  unfold int, sub_int, add64 in *;
  change (2 ^ 64) with 18446744073709551616 in *;
  change (2 ^ 63) with 9223372036854775808 in *;
  change (2 ^ 62) with 4611686018427387904 in *;
  repeat match goal with
         | |- context [?a <? 9223372036854775808] =>
             destruct (Z.ltb_spec a 9223372036854775808); try lia
         | H : context [?a <? 9223372036854775808] |- _ =>
             destruct (Z.ltb_spec a 9223372036854775808); try lia
         end.

(** On epochs below 2^63 the two window tests are plain comparisons. *)
Lemma pruned_plain history targetEpoch :
  0 < WeakSubjectivityPeriod < 2^62 ->
  0 <= LatestEpochWritten history < 2^63 -> 0 <= targetEpoch < 2^63 ->
  pruned history targetEpoch =
    (targetEpoch <=? LatestEpochWritten history - WeakSubjectivityPeriod).
Proof.
  intros Hws Hl Ht. unfold pruned, Attester.pruned. plain_ints.
  rewrite Z.mod_small by lia. f_equal. lia.
Qed.

Lemma safe_plain history i :
  0 < WeakSubjectivityPeriod < 2^62 ->
  0 <= LatestEpochWritten history < 2^63 -> 0 <= i < 2^63 ->
  safeTargetToSource history i =
    if (LatestEpochWritten history <? i)
       || (i <? LatestEpochWritten history - WeakSubjectivityPeriod)
    then FarFutureEpoch
    else mapAt (TargetToSource history) (i mod WeakSubjectivityPeriod).
Proof.
  intros Hws Hl Ht. unfold safeTargetToSource, Attester.safeTargetToSource.
  replace (int i <? sub_int (int (LatestEpochWritten history)) (int WeakSubjectivityPeriod))
    with (i <? LatestEpochWritten history - WeakSubjectivityPeriod); [reflexivity|].
  plain_ints. rewrite Z.mod_small by lia. f_equal. lia.
Qed.

Lemma marked_latest history sourceEpoch targetEpoch :
  LatestEpochWritten (markAttestationForTargetEpoch history sourceEpoch targetEpoch)
  = Z.max (LatestEpochWritten history) targetEpoch.
Proof.
  unfold markAttestationForTargetEpoch, Attester.markAttestationForTargetEpoch.
  destruct (Z.ltb_spec (LatestEpochWritten history) targetEpoch); simpl; lia.
Qed.

Lemma marked_slot history sourceEpoch targetEpoch :
  mapAt (TargetToSource (markAttestationForTargetEpoch history sourceEpoch targetEpoch))
    (targetEpoch mod WeakSubjectivityPeriod) = sourceEpoch.
Proof.
  unfold markAttestationForTargetEpoch, Attester.markAttestationForTargetEpoch, mapAt.
  simpl. by rewrite lookup_insert_eq.
Qed.

(** The epoch just marked reads its source, for epochs below 2^63 and a
    target less than a period behind the latest written epoch. *)
Lemma marked_lookup history sourceEpoch targetEpoch :
  0 < WeakSubjectivityPeriod < 2^62 ->
  0 <= LatestEpochWritten history < 2^63 -> 0 <= targetEpoch < 2^63 ->
  LatestEpochWritten history - WeakSubjectivityPeriod <= targetEpoch ->
  safeTargetToSource (markAttestationForTargetEpoch history sourceEpoch targetEpoch)
    targetEpoch = sourceEpoch.
Proof.
  intros Hws Hl Ht Hw.
  rewrite safe_plain; rewrite ?marked_latest; try lia.
  replace (Z.max (LatestEpochWritten history) targetEpoch <? targetEpoch) with false by lia.
  replace (targetEpoch <? Z.max (LatestEpochWritten history) targetEpoch
                            - WeakSubjectivityPeriod) with false by lia.
  simpl. apply marked_slot.
Qed.

(** Double vote: once a target epoch is marked, any new vote for it is
    slashable. *)
Theorem double_vote_rejected history sourceEpoch targetEpoch sourceEpoch' :
  0 < WeakSubjectivityPeriod < 2^62 ->
  0 <= LatestEpochWritten history < 2^63 -> 0 <= targetEpoch < 2^63 ->
  LatestEpochWritten history - WeakSubjectivityPeriod < targetEpoch ->
  sourceEpoch <> FarFutureEpoch ->
  0 <= sourceEpoch' ->
  isNewAttSlashable (markAttestationForTargetEpoch history sourceEpoch targetEpoch)
    sourceEpoch' targetEpoch = Some true.
Proof.
  intros Hws Hl Ht Hw Hs Hs'.
  set (marked := markAttestationForTargetEpoch history sourceEpoch targetEpoch).
  assert (LatestEpochWritten marked = Z.max (LatestEpochWritten history) targetEpoch)
    as Hlm by apply marked_latest.
  rewrite isNewAttSlashable_closed;
    [|lia|change (2 ^ 64) with 18446744073709551616; lia
     |rewrite Hlm; change (2 ^ 64) with 18446744073709551616; lia].
  rewrite pruned_plain by (rewrite ?Hlm; lia). rewrite Hlm.
  replace (targetEpoch <=? Z.max (LatestEpochWritten history) targetEpoch
                             - WeakSubjectivityPeriod) with false by lia.
  subst marked. rewrite marked_lookup by lia.
  replace (sourceEpoch =? FarFutureEpoch) with false by lia. reflexivity.
Qed.

(** Surround votes: once (sourceEpoch1, targetEpoch1) is marked, a new vote
    that surrounds it, or that it surrounds, is slashable. *)
Theorem surround_vote_rejected history sourceEpoch1 targetEpoch1 sourceEpoch targetEpoch :
  0 < WeakSubjectivityPeriod < 2^62 ->
  0 <= LatestEpochWritten history < 2^63 ->
  0 <= targetEpoch1 < 2^63 -> 0 <= targetEpoch < 2^63 ->
  LatestEpochWritten history - WeakSubjectivityPeriod < targetEpoch1 ->
  0 <= sourceEpoch ->
  (sourceEpoch < sourceEpoch1 /\ sourceEpoch <= targetEpoch1 <= targetEpoch /\
   sourceEpoch1 <> FarFutureEpoch)
  \/ (sourceEpoch1 < sourceEpoch /\ targetEpoch <= targetEpoch1 /\
      Z.max (LatestEpochWritten history) targetEpoch1 - WeakSubjectivityPeriod
        < targetEpoch) ->
  isNewAttSlashable (markAttestationForTargetEpoch history sourceEpoch1 targetEpoch1)
    sourceEpoch targetEpoch = Some true.
Proof.
  intros Hws Hl Ht1 Ht Hw Hs Hcase.
  set (marked := markAttestationForTargetEpoch history sourceEpoch1 targetEpoch1).
  assert (LatestEpochWritten marked = Z.max (LatestEpochWritten history) targetEpoch1)
    as Hlm by apply marked_latest.
  assert (safeTargetToSource marked targetEpoch1 = sourceEpoch1) as Hsafe
    by (apply marked_lookup; lia).
  rewrite isNewAttSlashable_closed;
    [|lia|change (2 ^ 64) with 18446744073709551616; lia
     |rewrite Hlm; change (2 ^ 64) with 18446744073709551616; lia].
  rewrite pruned_plain by (rewrite ?Hlm; lia). rewrite Hlm.
  replace (targetEpoch <=? Z.max (LatestEpochWritten history) targetEpoch1
                             - WeakSubjectivityPeriod) with false by lia.
  simpl. f_equal.
  destruct Hcase as [(Hlt & Hin & Hne)|(Hlt & Hin & _)].
  - apply orb_true_iff. left. apply orb_true_iff. right.
    apply existsb_seqZ. exists targetEpoch1. split; [lia|].
    unfold surroundsAt, Attester.surroundsAt. fold safeTargetToSource.
    rewrite Hsafe. subst marked. rewrite marked_slot.
    apply andb_true_iff. split; [apply negb_true_iff|]; lia.
  - apply orb_true_iff. right.
    apply existsb_seqZ. exists targetEpoch1. split; [lia|].
    unfold surroundedAt, Attester.surroundedAt. fold safeTargetToSource.
    rewrite Hsafe. lia.
Qed.

(** A period behind, for a period that is positive and below 2^62 and a
    latest written epoch that is at least one period and below 2^63 (where
    the comparison of the client on [int]s is that of the integers): a
    target epoch exactly one period behind the latest written epoch is
    reported as not slashable, and marking it replaces the source recorded
    for the latest written epoch, the two sharing a slot. *)
Theorem mark_a_period_behind history sourceEpoch sourceEpoch' :
  0 < WeakSubjectivityPeriod < 2^62 ->
  WeakSubjectivityPeriod <= LatestEpochWritten history < 2^63 ->
  let targetEpoch := LatestEpochWritten history - WeakSubjectivityPeriod in
  isNewAttSlashable history sourceEpoch' targetEpoch = Some false /\
  safeTargetToSource (markAttestationForTargetEpoch history sourceEpoch targetEpoch)
    (LatestEpochWritten history) = sourceEpoch.
Proof.
  intros Hws Hl. cbv zeta. split.
  - unfold isNewAttSlashable, Attester.isNewAttSlashable.
    pose proof (pruned_plain history (LatestEpochWritten history - WeakSubjectivityPeriod)
                  Hws ltac:(lia) ltac:(lia)) as Hp.
    unfold pruned, Attester.pruned in Hp. rewrite Hp.
    by replace (_ <=? _) with true by lia.
  - rewrite safe_plain; rewrite ?marked_latest; try lia.
    replace (Z.max _ _ <? _) with false by lia.
    replace (LatestEpochWritten history <? _) with false by lia. cbn [orb].
    assert (LatestEpochWritten history mod WeakSubjectivityPeriod
            = (LatestEpochWritten history - WeakSubjectivityPeriod)
                mod WeakSubjectivityPeriod) as ->.
    { replace (LatestEpochWritten history - WeakSubjectivityPeriod)
        with (LatestEpochWritten history + (-1) * WeakSubjectivityPeriod) by lia.
      by rewrite Z.mod_add by lia. }
    apply marked_slot.
Qed.

(** ** What a marking leaves alone *)

Lemma mod_differ a b n : 0 < n -> 0 < b - a < n -> a mod n <> b mod n.
Proof.
  intros Hn Hd Heq. assert ((b - a) mod n = 0) as H0.
  { rewrite Zminus_mod, Heq, Z.sub_diag. apply Z.mod_0_l. lia. }
  rewrite Z.mod_small in H0 by lia. lia.
Qed.

Lemma markLoop_other fuel targetEpoch maxToWrite k : forall i m,
  0 <= i -> targetEpoch < 2^64 ->
  (forall j, i <= j < targetEpoch -> j mod WeakSubjectivityPeriod <> k) ->
  markLoop WeakSubjectivityPeriod FarFutureEpoch fuel targetEpoch maxToWrite i m !! k
  = m !! k.
Proof.
  induction fuel as [|n IH]; intros i m Hi Ht Hk; [reflexivity|].
  cbn [markLoop].
  destruct (Z.ltb_spec i targetEpoch) as [Hlt|Hge]; [|reflexivity].
  destruct (i <=? maxToWrite); [|reflexivity]. cbn [andb].
  assert (add64 i 1 = i + 1) as ->.
  { unfold add64. apply Z.mod_small. lia. }
  rewrite IH; [|lia|lia|intros j Hj; apply Hk; lia].
  apply lookup_insert_ne, Hk. lia.
Qed.

(** Marking a target epoch leaves the reading of every other epoch up to the
    latest written one that is within a period of the target as it was
    (epochs below 2^63). *)
Theorem mark_preserves_others history sourceEpoch targetEpoch i :
  0 < WeakSubjectivityPeriod < 2^62 ->
  0 <= LatestEpochWritten history < 2^63 -> 0 <= targetEpoch < 2^63 ->
  0 <= i <= LatestEpochWritten history ->
  i <> targetEpoch ->
  targetEpoch - WeakSubjectivityPeriod < i < targetEpoch + WeakSubjectivityPeriod ->
  safeTargetToSource (markAttestationForTargetEpoch history sourceEpoch targetEpoch) i
  = safeTargetToSource history i.
Proof.
  intros Hws Hl Ht Hi Hne Hnear.
  rewrite !safe_plain; rewrite ?marked_latest; try lia.
  assert (i mod WeakSubjectivityPeriod <> targetEpoch mod WeakSubjectivityPeriod) as Hslot.
  { destruct (Z.lt_ge_cases i targetEpoch).
    - apply mod_differ; lia.
    - intros Heq. symmetry in Heq. revert Heq. apply mod_differ; lia. }
  assert (mapAt (TargetToSource
                   (markAttestationForTargetEpoch history sourceEpoch targetEpoch))
            (i mod WeakSubjectivityPeriod)
          = mapAt (TargetToSource history) (i mod WeakSubjectivityPeriod)) as Hmap.
  { unfold markAttestationForTargetEpoch, Attester.markAttestationForTargetEpoch, mapAt.
    cbn [TargetToSource]. rewrite lookup_insert_ne by congruence.
    destruct (Z.ltb_spec (LatestEpochWritten history) targetEpoch) as [Hlt|Hge];
      [|reflexivity].
    cbn [TargetToSource]. rewrite markLoop_other; [reflexivity| | |].
    - unfold add64. apply Z.mod_pos_bound. reflexivity.
    - change (2 ^ 64) with 18446744073709551616.
      change (2 ^ 63) with 9223372036854775808 in Ht. lia.
    - intros j Hj Heq. symmetry in Heq. revert Heq.
      assert (add64 (LatestEpochWritten history) 1 = LatestEpochWritten history + 1) as Ha.
      { unfold add64. apply Z.mod_small.
        change (2 ^ 64) with 18446744073709551616.
        change (2 ^ 63) with 9223372036854775808 in Hl. lia. }
      rewrite Ha in Hj. apply mod_differ; lia. }
  rewrite Hmap.
  destruct (Z.ltb_spec (LatestEpochWritten history) targetEpoch) as [Hlt|Hge].
  - replace (Z.max (LatestEpochWritten history) targetEpoch) with targetEpoch by lia.
    replace (targetEpoch <? i) with false by lia.
    replace (i <? targetEpoch - WeakSubjectivityPeriod) with false by lia.
    replace (LatestEpochWritten history <? i) with false by lia.
    replace (i <? LatestEpochWritten history - WeakSubjectivityPeriod) with false by lia.
    reflexivity.
  - by replace (Z.max (LatestEpochWritten history) targetEpoch)
      with (LatestEpochWritten history) by lia.
Qed.

End Config.

Lemma mark_preserves_others_witness :
  safeTargetToSource 54000 (2^64 - 1)
    (markAttestationForTargetEpoch 54000 (2^64 - 1) (mkHistory {[ 9 := 4 ]} 10) 3 12) 9
  = safeTargetToSource 54000 (2^64 - 1) (mkHistory {[ 9 := 4 ]} 10) 9.
Proof.
  apply (mark_preserves_others 54000 (2^64 - 1) (mkHistory {[ 9 := 4 ]} 10) 3 12 9);
    simpl; lia.
Defined.

Lemma double_vote_rejected_witness :
  isNewAttSlashable 54000 (2^64 - 1)
    (markAttestationForTargetEpoch 54000 (2^64 - 1) (mkHistory ∅ 10) 3 12) 4 12
  = Some true.
Proof.
  apply (double_vote_rejected 54000 (2^64 - 1) (mkHistory ∅ 10) 3 12 4); simpl; lia.
Defined.

Lemma surround_vote_rejected_witness :
  isNewAttSlashable 54000 (2^64 - 1)
    (markAttestationForTargetEpoch 54000 (2^64 - 1) (mkHistory ∅ 10) 8 12) 7 13
  = Some true.
Proof.
  apply (surround_vote_rejected 54000 (2^64 - 1) (mkHistory ∅ 10) 8 12 7 13);
    simpl; lia.
Defined.

Lemma mark_a_period_behind_witness :
  isNewAttSlashable 10 (2^64 - 1) (mkHistory {[ 5 := 20 ]} 25) 2 15 = Some false /\
  safeTargetToSource 10 (2^64 - 1)
    (markAttestationForTargetEpoch 10 (2^64 - 1) (mkHistory {[ 5 := 20 ]} 25) 7 15) 25 = 7.
Proof.
  apply (mark_a_period_behind 10 (2^64 - 1) (mkHistory {[ 5 := 20 ]} 25) 7 2);
    simpl; lia.
Defined.

Lemma isNewAttSlashable_iff_witness :
  let h := mkHistory {[ 12 := 3 ]} 12 in
  exists b, isNewAttSlashable 54000 (2^64 - 1) h 2 13 = Some b /\
    (b = true <->
     pruned 54000 h 13 = false /\
     (safeTargetToSource 54000 (2^64 - 1) h 13 <> 2^64 - 1 \/
      (exists i, 2 <= i <= 13 /\
         safeTargetToSource 54000 (2^64 - 1) h i <> 2^64 - 1 /\
         2 < mapAt (TargetToSource h) (i mod 54000)) \/
      (exists i, 13 <= i <= LatestEpochWritten h /\
         safeTargetToSource 54000 (2^64 - 1) h i < 2))).
Proof.
  refine (isNewAttSlashable_iff 54000 (2^64 - 1) (mkHistory {[ 12 := 3 ]} 12) 2 13 _ _ _ _);
    simpl; lia.
Defined.

End SlashableProps.

(* ===================================================================== *)
(** * Properties of the setters of the beacon state                        *)
(* ===================================================================== *)

Module StateProps.
Import State.

Section Messages.

Context {Fork_ BeaconBlockHeader Eth1Data_ Validator PendingAttestation Checkpoint : Type}.

Abbreviation BeaconState :=
  (BeaconState Fork_ BeaconBlockHeader Eth1Data_ Validator PendingAttestation Checkpoint).
Abbreviation call :=
  (call Fork_ BeaconBlockHeader Eth1Data_ Validator PendingAttestation Checkpoint).
Abbreviation updatesAtIndex :=
  (@updatesAtIndex Fork_ BeaconBlockHeader Eth1Data_ Validator PendingAttestation Checkpoint _).

(** ** The dirty fields *)

Lemma markFieldAsDirty_spec field (b : BeaconState) :
  let b' := markFieldAsDirty field b in
  state b' = state b /\ valIdxMap b' = valIdxMap b /\ merkleLayers b' = merkleLayers b /\
  is_Some (dirtyFields b' !! field) /\
  (forall g x, dirtyFields b !! g = Some x -> dirtyFields b' !! g = Some x).
Proof.
  cbv zeta. unfold markFieldAsDirty.
  destruct (dirtyFields b !! field) as [v|] eqn:E; simpl.
  - repeat split; eauto.
  - repeat split; [by rewrite lookup_insert_eq|].
    intros g x Hg. destruct (decide (field = g)) as [->|Hne]; [congruence|].
    by rewrite lookup_insert_ne.
Qed.

Lemma keeps_marked c field s (b : BeaconState) :
  fieldOf c = Some field ->
  keeps c b (markFieldAsDirty field (withState s b)).
Proof.
  intros Hf.
  destruct (markFieldAsDirty_spec field (withState s b)) as (_ & Hv & Hm & Hd & Hk).
  unfold keeps. rewrite Hm, Hv. simpl. repeat split; try done.
  intros f Hf'. congruence.
Qed.

Lemma run_keeps (c : call) (b b' : BeaconState) : run c b = Ok b' -> keeps c b b'.
Proof.
  destruct c; cbn [run];
    try (intros [= <-]; by apply keeps_marked).
  all: try (unfold UpdateBlockRootAtIndex, UpdateStateRootAtIndex, UpdateValidatorAtIndex,
              UpdateBalancesAtIndex, UpdateRandaoMixesAtIndex, UpdateSlashingsAtIndex;
            destruct (_ <=? _); [discriminate|];
            destruct (store _ _ _); [|discriminate];
            intros [= <-]; by apply keeps_marked).
  - unfold ApplyToEveryValidator. destruct (applyToEach _ _ _) as [v [e|]]; [discriminate|].
    intros [= <-]. by apply keeps_marked.
  - intros [= <-]. unfold keeps. simpl. repeat split; try done.
Qed.

(** Whatever setters are called, in whatever order: when none fails, every
    field one of them writes is marked dirty at the end, no mark present
    before is lost or changed, and the layers of the Merkle trie are as they
    were (the setters leave the hashing to later). *)
Theorem runAll_dirty (cs : list call) (b b' : BeaconState) :
  runAll cs b = Ok b' ->
  merkleLayers b' = merkleLayers b /\
  (forall g x, dirtyFields b !! g = Some x -> dirtyFields b' !! g = Some x) /\
  (forall c f, c ∈ cs -> fieldOf c = Some f -> is_Some (dirtyFields b' !! f)).
Proof.
  revert b. induction cs as [|c cs IH]; intros b Hrun.
  - injection Hrun as <-. repeat split; [done|]. intros c f Hin. by apply elem_of_nil in Hin.
  - cbn [runAll] in Hrun. destruct (run c b) as [b1| |] eqn:Hc; try discriminate.
    apply run_keeps in Hc as (Hm1 & Hk1 & Hd1 & _).
    destruct (IH b1 Hrun) as (Hm & Hk & Hd).
    split; [congruence|]. split; [intros g x Hg; by apply Hk, Hk1|].
    intros c' f [->|Hin]%elem_of_cons Hf.
    + destruct (Hd1 f Hf) as [x Hx]. exists x. by apply Hk.
    + by apply (Hd c').
Qed.

(** ** The updates at an index *)

Lemma store_outcome {A} (s : list A) idx val :
  0 <= idx ->
  (idx < Z.of_nat (length s) ->
   exists r, store s idx val = Some r /\ r !! Z.to_nat idx = Some val /\
     length r = length s /\ forall j, j <> Z.to_nat idx -> r !! j = s !! j) /\
  (Z.of_nat (length s) <= idx -> store s idx val = None).
Proof.
  intros Hi. unfold store. split.
  - intros Hlt. replace (idx <? Z.of_nat (length s)) with true by lia.
    eexists. split; [reflexivity|]. split; [|split].
    + apply list_lookup_insert_eq. lia.
    + apply length_insert.
    + intros j Hj. by apply list_lookup_insert_ne.
  - intros Hge. by replace (idx <? Z.of_nat (length s)) with false by lia.
Qed.

Lemma int_cases idx :
  0 <= idx < 2^64 ->
  (idx < 2^63 -> int idx = idx) /\ (2^63 <= idx -> int idx < 0).
Proof.
  intros Hi. unfold int.
  change (2 ^ 64) with 18446744073709551616 in *;
  change (2 ^ 63) with 9223372036854775808 in *.
  destruct (Z.ltb_spec idx 9223372036854775808); split; lia.
Qed.

Lemma update_generic {A}
    (get : pbBeaconState Fork_ BeaconBlockHeader Eth1Data_
             Validator PendingAttestation Checkpoint -> list A)
    (set : list A -> pbBeaconState Fork_ BeaconBlockHeader Eth1Data_
                       Validator PendingAttestation Checkpoint
           -> pbBeaconState Fork_ BeaconBlockHeader Eth1Data_
                Validator PendingAttestation Checkpoint)
    (field : fieldIndex) :
  (forall r s, get (set r s) = r) ->
  updatesAtIndex get field
    (fun idx val b =>
       if Z.of_nat (length (get (state b))) <=? int idx then Err "invalid index provided"
       else match store (get (state b)) idx val with
            | None => Panic
            | Some r => Ok (markFieldAsDirty field (withState (set r (state b)) b))
            end).
Proof.
  intros Hgs b idx val Hidx. cbv zeta.
  destruct (int_cases idx Hidx) as [Hsmall Hbig].
  destruct (store_outcome (get (state b)) idx val ltac:(lia)) as [Hin Hout].
  split; [|split].
  - intros Hlt. destruct (Hin Hlt) as (r & -> & Hr1 & Hr2 & Hr3).
    replace (Z.of_nat (length (get (state b))) <=? int idx) with false
      by (destruct (Z.lt_ge_cases idx (2^63)); [rewrite Hsmall by lia|specialize (Hbig H)]; lia).
    eexists. split; [reflexivity|].
    destruct (markFieldAsDirty_spec field (withState (set r (state b)) b))
      as (Hst & _ & _ & Hd & _).
    rewrite Hst. simpl. rewrite Hgs. auto.
  - intros Hr. rewrite Hsmall by lia.
    by replace (Z.of_nat (length (get (state b))) <=? idx) with true by lia.
  - intros Hb Hn. specialize (Hbig Hb).
    replace (Z.of_nat (length (get (state b))) <=? int idx) with false by lia.
    by rewrite (Hout Hn).
Qed.

(** The six updates at an index behave so: UpdateBlockRootAtIndex,
    UpdateStateRootAtIndex, UpdateValidatorAtIndex, UpdateBalancesAtIndex,
    UpdateRandaoMixesAtIndex and UpdateSlashingsAtIndex. *)
Theorem UpdateAtIndex_outcomes :
  updatesAtIndex BlockRoots blockRoots UpdateBlockRootAtIndex /\
  updatesAtIndex StateRoots stateRoots UpdateStateRootAtIndex /\
  updatesAtIndex Validators validators UpdateValidatorAtIndex /\
  updatesAtIndex Balances balances UpdateBalancesAtIndex /\
  updatesAtIndex RandaoMixes randaoMixes
    (fun idx val => UpdateRandaoMixesAtIndex val idx) /\
  updatesAtIndex Slashings slashings UpdateSlashingsAtIndex.
Proof.
  split; [apply (update_generic BlockRoots withBlockRoots); reflexivity|].
  split; [apply (update_generic StateRoots withStateRoots); reflexivity|].
  split; [apply (update_generic Validators withValidators); reflexivity|].
  split; [apply (update_generic Balances withBalances); reflexivity|].
  split; [apply (update_generic RandaoMixes withRandaoMixes); reflexivity|].
  apply (update_generic Slashings withSlashings); reflexivity.
Qed.

(** ** ApplyToEveryValidator *)

Lemma applyToEach_ok (f : nat -> Validator -> Validator * option string) :
  forall (v : list Validator) i out,
  applyToEach f i v = (out, None) <->
  (forall j val, v !! j = Some val -> snd (f (i + j)%nat val) = None) /\
  out = imap (fun j val => fst (f (i + j)%nat val)) v.
Proof.
  induction v as [|val rest IH]; intros i out; cbn [applyToEach].
  - split.
    + intros [= <-]. split; [intros j x Hj; by rewrite lookup_nil in Hj|reflexivity].
    + intros [_ ->]. reflexivity.
  - destruct (f i val) as [val' [e|]] eqn:Hf.
    + split; [discriminate|]. intros [Hall _].
      specialize (Hall O val eq_refl). rewrite Nat.add_0_r, Hf in Hall. discriminate.
    + destruct (applyToEach f (S i) rest) as [rest' e'] eqn:Hrest.
      split.
      * intros [= <- ->]. apply IH in Hrest as [Hall ->]. split.
        -- intros [|j] x Hj; simpl in Hj.
           ++ injection Hj as <-. by rewrite Nat.add_0_r, Hf.
           ++ replace (i + S j)%nat with (S i + j)%nat by lia. by apply Hall.
        -- cbn [imap]. rewrite Nat.add_0_r, Hf. simpl. f_equal.
           apply imap_ext. intros j x _. simpl. f_equal. f_equal. lia.
      * intros [Hall ->].
        assert (applyToEach f (S i) rest
                = (imap (fun j x => fst (f (S i + j)%nat x)) rest, None)) as Hr.
        { apply IH. split; [|reflexivity]. intros j x Hj.
          replace (S i + j)%nat with (i + S j)%nat by lia. by apply Hall. }
        rewrite Hr in Hrest. injection Hrest as <- <-.
        cbn [imap]. rewrite Nat.add_0_r, Hf. simpl. f_equal. f_equal.
        apply imap_ext. intros j x _. simpl. f_equal. f_equal. lia.
Qed.

(** ApplyToEveryValidator succeeds exactly when the callback succeeds on
    every validator of the registry, each with its own index; the registry
    is then the validators as the callback left them, in their order, and
    the field is marked dirty. *)
Theorem ApplyToEveryValidator_ok (f : nat -> Validator -> Validator * option string)
    (b b' : BeaconState) :
  ApplyToEveryValidator f b = Ok b' <->
  (forall i val, Validators (state b) !! i = Some val -> snd (f i val) = None) /\
  b' = markFieldAsDirty validators
         (withState (withValidators (imap (fun i val => fst (f i val)) (Validators (state b)))
                       (state b)) b).
Proof.
  unfold ApplyToEveryValidator.
  destruct (applyToEach f 0 (Validators (state b))) as [v [e|]] eqn:Hv.
  - split; [discriminate|]. intros [Hall _].
    assert (applyToEach f 0 (Validators (state b))
            = (imap (fun j x => fst (f (0 + j)%nat x)) (Validators (state b)), None)) as Hr.
    { apply applyToEach_ok. split; [|reflexivity]. intros j x Hj. by apply Hall. }
    rewrite Hr in Hv. discriminate.
  - apply applyToEach_ok in Hv as [Hall ->]. split.
    + intros [= <-]. split; [intros i val Hi; by apply (Hall i)|reflexivity].
    + intros [_ ->]. reflexivity.
Qed.

(** ** recomputeRoot *)

Lemma land_double_1 k : Nat.land (2 * k) 1 = 0%nat.
Proof.
  apply Nat.bits_inj. intros n. rewrite Nat.land_spec, Nat.bits_0.
  destruct n as [|m].
  - rewrite Nat.testbit_even_0. reflexivity.
  - replace (Nat.testbit 1 (S m)) with false; [apply andb_false_r|].
    symmetry. change 1%nat with (Nat.b2n true).
    rewrite <- (Nat.add_0_l (Nat.b2n true)). change 0%nat with (2 * 0)%nat at 1.
    rewrite Nat.testbit_succ_r. apply Nat.bits_0.
Qed.

Lemma lxor_even c :
  Nat.even c = true -> Nat.lxor c 1 = S c /\ c = (2 * Nat.div2 c)%nat.
Proof.
  intros H. pose proof (Nat.div2_odd c) as Hc.
  rewrite <- Nat.negb_even, H in Hc. simpl Nat.b2n in Hc.
  assert (c = 2 * Nat.div2 c)%nat as Hc' by lia. split; [|exact Hc'].
  rewrite <- Nat.add_nocarry_lxor; [lia|]. rewrite Hc'. apply land_double_1.
Qed.

Lemma lxor_odd c :
  Nat.even c = false -> S (Nat.lxor c 1) = c /\ c = (2 * Nat.div2 c + 1)%nat.
Proof.
  intros H. pose proof (Nat.div2_odd c) as Hc.
  rewrite <- Nat.negb_even, H in Hc. simpl Nat.b2n in Hc. split; [|exact Hc].
  assert (c = Nat.lxor (2 * Nat.div2 c) 1) as Hx.
  { rewrite <- Nat.add_nocarry_lxor by apply land_double_1. exact Hc. }
  rewrite Hx at 1. rewrite Nat.lxor_assoc, Nat.lxor_nilpotent, Nat.lxor_0_r. lia.
Qed.

Lemma shiftr_div2 c d : Nat.shiftr (Nat.div2 c) d = Nat.shiftr c (S d).
Proof.
  induction d as [|d IH]; [reflexivity|].
  change (Nat.shiftr (Nat.div2 c) (S d)) with (Nat.div2 (Nat.shiftr (Nat.div2 c) d)).
  rewrite IH. reflexivity.
Qed.

Lemma div2_not j x : Nat.div2 x <> j -> x <> (2 * j)%nat /\ x <> (2 * j + 1)%nat.
Proof.
  intros H. split; intros ->; apply H.
  - apply Nat.div2_double.
  - replace (2 * j + 1)%nat with (S (2 * j)) by lia. apply Nat.div2_succ_double.
Qed.

Lemma nodeAt_insert_same {A} (layers : list (list A)) k u p x :
  layers !! k = Some u -> (p < length u)%nat ->
  nodeAt (<[k := <[p := x]> u]> layers) k p = Some x.
Proof.
  intros Hk Hp. unfold nodeAt.
  rewrite list_lookup_insert_eq by (by eapply lookup_lt_Some).
  by apply list_lookup_insert_eq.
Qed.

Lemma nodeAt_insert_other {A} (layers : list (list A)) k u p x k' j :
  layers !! k = Some u -> k' <> k \/ j <> p ->
  nodeAt (<[k := <[p := x]> u]> layers) k' j = nodeAt layers k' j.
Proof.
  intros Hk Hne. unfold nodeAt. destruct (decide (k' = k)) as [->|Hk'].
  - rewrite list_lookup_insert_eq by (by eapply lookup_lt_Some). rewrite Hk.
    destruct Hne as [|Hj]; [done|]. by apply list_lookup_insert_ne.
  - by rewrite list_lookup_insert_ne.
Qed.

Lemma nodeAt_inserted {A} (layers : list (list A)) k u p x k' j y :
  layers !! k = Some u ->
  nodeAt (<[k := <[p := x]> u]> layers) k' j = Some y ->
  y = x \/ nodeAt layers k' j = Some y.
Proof.
  intros Hk Hy. destruct (decide (k' = k /\ j = p)) as [[-> ->]|Hne].
  - left. unfold nodeAt in Hy.
    rewrite list_lookup_insert_eq in Hy by (by eapply lookup_lt_Some).
    destruct (decide (p < length u)%nat).
    + rewrite list_lookup_insert_eq in Hy by done. congruence.
    + rewrite lookup_ge_None_2 in Hy by (rewrite length_insert; lia). discriminate.
  - right. rewrite <- Hy. symmetry. apply nodeAt_insert_other; [done|].
    destruct (decide (k' = k)); [right|left]; naive_solver.
Qed.

Lemma lengths_insert {A} (layers : list (list A)) k u p x :
  layers !! k = Some u ->
  map length (<[k := <[p := x]> u]> layers) = map length layers.
Proof.
  intros Hk. change (@map) with (@fmap list _). rewrite list_fmap_insert, length_insert.
  apply list_insert_id. by rewrite list_lookup_fmap, Hk.
Qed.

Lemma nodeAt_lengths {A B} (l1 : list (list A)) (l2 : list (list B)) k j :
  map length l1 = map length l2 -> is_Some (nodeAt l1 k j) -> is_Some (nodeAt l2 k j).
Proof.
  intros Hlen. unfold nodeAt.
  assert (length <$> l1 !! k = length <$> l2 !! k) as Hk.
  { change (@map) with (@fmap list _) in Hlen. by rewrite <- !list_lookup_fmap, Hlen. }
  destruct (l1 !! k) as [u1|], (l2 !! k) as [u2|]; simpl in Hk; try discriminate.
  - injection Hk as Hk. intros H%lookup_lt_is_Some. apply lookup_lt_is_Some. lia.
  - by intros [? ?].
Qed.

(** ** Slices and the heap *)

Lemma write_nil pos a : write pos [] a = a.
Proof. unfold write. simpl. rewrite Nat.add_0_r. apply take_drop. Qed.

Lemma length_write pos bs a :
  (pos + length bs <= length a)%nat -> length (write pos bs a) = length a.
Proof.
  intros H. unfold write. rewrite !length_app, length_take, length_drop. lia.
Qed.

Lemma valid_ext (h new : heap) s : valid h s -> valid (h ++ new) s.
Proof.
  intros (a & Ha & Hb). exists a. split; [|done]. by apply lookup_app_l_Some.
Qed.

Lemma bytesOf_ext (h new : heap) s : valid h s -> bytesOf (h ++ new) s = bytesOf h s.
Proof.
  intros (a & Ha & _). unfold bytesOf, arrayOf.
  by rewrite (lookup_app_l_Some _ _ _ _ Ha), Ha.
Qed.

Lemma length_bytesOf (h : heap) s : valid h s -> length (bytesOf h s) = len s.
Proof.
  intros (a & Ha & H1 & H2). unfold bytesOf, arrayOf. rewrite Ha. simpl.
  rewrite length_take, length_drop. lia.
Qed.

Lemma valid_written (h : heap) l w s :
  (forall a, h !! l = Some a -> length w = length a) ->
  valid h s -> valid (<[l := w]> h) s.
Proof.
  intros Hw (a & Ha & Hb). destruct (decide (arr s = l)) as [<-|Hne].
  - exists w. rewrite list_lookup_insert_eq by (by eapply lookup_lt_Some).
    split; [done|]. by rewrite (Hw a Ha).
  - exists a. by rewrite list_lookup_insert_ne.
Qed.

Lemma alloc_spec (h : heap) a :
  fst (alloc h a) = h ++ [a] /\ valid (fst (alloc h a)) (snd (alloc h a)) /\
  cap (snd (alloc h a)) = len (snd (alloc h a)) /\
  len (snd (alloc h a)) = length a /\
  bytesOf (fst (alloc h a)) (snd (alloc h a)) = a.
Proof.
  unfold alloc. cbn [fst snd]. split; [done|].
  assert ((h ++ [a]) !! length h = Some a) as Hl by apply list_lookup_middle, eq_refl.
  split; [|split; [done|split; [done|]]].
  - exists a. cbn [arr off cap len]. split; [done|]. lia.
  - unfold bytesOf, arrayOf. cbn [arr off len]. rewrite Hl. simpl.
    by rewrite take_ge.
Qed.

(** An [append] to a slice without spare capacity leaves every array as it
    is. *)
Lemma append_tight (h : heap) s t :
  valid h s -> cap s = len s ->
  exists new, fst (append h s t) = h ++ new /\
    bytesOf (fst (append h s t)) (snd (append h s t)) = bytesOf h s ++ bytesOf h t.
Proof.
  intros Hv Ht. unfold append.
  destruct (Nat.leb_spec (len s + len t) (cap s)) as [Hroom|Hfull].
  - assert (len t = 0)%nat as H0 by lia. cbn [fst snd].
    assert (bytesOf h t = []) as -> by (unfold bytesOf; by rewrite H0).
    rewrite write_nil. destruct Hv as (a & Ha & _).
    assert (<[arr s := arrayOf h s]> h = h) as ->.
    { apply list_insert_id. unfold arrayOf. by rewrite Ha. }
    exists []. rewrite !app_nil_r. split; [done|].
    unfold bytesOf, arrayOf. cbn [arr off len]. by rewrite H0, Nat.add_0_r.
  - destruct (alloc_spec h (bytesOf h s ++ bytesOf h t)) as (H1 & _ & _ & _ & H4).
    eexists. split; [exact H1|exact H4].
Qed.

(** An [append] to a slice with room writes behind it. *)
Lemma append_in_place (h : heap) s t :
  (len s + len t <= cap s)%nat ->
  fst (append h s t) = <[arr s := write (off s + len s) (bytesOf h t) (arrayOf h s)]> h.
Proof.
  intros H. unfold append.
  by replace (len s + len t <=? cap s)%nat with true by (symmetry; by apply Nat.leb_le).
Qed.

Lemma nodeAt_contents (h : heap) layers k j :
  nodeAt (contents h layers) k j = bytesOf h <$> nodeAt layers k j.
Proof.
  unfold nodeAt, contents. rewrite list_lookup_fmap.
  destruct (layers !! k) as [layer|]; [|done]. simpl. apply list_lookup_fmap.
Qed.

Lemma lengths_contents (h : heap) layers :
  map length (contents h layers) = map length layers.
Proof.
  unfold contents. change (@map) with (@fmap list _). rewrite <- list_fmap_compose.
  apply list_fmap_ext. intros k layer _. simpl. apply length_fmap.
Qed.

Lemma contents_ext (h new : heap) layers :
  (forall k j s, nodeAt layers k j = Some s -> valid h s) ->
  contents (h ++ new) layers = contents h layers.
Proof.
  intros Hv. unfold contents. apply list_eq. intros k. rewrite !list_lookup_fmap.
  destruct (layers !! k) as [layer|] eqn:Hk; [|done]. simpl. f_equal.
  apply list_eq. intros j. rewrite !list_lookup_fmap.
  destruct (layer !! j) as [s|] eqn:Hj; [|done]. simpl. f_equal.
  apply bytesOf_ext, (Hv k j). unfold nodeAt. by rewrite Hk.
Qed.

Section Hash.

Variable hashFunc : list Byte.byte -> list Byte.byte.

Let recomputeLoop := recomputeLoop hashFunc.
Let rehash := rehash hashFunc.
Let parentOf := parentOf hashFunc.

(** The hashing of the branch, from level [i] and node [c] of it, holding
    [root]. *)
Lemma rehash_spec n : forall i c root (layers out : list (list (list Byte.byte))),
  rehash n i c root layers = Some out ->
  nodeAt layers i c = Some root ->
  map length out = map length layers /\
  (forall k j, (k <= i)%nat \/ (i + n < k)%nat \/ j <> Nat.shiftr c (k - i) ->
     nodeAt out k j = nodeAt layers k j) /\
  (forall d, (d < n)%nat ->
     nodeAt out (S (i + d)) (Nat.shiftr c (S d))
     = parentOf out (i + d) (Nat.shiftr c (S d))).
Proof.
  induction n as [|n IH]; intros i c root layers out Hrun Hroot.
  - injection Hrun as <-. split; [done|]. split; [done|]. intros d Hd. lia.
  - unfold rehash in Hrun. cbn [State.rehash] in Hrun.
    fold rehash in Hrun.
    destruct (layers !! i) as [layer|] eqn:Hi; [|discriminate].
    destruct (layers !! S i) as [upper|] eqn:HSi; [|discriminate].
    destruct (Nat.ltb_spec (Nat.div2 c) (length upper)) as [Hp|]; [|discriminate].
    set (P := if Nat.even c
              then hashFunc (root ++ default zeroNode (layer !! Nat.lxor c 1))
              else hashFunc (default zeroNode (layer !! Nat.lxor c 1) ++ root)) in *.
    set (layers1 := <[S i := <[Nat.div2 c := P]> upper]> layers) in *.
    destruct (IH (S i) (Nat.div2 c) P layers1 out Hrun) as (Hlen & Hsame & Hbranch).
    { by apply nodeAt_insert_same. }
    assert (forall k j, k <> S i \/ j <> Nat.div2 c ->
              nodeAt layers1 k j = nodeAt layers k j) as Hfirst.
    { intros k j Hne. by apply nodeAt_insert_other. }
    split; [|split].
    + rewrite Hlen. by apply lengths_insert.
    + intros k j Hkj. destruct (decide (k = S i)) as [->|Hk].
      * rewrite Hsame by (left; lia). apply Hfirst. right.
        destruct Hkj as [?|[?|Hj]]; [lia|lia|].
        by replace (S i - i)%nat with 1%nat in Hj by lia.
      * rewrite Hsame; [apply Hfirst; by left|].
        destruct Hkj as [?|[?|Hj]]; [left; lia|right; left; lia|].
        destruct (decide (k <= i)%nat); [left; lia|]. right. right.
        rewrite shiftr_div2. by replace (S (k - S i)) with (k - i)%nat by lia.
    + intros [|d] Hd.
      * rewrite Nat.add_0_r. change (Nat.shiftr c 1) with (Nat.div2 c).
        rewrite Hsame by (left; lia).
        unfold layers1. rewrite (nodeAt_insert_same layers (S i) upper) by done.
        unfold parentOf, State.parentOf.
        rewrite !Hsame by (left; lia). rewrite !Hfirst by (left; lia).
        unfold nodeAt in Hroot |- *. rewrite Hi in Hroot |- *.
        subst P. destruct (Nat.even c) eqn:Hev.
        -- destruct (lxor_even c Hev) as [Hx Hc]. rewrite Hx.
           rewrite <- Hc, Hroot. by replace (c + 1)%nat with (S c) by lia.
        -- destruct (lxor_odd c Hev) as [Hx Hc].
           assert (Nat.lxor c 1 = 2 * Nat.div2 c)%nat as Hx' by lia.
           rewrite Hx'. rewrite <- Hc, Hroot.
           destruct (lookup_lt_is_Some_2 layer (2 * Nat.div2 c)%nat) as [l Hl].
           { apply lookup_lt_Some in Hroot. lia. }
           rewrite Hl. reflexivity.
      * replace (i + S d)%nat with (S i + d)%nat by lia.
        rewrite <- shiftr_div2. apply Hbranch. lia.
Qed.

(** The whole branch, from the leaf [c]. *)
Lemma rehash_branch c root (layers out : list (list (list Byte.byte))) :
  rehash (length layers - 1) O c root layers = Some out ->
  nodeAt layers O c = Some root ->
  map length out = map length layers /\
  (forall k j, k = O \/ j <> Nat.shiftr c k -> nodeAt out k j = nodeAt layers k j) /\
  (forall k, (S k < length layers)%nat ->
     nodeAt out (S k) (Nat.shiftr c (S k)) = parentOf out k (Nat.shiftr c (S k))).
Proof.
  intros Hrun Hroot.
  destruct (rehash_spec _ _ _ _ _ _ Hrun Hroot) as (Hlen & Hsame & Hbranch).
  split; [done|]. split.
  - intros k j Hkj. apply Hsame. destruct Hkj as [->|Hj]; [left; lia|].
    right. right. by rewrite Nat.sub_0_r.
  - intros k Hk. apply (Hbranch k). lia.
Qed.

(** Hashing the branch anew makes a Merkle tree of a trie that was one off
    the branch. *)
Lemma rehash_merkle c root (layers out : list (list (list Byte.byte))) :
  rehash (length layers - 1) O c root layers = Some out ->
  nodeAt layers O c = Some root ->
  (forall k j, j <> Nat.shiftr c (S k) -> merkleAt hashFunc layers k j) ->
  forall k j, merkleAt hashFunc out k j.
Proof.
  intros Hrun Hroot Hoff k j Hsome. unfold merkleAt in Hoff.
  destruct (rehash_branch _ _ _ _ Hrun Hroot) as (Hlen & Hsame & Hbranch).
  assert (forall k' j', j' <> Nat.shiftr c k' -> nodeAt out k' j' = nodeAt layers k' j')
    as Hoffb by (intros k' j' Hj'; apply Hsame; by right).
  destruct (decide (j = Nat.shiftr c (S k))) as [->|Hj].
  - apply (Hbranch k).
    assert (length out = length layers) as Hl.
    { by rewrite <- (length_map length), Hlen, length_map. }
    unfold nodeAt in Hsome.
    destruct (out !! S k) eqn:E; [|by destruct Hsome].
    apply lookup_lt_Some in E. lia.
  - rewrite Hoffb by done.
    rewrite (Hoff k j Hj); [|rewrite <- Hoffb by done; exact Hsome].
    unfold State.parentOf.
    change (Nat.shiftr c (S k)) with (Nat.div2 (Nat.shiftr c k)) in Hj.
    assert (Nat.div2 (Nat.shiftr c k) <> j) as Hj' by congruence.
    destruct (div2_not j _ Hj') as [H1 H2].
    rewrite !Hoffb by congruence. reflexivity.
Qed.

(** One turn of the loop when the first operand of its [append] has no
    spare capacity. *)
Lemma turn_tight (h : heap) (layer : list slice) (root : slice) c :
  valid h root -> cap root = len root ->
  (forall s, layer !! Nat.lxor c 1 = Some s -> valid h s /\ cap s = len s) ->
  let h1 := fst (alloc h zeroNode) in
  let neighbor := default (snd (alloc h zeroNode)) (layer !! Nat.lxor c 1) in
  let hj := if Nat.even c then append h1 root neighbor else append h1 neighbor root in
  let hr := alloc (fst hj) (hashFunc (bytesOf (fst hj) (snd hj))) in
  let nb := default zeroNode (bytesOf h <$> layer !! Nat.lxor c 1) in
  exists new, fst hr = h ++ new /\ valid (fst hr) (snd hr) /\
    cap (snd hr) = len (snd hr) /\
    bytesOf (fst hr) (snd hr)
    = if Nat.even c then hashFunc (bytesOf h root ++ nb) else hashFunc (nb ++ bytesOf h root).
Proof.
  intros Hv Ht Hn. cbv zeta.
  destruct (alloc_spec h zeroNode) as (H1 & Hzv & Hzt & _ & Hzb).
  set (h1 := fst (alloc h zeroNode)) in *. set (z := snd (alloc h zeroNode)) in *.
  set (neighbor := default z (layer !! Nat.lxor c 1)).
  assert (valid h1 neighbor /\ cap neighbor = len neighbor /\
          bytesOf h1 neighbor = default zeroNode (bytesOf h <$> layer !! Nat.lxor c 1))
    as (Hnv & Hnt & Hnb).
  { subst neighbor. destruct (layer !! Nat.lxor c 1) as [s|]; simpl.
    - destruct (Hn s eq_refl) as [Hsv Hst]. rewrite H1.
      split; [by apply valid_ext|]. split; [done|]. by apply bytesOf_ext.
    - done. }
  assert (valid h1 root /\ bytesOf h1 root = bytesOf h root) as [Hrv Hrb].
  { rewrite H1. split; [by apply valid_ext|by apply bytesOf_ext]. }
  assert (exists new2, fst (if Nat.even c then append h1 root neighbor
                            else append h1 neighbor root) = h1 ++ new2 /\
            bytesOf (fst (if Nat.even c then append h1 root neighbor
                          else append h1 neighbor root))
                    (snd (if Nat.even c then append h1 root neighbor
                          else append h1 neighbor root))
            = if Nat.even c then bytesOf h1 root ++ bytesOf h1 neighbor
              else bytesOf h1 neighbor ++ bytesOf h1 root) as (new2 & H2 & Hjb).
  { destruct (Nat.even c); by apply append_tight. }
  set (hj := if Nat.even c then append h1 root neighbor else append h1 neighbor root) in *.
  destruct (alloc_spec (fst hj) (hashFunc (bytesOf (fst hj) (snd hj))))
    as (H3 & Hv3 & Ht3 & _ & Hb3).
  exists ([zeroNode] ++ new2 ++ [hashFunc (bytesOf (fst hj) (snd hj))]).
  split; [by rewrite H3, H2, H1, <- !app_assoc|]. split; [done|]. split; [done|].
  rewrite Hb3, Hjb, Hrb, Hnb. by destruct (Nat.even c).
Qed.

(** Without spare capacity in the nodes from level [i] up, the loop adds
    arrays to the heap, changes none, and does to the bytes of the nodes
    what [rehash] does. *)
Lemma recomputeLoop_rehash n : forall i c root (h h' : heap) (layers out : list (list slice)),
  (forall k j s, nodeAt layers k j = Some s -> valid h s) ->
  (forall k j s, (i <= k)%nat -> nodeAt layers k j = Some s -> cap s = len s) ->
  nodeAt layers i c = Some root ->
  recomputeLoop n i c root h layers = Some (h', out) ->
  (exists new, h' = h ++ new) /\
  (forall k j s, nodeAt out k j = Some s -> valid h' s) /\
  rehash n i c (bytesOf h root) (contents h layers) = Some (contents h' out).
Proof.
  induction n as [|n IH]; intros i c root h h' layers out Hvalid Htight Hroot Hrun.
  - injection Hrun as <- <-. split; [exists []; by rewrite app_nil_r|]. split; [done|].
    reflexivity.
  - unfold recomputeLoop in Hrun. cbn [State.recomputeLoop] in Hrun.
    fold recomputeLoop in Hrun.
    destruct (layers !! i) as [layer|] eqn:Hi; [|discriminate].
    destruct (turn_tight h layer root c) as (new1 & H1 & Hv1 & Ht1 & Hb1).
    { by eapply Hvalid. } { by eapply (Htight i c). }
    { intros s Hs. split.
      - apply (Hvalid i (Nat.lxor c 1)). unfold nodeAt. by rewrite Hi.
      - apply (Htight i (Nat.lxor c 1)); [done|]. unfold nodeAt. by rewrite Hi. }
    cbv zeta in H1, Hv1, Ht1, Hb1.
    destruct (alloc h zeroNode) as [h1 z] eqn:Hz. cbn [fst snd] in *.
    destruct (if Nat.even c then append h1 root (default z (layer !! Nat.lxor c 1))
              else append h1 (default z (layer !! Nat.lxor c 1)) root) as [h2 joined] eqn:Hj.
    cbn [fst snd] in *.
    destruct (alloc h2 (hashFunc (bytesOf h2 joined))) as [h3 root'] eqn:Hr.
    cbn [fst snd] in *.
    destruct (layers !! S i) as [upper|] eqn:HSi; [|discriminate].
    destruct (Nat.ltb_spec (Nat.div2 c) (length upper)) as [Hp|]; [|discriminate].
    set (layers1 := <[S i := <[Nat.div2 c := root']> upper]> layers) in *.
    assert (forall k j s, nodeAt layers1 k j = Some s -> valid h3 s) as Hvalid1.
    { intros k j s Hs. apply nodeAt_inserted in Hs as [->|Hs]; [done| |done].
      rewrite H1. apply valid_ext. by eapply Hvalid. }
    destruct (IH (S i) (Nat.div2 c) root' h3 h' layers1 out Hvalid1) as (Hext & Hvout & Hre).
    { intros k j s Hk Hs. apply nodeAt_inserted in Hs as [->|Hs]; [done| |done].
      apply (Htight k j); [lia|done]. }
    { by apply nodeAt_insert_same. }
    { exact Hrun. }
    split; [|split; [exact Hvout|]].
    { destruct Hext as [new ->]. exists (new1 ++ new). by rewrite H1, <- app_assoc. }
    unfold rehash. cbn [State.rehash]. fold rehash.
    assert (contents h layers !! i = Some (bytesOf h <$> layer)) as ->
      by (unfold contents; by rewrite list_lookup_fmap, Hi).
    assert (contents h layers !! S i = Some (bytesOf h <$> upper)) as ->
      by (unfold contents; by rewrite list_lookup_fmap, HSi).
    rewrite length_fmap. replace (Nat.div2 c <? length upper)%nat with true
      by (symmetry; by apply Nat.ltb_lt).
    rewrite list_lookup_fmap. rewrite <- Hb1.
    rewrite <- Hre. f_equal.
    unfold layers1, contents. rewrite list_fmap_insert, list_fmap_insert.
    rewrite H1.
    assert ((fun layer0 : list slice => bytesOf (h ++ new1) <$> layer0) <$> layers
            = (fun layer0 : list slice => bytesOf h <$> layer0) <$> layers) as ->
      by (by apply (contents_ext h new1 layers)).
    f_equal. f_equal. apply list_fmap_ext. intros j s Hs.
    symmetry. apply bytesOf_ext, (Hvalid (S i) j). unfold nodeAt. by rewrite HSi.
Qed.

(** When the loop panics: *)
Lemma recomputeLoop_defined n : forall i c root (h : heap) (layers : list (list slice)),
  (i + n < length layers)%nat ->
  is_Some (recomputeLoop n i c root h layers) <->
  forall d, (d < n)%nat -> is_Some (nodeAt layers (S (i + d)) (Nat.shiftr c (S d))).
Proof.
  induction n as [|n IH]; intros i c root h layers Hn.
  - split; [intros _ d Hd; lia|]. intros _. by eexists.
  - unfold recomputeLoop. cbn [State.recomputeLoop]. fold recomputeLoop.
    destruct (lookup_lt_is_Some_2 layers i ltac:(lia)) as [layer Hi].
    destruct (lookup_lt_is_Some_2 layers (S i) ltac:(lia)) as [upper HSi].
    rewrite Hi.
    destruct (alloc h zeroNode) as [h1 z].
    destruct (if Nat.even c then _ else _) as [h2 joined].
    destruct (alloc h2 _) as [h3 P].
    rewrite HSi.
    destruct (Nat.ltb_spec (Nat.div2 c) (length upper)) as [Hp|Hp].
    + rewrite IH by (rewrite length_insert; lia). split.
      * intros Hall [|d] Hd.
        -- rewrite Nat.add_0_r. change (Nat.shiftr c 1) with (Nat.div2 c).
           unfold nodeAt. rewrite HSi. by apply lookup_lt_is_Some.
        -- replace (i + S d)%nat with (S i + d)%nat by lia. rewrite <- shiftr_div2.
           eapply nodeAt_lengths; [|apply Hall; lia]. by apply lengths_insert.
      * intros Hall d Hd. specialize (Hall (S d) ltac:(lia)).
        replace (i + S d)%nat with (S i + d)%nat in Hall by lia.
        rewrite <- shiftr_div2 in Hall.
        eapply nodeAt_lengths; [|exact Hall]. symmetry. by apply lengths_insert.
    + split; [by intros [? ?]|]. intros Hall. specialize (Hall O ltac:(lia)).
      rewrite Nat.add_0_r in Hall. change (Nat.shiftr c 1) with (Nat.div2 c) in Hall.
      unfold nodeAt in Hall. rewrite HSi in Hall. apply lookup_lt_is_Some in Hall. lia.
Qed.

Let recomputeRoot := @recomputeRoot Fork_ BeaconBlockHeader Eth1Data_ Validator
                       PendingAttestation Checkpoint hashFunc.

(** A call that returns has run the loop from the leaf. *)
Lemma recomputeRoot_loop idx (h h' : heap) (b b' : BeaconState) :
  recomputeRoot idx h b = Some (h', b') ->
  exists root out,
    nodeAt (merkleLayers b) O (Z.to_nat idx) = Some root /\
    recomputeLoop (length (merkleLayers b) - 1) O (Z.to_nat idx) root h (merkleLayers b)
      = Some (h', out) /\
    b' = withMerkleLayers out b.
Proof.
  unfold recomputeRoot, State.recomputeRoot. cbv zeta.
  destruct (idx <? 0); [discriminate|]. unfold nodeAt.
  destruct (merkleLayers b !! O) as [leaves|] eqn:H0; [|discriminate].
  destruct (leaves !! Z.to_nat idx) as [root|] eqn:Hroot; [|discriminate].
  destruct (State.recomputeLoop hashFunc _ _ _ _ _ _) as [[h1 out]|] eqn:Hrun;
    [|discriminate].
  intros [= <- <-]. by exists root, out.
Qed.

(** A call on a trie whose nodes have no spare capacity hashes the branch of
    the leaf anew and changes no array of the heap. *)
Lemma recomputeRoot_rehash idx (h h' : heap) (b b' : BeaconState) :
  (forall k j s, nodeAt (merkleLayers b) k j = Some s -> valid h s /\ cap s = len s) ->
  recomputeRoot idx h b = Some (h', b') ->
  exists root,
    nodeAt (contents h (merkleLayers b)) O (Z.to_nat idx) = Some root /\
    rehash (length (contents h (merkleLayers b)) - 1) O (Z.to_nat idx) root
      (contents h (merkleLayers b)) = Some (contents h' (merkleLayers b')) /\
    (exists new, h' = h ++ new) /\
    state b' = state b /\ dirtyFields b' = dirtyFields b /\ valIdxMap b' = valIdxMap b.
Proof.
  intros Hnodes Hcall.
  destruct (recomputeRoot_loop idx h h' b b' Hcall) as (root & out & Hroot & Hrun & ->).
  destruct (recomputeLoop_rehash _ _ _ _ _ _ _ _
              (fun k j s Hs => proj1 (Hnodes k j s Hs))
              (fun k j s _ Hs => proj2 (Hnodes k j s Hs)) Hroot Hrun)
    as (Hext & _ & Hre).
  exists (bytesOf h root). split; [by rewrite nodeAt_contents, Hroot|].
  split; [|by split].
  unfold contents at 1. rewrite length_fmap. exact Hre.
Qed.

(** On a trie whose nodes have no capacity to spare (each is valid and has
    capacity equal to its length), recomputeRoot changes the bytes of the
    trie on the branch above the leaf [idx] only, node [idx >> k] of level
    [k]: there it stores the hash of the two nodes below; the bytes of every
    other node, the leaves, the sizes of the layers and every array of the
    heap are as they were, new arrays being added. *)
Theorem recomputeRoot_branch idx (h h' : heap) (b b' : BeaconState) :
  (forall k j s, nodeAt (merkleLayers b) k j = Some s -> valid h s /\ cap s = len s) ->
  recomputeRoot idx h b = Some (h', b') ->
  let c := Z.to_nat idx in
  state b' = state b /\ dirtyFields b' = dirtyFields b /\ valIdxMap b' = valIdxMap b /\
  (exists new, h' = h ++ new) /\
  map length (merkleLayers b') = map length (merkleLayers b) /\
  (forall k j, k = O \/ j <> Nat.shiftr c k ->
     nodeAt (contents h' (merkleLayers b')) k j = nodeAt (contents h (merkleLayers b)) k j) /\
  (forall k, (S k < length (merkleLayers b))%nat ->
     nodeAt (contents h' (merkleLayers b')) (S k) (Nat.shiftr c (S k))
     = parentOf (contents h' (merkleLayers b')) k (Nat.shiftr c (S k))).
Proof.
  intros Hnodes Hcall. cbv zeta.
  destruct (recomputeRoot_rehash idx h h' b b' Hnodes Hcall)
    as (root & Hroot & Hre & Hext & Hs & Hd & Hv).
  destruct (rehash_branch _ _ _ _ Hre Hroot) as (Hlen & Hsame & Hbranch).
  split; [done|]. split; [done|]. split; [done|]. split; [done|].
  split; [by rewrite <- (lengths_contents h'), Hlen, lengths_contents|].
  split; [exact Hsame|].
  intros k Hk. apply Hbranch. unfold contents. by rewrite length_fmap.
Qed.

(** On a trie whose nodes have no capacity to spare, recomputeRoot makes
    the trie a Merkle tree again after the leaf [idx] has changed: if the
    bytes of every node off the branch above the leaf were the hash of the
    two nodes below it, those of every node are so afterwards. *)
Theorem recomputeRoot_restores idx (h h' : heap) (b b' : BeaconState) :
  (forall k j s, nodeAt (merkleLayers b) k j = Some s -> valid h s /\ cap s = len s) ->
  recomputeRoot idx h b = Some (h', b') ->
  (forall k j, j <> Nat.shiftr (Z.to_nat idx) (S k) ->
     merkleAt hashFunc (contents h (merkleLayers b)) k j) ->
  forall k j, merkleAt hashFunc (contents h' (merkleLayers b')) k j.
Proof.
  intros Hnodes Hcall Hoff.
  destruct (recomputeRoot_rehash idx h h' b b' Hnodes Hcall) as (root & Hroot & Hre & _).
  by apply (rehash_merkle _ _ _ _ Hre Hroot).
Qed.

(** recomputeRoot panics unless the index is a leaf of the trie and every
    layer above the leaves reaches the branch of that leaf. *)
Theorem recomputeRoot_defined idx (h : heap) (b : BeaconState) :
  is_Some (recomputeRoot idx h b) <->
  0 <= idx /\
  is_Some (nodeAt (merkleLayers b) O (Z.to_nat idx)) /\
  (forall k, (S k < length (merkleLayers b))%nat ->
     is_Some (nodeAt (merkleLayers b) (S k) (Nat.shiftr (Z.to_nat idx) (S k)))).
Proof.
  unfold recomputeRoot, State.recomputeRoot. cbv zeta.
  destruct (Z.ltb_spec idx 0) as [Hneg|Hpos].
  { split; [by intros [? ?]|]. intros [? _]. lia. }
  unfold nodeAt at 1.
  destruct (merkleLayers b !! O) as [leaves|] eqn:H0.
  2: { split; [by intros [? ?]|]. by intros (_ & [? ?] & _). }
  destruct (leaves !! Z.to_nat idx) as [root|] eqn:Hroot.
  2: { split; [by intros [? ?]|]. by intros (_ & [? ?] & _). }
  assert (0 < length (merkleLayers b))%nat as Hlen by (by eapply lookup_lt_Some).
  pose proof (recomputeLoop_defined (length (merkleLayers b) - 1) O (Z.to_nat idx) root h
                (merkleLayers b) ltac:(lia)) as Hdef.
  unfold recomputeLoop in Hdef.
  destruct (State.recomputeLoop hashFunc _ _ _ _ _ _) as [[h1 out]|] eqn:Hrun.
  - split; [|by eexists]. intros _. split; [lia|]. split; [by eexists|].
    intros k Hk. apply (proj1 Hdef); [by eexists|lia].
  - split; [by intros [? ?]|]. intros (_ & _ & Hall).
    destruct (proj2 Hdef) as [? ?]; [|discriminate].
    intros d Hd. apply Hall. simpl. lia.
Qed.

(** When the slice the first [append] of a call appends to has room, the
    call writes into the array of that slice, behind it: the leaf [idx]
    being even, the bytes of its right neighbour (or thirty-two zeros)
    behind the leaf; the leaf being odd, its own bytes behind its left
    neighbour.  A slice that lies there, a leaf off the branch included,
    reads these bytes afterwards; every other array is as it was.  The
    nodes above the leaves have no capacity to spare. *)
Theorem recomputeRoot_writes_behind idx (h h' : heap) (b b' : BeaconState)
    (leaves : list slice) (a : slice) (bs : list Byte.byte) :
  (forall k j s, nodeAt (merkleLayers b) k j = Some s -> valid h s) ->
  (forall k j s, (1 <= k)%nat -> nodeAt (merkleLayers b) k j = Some s -> cap s = len s) ->
  (1 < length (merkleLayers b))%nat ->
  merkleLayers b !! O = Some leaves ->
  firstAppend h leaves (Z.to_nat idx) = Some (a, bs) ->
  (len a + length bs <= cap a)%nat ->
  recomputeRoot idx h b = Some (h', b') ->
  h' !! arr a = Some (write (off a + len a) bs (arrayOf h a)) /\
  (forall l, (l < length h)%nat -> l <> arr a -> h' !! l = h !! l) /\
  (forall u, arr u = arr a -> off u = (off a + len a)%nat -> len u = length bs ->
     bytesOf h' u = bs).
Proof.
  intros Hvalid Htight Hlen Hleaves Hfirst Hroom Hcall.
  destruct (recomputeRoot_loop idx h h' b b' Hcall) as (root & out & Hroot & Hrun & _).
  unfold nodeAt in Hroot. rewrite Hleaves in Hroot.
  destruct (length (merkleLayers b) - 1)%nat as [|n] eqn:Hn; [lia|].
  unfold recomputeLoop in Hrun. cbn [State.recomputeLoop] in Hrun.
  fold recomputeLoop in Hrun. rewrite Hleaves in Hrun.
  destruct (alloc_spec h zeroNode) as (H1 & Hzv & _ & Hzl & Hzb).
  destruct (alloc h zeroNode) as [h1 z] eqn:Hz. cbn [fst snd] in *.
  assert (valid h a /\
          exists t, len t = length bs /\ bytesOf h1 t = bs /\
            (if Nat.even (Z.to_nat idx)
             then append h1 root (default z (leaves !! Nat.lxor (Z.to_nat idx) 1))
             else append h1 (default z (leaves !! Nat.lxor (Z.to_nat idx) 1)) root)
            = append h1 a t) as (Hva & t & Htl & Htb & Happ).
  { unfold firstAppend in Hfirst. rewrite Hroot in Hfirst.
    assert (valid h root) as Hvr.
    { apply (Hvalid O (Z.to_nat idx)). unfold nodeAt. by rewrite Hleaves. }
    destruct (Nat.even (Z.to_nat idx)).
    - injection Hfirst as <- <-. split; [done|].
      destruct (leaves !! Nat.lxor (Z.to_nat idx) 1) as [s|] eqn:Hs; simpl.
      + assert (valid h s) as Hvs.
        { apply (Hvalid O (Nat.lxor (Z.to_nat idx) 1)). unfold nodeAt.
          by rewrite Hleaves. }
        exists s. split; [by rewrite length_bytesOf|]. split; [|done].
        rewrite H1. by apply bytesOf_ext.
      + exists z. split; [done|]. by split.
    - destruct (leaves !! Nat.lxor (Z.to_nat idx) 1) as [s|] eqn:Hs; [|discriminate].
      injection Hfirst as <- <-. simpl.
      assert (valid h s) as Hvs.
      { apply (Hvalid O (Nat.lxor (Z.to_nat idx) 1)). unfold nodeAt.
        by rewrite Hleaves. }
      split; [done|]. exists root. split; [by rewrite length_bytesOf|]. split; [|done].
      rewrite H1. by apply bytesOf_ext. }
  rewrite Happ in Hrun.
  pose proof (append_in_place h1 a t ltac:(lia)) as H2. rewrite Htb in H2.
  destruct (append h1 a t) as [h2 joined]. cbn [fst] in H2.
  destruct (alloc_spec h2 (hashFunc (bytesOf h2 joined))) as (H3 & Hv3 & Ht3 & _).
  destruct (alloc h2 (hashFunc (bytesOf h2 joined))) as [h3 root']. cbn [fst snd] in *.
  destruct (merkleLayers b !! 1%nat) as [upper|] eqn:Hup; [|discriminate].
  destruct (Nat.ltb_spec (Nat.div2 (Z.to_nat idx)) (length upper)) as [Hp|]; [|discriminate].
  destruct Hva as (A & HA & HcapA & HlenA).
  assert (arrayOf h1 a = A) as HA1.
  { unfold arrayOf. by rewrite H1, (lookup_app_l_Some _ _ _ _ HA). }
  assert (arrayOf h a = A) as HA0 by (unfold arrayOf; by rewrite HA).
  rewrite HA1 in H2.
  assert (forall s, valid h s -> valid h3 s) as Hkeep.
  { intros s Hs. rewrite H3. apply valid_ext. rewrite H2. apply valid_written.
    - intros A' HA'. rewrite H1, (lookup_app_l_Some _ _ _ _ HA) in HA'.
      injection HA' as <-. apply length_write. lia.
    - rewrite H1. by apply valid_ext. }
  destruct (recomputeLoop_rehash n 1 (Nat.div2 (Z.to_nat idx)) root' h3 h'
              (<[1%nat := <[Nat.div2 (Z.to_nat idx) := root']> upper]> (merkleLayers b)) out)
    as ([new ->] & _).
  { intros k j s Hs. apply nodeAt_inserted in Hs as [->|Hs]; [done| |done].
    apply Hkeep. by eapply Hvalid. }
  { intros k j s Hk Hs. apply nodeAt_inserted in Hs as [->|Hs]; [done| |done].
    by apply (Htight k j). }
  { by apply nodeAt_insert_same. }
  { exact Hrun. }
  assert (arr a < length h)%nat as Hla by (by eapply lookup_lt_Some).
  assert (((h3 ++ new) !! arr a) = Some (write (off a + len a) bs A)) as Hnew.
  { rewrite H3, H2, H1. rewrite <- app_assoc.
    rewrite lookup_app_l by (rewrite length_insert, length_app; lia).
    apply list_lookup_insert_eq. rewrite length_app. lia. }
  rewrite HA0. split; [exact Hnew|]. split.
  - intros l Hl Hne. rewrite H3, H2, H1. rewrite <- app_assoc.
    rewrite lookup_app_l by (rewrite length_insert, length_app; lia).
    rewrite list_lookup_insert_ne by done. by apply lookup_app_l.
  - intros u Hu Hoffu Hlenu. unfold bytesOf, arrayOf. rewrite Hu, Hnew. simpl.
    rewrite Hoffu, Hlenu. unfold write.
    rewrite drop_app_length' by (rewrite length_take; lia).
    by rewrite take_app_length.
Qed.

End Hash.

End Messages.

Lemma runAll_dirty_witness :
  let b : State.BeaconState unit unit unit unit unit unit :=
    mkBeaconState (mkPb 0 0 None None [] [] [] None [] 0 [] [7] [] [] [] [] [] None None None)
      ∅ ∅ [] in
  let cs := [CSetSlot 5; CAppendBalance 32; CUpdateBalancesAtIndex 1 31] in
  exists b', runAll cs b = Ok b' /\
    Balances (state b') = [7; 31] /\
    is_Some (dirtyFields b' !! slot) /\ is_Some (dirtyFields b' !! balances) /\
    dirtyFields b' !! validators = None.
Proof.
  cbv zeta. eexists. split; [reflexivity|].
  match goal with
  | |- context [dirtyFields ?b'] =>
      pose proof (runAll_dirty
        [CSetSlot 5; CAppendBalance 32; CUpdateBalancesAtIndex 1 31]
        (mkBeaconState (mkPb (Fork_:=unit) (BeaconBlockHeader:=unit) (Eth1Data_:=unit)
                          (Validator:=unit) (PendingAttestation:=unit) (Checkpoint:=unit)
                          0 0 None None [] [] [] None [] 0 [] [7] [] [] [] [] [] None None None)
           ∅ ∅ []) b' eq_refl) as (_ & _ & Hd)
  end.
  split; [reflexivity|]. split; [|split].
  - apply (Hd (CSetSlot 5)); [|reflexivity]. apply list_elem_of_here.
  - apply (Hd (CAppendBalance 32)); [|reflexivity].
    apply list_elem_of_further, list_elem_of_here.
  - reflexivity.
Defined.

Lemma staleTrie_tight :
  forall k j s, nodeAt (merkleLayers staleTrie) k j = Some s ->
    valid staleHeap s /\ cap s = len s.
Proof.
  intros k j s Hs. unfold nodeAt, staleTrie in Hs. cbn [merkleLayers] in Hs.
  destruct k as [|[|[|k]]]; cbn in Hs; [| | |done].
  all: destruct j as [|[|[|[|j]]]]; cbn in Hs; try discriminate.
  all: injection Hs as <-; split; [|reflexivity].
  all: eexists; split; [reflexivity|]; simpl; lia.
Qed.

Lemma recomputeRoot_branch_witness :
  exists h' b', recomputeRoot id 0 staleHeap staleTrie = Some (h', b') /\
    nodeAt (contents h' (merkleLayers b')) 1 0 = Some (leafE ++ leafB) /\
    nodeAt (contents h' (merkleLayers b')) 1 1
    = nodeAt (contents staleHeap (merkleLayers staleTrie)) 1 1 /\
    nodeAt (contents h' (merkleLayers b')) 2 0
    = parentOf id (contents h' (merkleLayers b')) 1 0.
Proof.
  eexists. eexists.
  assert (recomputeRoot id 0 staleHeap staleTrie = Some (?[h'], ?[b'])) as Hrun
    by (vm_compute; reflexivity).
  match type of Hrun with
  | _ = Some (?h', ?b') =>
      pose proof (recomputeRoot_branch id 0 staleHeap h' staleTrie b' staleTrie_tight Hrun)
        as (_ & _ & _ & _ & _ & Hsame & Hbranch)
  end.
  split; [exact Hrun|]. split; [reflexivity|]. split.
  - apply Hsame. right. simpl. lia.
  - apply (Hbranch 1%nat). simpl. lia.
Defined.

Lemma recomputeRoot_restores_witness :
  exists h' b', recomputeRoot id 0 staleHeap staleTrie = Some (h', b') /\
    contents h' (merkleLayers b') =
      [ [leafE; leafB; leafC; leafD];
        [leafE ++ leafB; leafC ++ leafD];
        [(leafE ++ leafB) ++ (leafC ++ leafD)] ] /\
    merkleAt id (contents h' (merkleLayers b')) 0 0 /\
    merkleAt id (contents h' (merkleLayers b')) 0 1 /\
    merkleAt id (contents h' (merkleLayers b')) 1 0.
Proof.
  eexists. eexists.
  assert (recomputeRoot id 0 staleHeap staleTrie = Some (?[h'], ?[b'])) as Hrun
    by (vm_compute; reflexivity).
  split; [exact Hrun|]. split; [reflexivity|].
  match type of Hrun with
  | _ = Some (?h', ?b') =>
      assert (forall k j, merkleAt id (contents h' (merkleLayers b')) k j) as Hall
  end.
  { apply (recomputeRoot_restores id 0 staleHeap _ staleTrie _ staleTrie_tight Hrun).
    intros k j Hj [x Hx].
    destruct k as [|[|k]]; destruct j as [|[|j]]; simpl in Hj, Hx;
      try discriminate; try congruence; try reflexivity.
    all: destruct j; discriminate. }
  repeat split; apply Hall.
Defined.

Lemma recomputeRoot_writes_behind_witness :
  exists h' b', recomputeRoot id 0 sharedHeap sharedTrie = Some (h', b') /\
    nodeAt (merkleLayers sharedTrie) 0 2 = Some thirdLeaf /\
    nodeAt (merkleLayers b') 0 2 = Some thirdLeaf /\
    bytesOf sharedHeap thirdLeaf = leafC /\
    bytesOf h' thirdLeaf = leafB.
Proof.
  eexists. eexists.
  assert (recomputeRoot id 0 sharedHeap sharedTrie = Some (?[h'], ?[b'])) as Hrun
    by (vm_compute; reflexivity).
  split; [exact Hrun|]. split; [reflexivity|]. split; [reflexivity|].
  split; [reflexivity|].
  match type of Hrun with
  | _ = Some (?h', ?b') =>
      destruct (recomputeRoot_writes_behind id 0 sharedHeap h' sharedTrie b'
                  [{| arr := 0; off := 0; len := 1; cap := 2 |}; whole 1 1; thirdLeaf;
                   whole 2 1]
                  {| arr := 0; off := 0; len := 1; cap := 2 |} leafB)
        as (_ & _ & Hread)
  end.
  - intros k j s Hs. unfold nodeAt, sharedTrie in Hs. cbn [merkleLayers] in Hs.
    destruct k as [|[|[|k]]]; cbn in Hs; [| | |done].
    all: destruct j as [|[|[|[|j]]]]; cbn in Hs; try discriminate.
    all: injection Hs as <-; eexists; split; [reflexivity|]; simpl; lia.
  - intros k j s Hk Hs. unfold nodeAt, sharedTrie in Hs. cbn [merkleLayers] in Hs.
    destruct k as [|[|[|k]]]; cbn in Hs; [lia| | |done].
    all: destruct j as [|[|j]]; cbn in Hs; try discriminate.
    all: by injection Hs as <-.
  - simpl. lia.
  - reflexivity.
  - reflexivity.
  - simpl. lia.
  - exact Hrun.
  - by apply Hread.
Defined.

End StateProps.


(* ===================================================================== *)
(** * Properties of the validator client's duties and attestation log     *)
(* ===================================================================== *)

Module ValidatorProps.
Import Validator.

Lemma dutyLoop_found pubKey : forall ds d,
  dutyLoop pubKey ds = DutyOk d ->
  exists pre post, ds = pre ++ d :: post /\ PublicKey d = pubKey /\
    forall d', d' ∈ pre -> PublicKey d' <> pubKey.
Proof.
  induction ds as [|x rest IH]; intros d; cbn [dutyLoop]; [discriminate|].
  destruct (bool_decide_reflect (pubKey = PublicKey x)) as [Heq|Hne].
  - intros [= <-]. exists [], rest. repeat split; [done|].
    intros d' Hd'. by apply elem_of_nil in Hd'.
  - intros Hrest. destruct (IH d Hrest) as (pre & post & -> & Hd & Hpre).
    exists (x :: pre), post. repeat split; [done|].
    intros d' [->|Hin]%elem_of_cons; [congruence|by apply Hpre].
Qed.

Lemma dutyLoop_missing pubKey : forall ds msg,
  dutyLoop pubKey ds = DutyErr msg ->
  forall d, d ∈ ds -> PublicKey d <> pubKey.
Proof.
  induction ds as [|x rest IH]; intros msg; cbn [dutyLoop].
  - intros _ d Hd. by apply elem_of_nil in Hd.
  - destruct (bool_decide_reflect (pubKey = PublicKey x)) as [Heq|Hne]; [discriminate|].
    intros Hrest d [->|Hin]%elem_of_cons; [congruence|by eapply IH].
Qed.

(** duty returns the first of the duties whose public key is the key asked
    for; it returns an error exactly when the validator has no duties
    object or none of its duties has that key. *)
Theorem duty_first (duties : option (list Duty)) (pubKey : list Byte.byte) :
  match duty duties pubKey with
  | DutyOk d =>
      exists pre post, duties = Some (pre ++ d :: post) /\ PublicKey d = pubKey /\
        forall d', d' ∈ pre -> PublicKey d' <> pubKey
  | DutyErr _ =>
      duties = None \/
      exists ds, duties = Some ds /\ forall d, d ∈ ds -> PublicKey d <> pubKey
  end.
Proof.
  destruct duties as [ds|]; cbn [duty]; [|by left].
  destruct (dutyLoop pubKey ds) as [d|msg] eqn:Hloop.
  - destruct (dutyLoop_found _ _ _ Hloop) as (pre & post & -> & Hd & Hpre).
    by exists pre, post.
  - right. exists ds. split; [done|]. by eapply dutyLoop_missing.
Qed.

Section AttLogs.

Context {Data : Type}.
Variable HashProto : Data -> option Z.

Let saveAttesterIndexToData := @saveAttesterIndexToData Data HashProto.
Let saveAll := @saveAll Data HashProto.

Lemma save_one (attLogs : gmap Z (attSubmitted Data)) d index h :
  HashProto d = Some h ->
  saveAttesterIndexToData attLogs d index
  = Some (<[h := mkAttSubmitted d (attestersOf attLogs h ++ [index]) []]> attLogs).
Proof.
  intros Hh. unfold saveAttesterIndexToData, Validator.saveAttesterIndexToData, attestersOf.
  rewrite Hh. destruct (attLogs !! h) as [entry|] eqn:He.
  - by rewrite He.
  - by rewrite lookup_insert_eq, insert_insert_eq.
Qed.

(** The attesters of some data saved one after the other accumulate in the
    entry of the data's hash, behind those the entry listed, in the order
    of the calls; the entry holds the data of the last call, its second
    list of indices is emptied, and no other entry of the log changes. *)
Theorem saveAll_accumulates (attLogs : gmap Z (attSubmitted Data)) d indices h :
  HashProto d = Some h ->
  indices <> [] ->
  saveAll attLogs d indices
  = Some (<[h := mkAttSubmitted d (attestersOf attLogs h ++ indices) []]> attLogs).
Proof.
  intros Hh. revert attLogs.
  induction indices as [|index rest IH]; intros attLogs Hne; [done|].
  unfold saveAll. cbn [Validator.saveAll]. fold saveAll.
  change (Validator.saveAttesterIndexToData HashProto) with saveAttesterIndexToData.
  rewrite (save_one _ _ _ _ Hh).
  destruct rest as [|index' rest'].
  - reflexivity.
  - rewrite IH by done. unfold attestersOf at 1.
    rewrite lookup_insert_eq, insert_insert_eq. cbn [attesterIndices].
    by rewrite <- app_assoc.
Qed.

End AttLogs.

Lemma saveAll_accumulates_witness :
  let HashProto := fun d : Z => Some (d mod 2) in
  let attLogs : gmap Z (attSubmitted Z) := {[ 1 := mkAttSubmitted 5 [8] [9] ]} in
  saveAll HashProto attLogs 7 [3; 4]
  = Some (<[1 := mkAttSubmitted 7 [8; 3; 4] []]> attLogs).
Proof.
  cbv zeta.
  exact (saveAll_accumulates (fun d : Z => Some (d mod 2))
           {[ 1 := mkAttSubmitted 5 [8] [9] ]} 7 [3; 4] 1 eq_refl ltac:(discriminate)).
Defined.

End ValidatorProps.


(* ===================================================================== *)
(** * Properties of sequences of ProcessAttestation calls                 *)
(* ===================================================================== *)

Module VoteSelectionProps.
Import ProtoArray.

(** The vote of [v] after the calls, followed through the calls that list
    it. *)
Lemma processAll_voteAt v : forall atts f,
  voteAt (votes (processAll f atts)) v
  = foldl (fun w a => updated (attRoot a) (attEpoch a) w) (voteAt (votes f) v)
      (attestationsOf v atts).
Proof.
  induction atts as [|a atts IH]; intros f; [reflexivity|].
  unfold processAll, attestationsOf in *. cbn [foldl]. rewrite IH.
  rewrite ProtoArrayProps.ProcessAttestation_voteAt.
  rewrite filter_cons. by case_decide.
Qed.

(** A recorded vote is kept by calls of no greater target epoch. *)
Lemma recorded_kept : forall (post : list Attestation) (w : Vote),
  newVote w = false ->
  (forall a, a ∈ post -> attEpoch a <= nextEpoch w) ->
  foldl (fun w a => updated (attRoot a) (attEpoch a) w) w post = w.
Proof.
  induction post as [|a post IH]; intros w Hrec Hle; [reflexivity|].
  cbn [foldl].
  assert (updated (attRoot a) (attEpoch a) w = w) as ->.
  { unfold updated. rewrite Hrec.
    pose proof (Hle a (list_elem_of_here _ _)).
    by replace (nextEpoch w <? attEpoch a) with false by lia. }
  apply IH; [done|]. intros a' Ha'. apply Hle. by apply list_elem_of_further.
Qed.

Lemma earlier_lower (a : Attestation) : forall (pre post : list Attestation) (w : Vote),
  newVote w = true \/ nextEpoch w < attEpoch a ->
  attRoot a <> ZeroHash ->
  (forall a', a' ∈ pre -> attEpoch a' < attEpoch a) ->
  (forall a', a' ∈ post -> attEpoch a' <= attEpoch a) ->
  foldl (fun w a => updated (attRoot a) (attEpoch a) w) w (pre ++ a :: post)
  = mkVote (currentRoot w) (attRoot a) (attEpoch a).
Proof.
  induction pre as [|b pre IH]; intros post w Hw Hnz Hpre Hpost.
  - cbn [app foldl].
    assert (updated (attRoot a) (attEpoch a) w = mkVote (currentRoot w) (attRoot a) (attEpoch a))
      as ->.
    { unfold updated. destruct Hw as [->|Hlt]; [done|].
      replace (nextEpoch w <? attEpoch a) with true by lia. by rewrite orb_true_r. }
    apply recorded_kept; [|exact Hpost].
    unfold newVote, ZeroHash in *. cbn [nextRoot currentRoot].
    apply andb_false_iff. left. lia.
  - cbn [app foldl].
    pose proof (Hpre b (list_elem_of_here _ _)) as Hb.
    assert (currentRoot (updated (attRoot b) (attEpoch b) w) = currentRoot w /\
            (newVote (updated (attRoot b) (attEpoch b) w) = true \/
             nextEpoch (updated (attRoot b) (attEpoch b) w) < attEpoch a)) as [Hc Hw'].
    { unfold updated. destruct (newVote w || (nextEpoch w <? attEpoch b)) eqn:E.
      - split; [reflexivity|]. right. simpl. lia.
      - split; [reflexivity|]. destruct Hw as [Hw|Hw]; [|by right].
        rewrite Hw in E. discriminate. }
    rewrite (IH post _ Hw' Hnz); [by rewrite Hc| |exact Hpost].
    intros a' Ha'. apply Hpre. by apply list_elem_of_further.
Qed.

(** Of the ProcessAttestation calls that list a validator, the one that
    counts is the first of those with the highest target epoch: when the
    validator's vote was untouched (both roots zero) or of a smaller epoch
    before the calls, and that call's block root is not the zero hash, the
    vote afterwards holds its root and epoch as nextRoot and nextEpoch, with
    the currentRoot it had. *)
Theorem highest_target_first_wins (f : ForkChoice) (atts : list Attestation) (v : nat)
    (pre post : list Attestation) (a : Attestation) :
  attestationsOf v atts = pre ++ a :: post ->
  (forall a', a' ∈ pre -> attEpoch a' < attEpoch a) ->
  (forall a', a' ∈ post -> attEpoch a' <= attEpoch a) ->
  attRoot a <> ZeroHash ->
  newVote (voteAt (votes f) v) = true \/ nextEpoch (voteAt (votes f) v) < attEpoch a ->
  voteAt (votes (processAll f atts)) v
  = mkVote (currentRoot (voteAt (votes f) v)) (attRoot a) (attEpoch a).
Proof.
  intros Hof Hpre Hpost Hnz Hw.
  rewrite processAll_voteAt, Hof. by apply earlier_lower.
Qed.

Lemma highest_target_first_wins_witness :
  let atts := [ mkAttestation [0; 1]%nat 11 3;
                mkAttestation [1; 2]%nat 12 5;
                mkAttestation [1]%nat 13 5;
                mkAttestation [0]%nat 14 9;
                mkAttestation [1]%nat 15 4 ] in
  voteAt (votes (processAll (New 0 0 1) atts)) 1 = mkVote ZeroHash 12 5.
Proof.
  cbv zeta.
  refine (highest_target_first_wins (New 0 0 1)
            [ mkAttestation [0; 1]%nat 11 3; mkAttestation [1; 2]%nat 12 5;
              mkAttestation [1]%nat 13 5; mkAttestation [0]%nat 14 9;
              mkAttestation [1]%nat 15 4 ] 1%nat
            [mkAttestation [0; 1]%nat 11 3] [mkAttestation [1]%nat 13 5; mkAttestation [1]%nat 15 4]
            (mkAttestation [1; 2]%nat 12 5) _ _ _ _ _).
  - vm_compute. reflexivity.
  - intros a' ->%list_elem_of_singleton. simpl. lia.
  - intros a' [->|[->|[]%elem_of_nil]%elem_of_cons]%elem_of_cons; simpl; lia.
  - discriminate.
  - left. reflexivity.
Defined.

End VoteSelectionProps.


(* ===================================================================== *)
(** * Properties of the balance gauges of reportEpochMetrics              *)
(* ===================================================================== *)

Module MetricsBalanceProps.
Import Metrics.

Ltac unfold_gauges :=
  unfold Gauge_Set, GaugeVec_Set, gaugeValue,
    beaconFinalizedEpoch, beaconFinalizedRoot, beaconCurrentJustifiedEpoch,
    beaconCurrentJustifiedRoot, beaconPrevJustifiedEpoch, beaconPrevJustifiedRoot,
    validatorsCount, validatorsBalance, validatorsEffectiveBalance,
    currentEth1DataDepositCount, totalEligibleBalances, totalVotedTargetBalances in *.

Ltac skip_other_gauges :=
  repeat (rewrite lookup_insert_ne by discriminate).

Section Report.

Variable CurrentEpoch : BeaconState -> Z.
Variable BalanceAtIndex : BeaconState -> Z -> option Z.
Variable ToLowInt64 : list Byte.byte -> Z.
Variable FarFutureEpoch : Z.

Let visit := visit FarFutureEpoch.
Let visitAll := visitAll BalanceAtIndex FarFutureEpoch.
Let reportEpochMetrics :=
  reportEpochMetrics CurrentEpoch BalanceAtIndex ToLowInt64 FarFutureEpoch.
Let categoryOf := categoryOf FarFutureEpoch.
Let members := members FarFutureEpoch.

(** One validator: the counter of its category, and the sums of it. *)
Lemma visit_category e v bal c :
  (forall cat,
     count cat (fst (visit e v bal c))
     = count cat (fst c) + (if decide (categoryOf e v = cat) then 1 else 0)) /\
  (forall effective cat x,
     sumOf effective cat (snd c) = Some x ->
     sumOf effective cat (snd (visit e v bal c))
     = Some (if decide (categoryOf e v = cat)
             then add64 x (amount effective (v, bal)) else x)).
Proof.
  destruct c as [n b].
  unfold visit, Metrics.visit, categoryOf, Metrics.categoryOf.
  destruct (Slashed v); [|destruct (negb _); [|destruct (_ <? ActivationEpoch _)]];
    try destruct (_ <? ExitEpoch _).
  all: split; [intros []; simpl; lia|].
  all: intros [] [] x; simpl; intros [= <-]; reflexivity.
Qed.

(** The loop, when the balances [bals] are those the lookups return. *)
Lemma visitAll_zip state e : forall vs bals i c,
  length bals = length vs ->
  (forall j b, bals !! j = Some b -> BalanceAtIndex state (Z.of_nat (i + j)) = Some b) ->
  visitAll state e i vs c
  = Some (foldl (fun c vb => visit e (fst vb) (snd vb) c) c (zip vs bals)).
Proof.
  induction vs as [|v vs IH]; intros bals i c Hlen Hb.
  - reflexivity.
  - destruct bals as [|b bals]; [discriminate|].
    unfold visitAll. cbn [Metrics.visitAll zip zip_with foldl].
    rewrite <- (Nat.add_0_r i) at 1. rewrite (Hb O b eq_refl).
    apply IH; [simpl in Hlen; lia|].
    intros j b' Hj. replace (S i + j)%nat with (i + S j)%nat by lia. by apply Hb.
Qed.

Lemma fold_visit e : forall (vbs : list (ethpb_Validator * Z)) c,
  let c' := foldl (fun c vb => visit e (fst vb) (snd vb) c) c vbs in
  (forall cat, count cat (fst c')
               = count cat (fst c) + Z.of_nat (length (members e cat vbs))) /\
  (forall effective cat x,
     sumOf effective cat (snd c) = Some x -> 0 <= x < 2^64 ->
     sumOf effective cat (snd c')
     = Some ((x + sumZ (amount effective <$> members e cat vbs)) mod 2^64)).
Proof.
  induction vbs as [|[v bal] vbs IH]; intros c; cbv zeta.
  - cbn [foldl]. split; [intros cat; simpl; lia|].
    intros effective cat x Hx Hr. rewrite Hx. simpl. f_equal.
    rewrite Z.add_0_r, Z.mod_small; lia.
  - cbn [foldl fst snd].
    destruct (visit_category e v bal c) as [Hcount Hsum].
    destruct (IH (visit e v bal c)) as [IHc IHs].
    unfold members, Metrics.members in *. split.
    + intros cat. rewrite IHc, Hcount, filter_cons. cbn [fst].
      fold categoryOf. case_decide; simpl; lia.
    + intros effective cat x Hx Hr.
      specialize (Hsum effective cat x Hx).
      rewrite filter_cons. cbn [fst]. fold categoryOf.
      destruct (decide (categoryOf e v = cat)) as [Hcat|Hcat].
      * rewrite (IHs effective cat _ Hsum) by (unfold add64; apply Z.mod_pos_bound; lia).
        f_equal. rewrite fmap_cons. unfold add64, sumZ. cbn [foldr].
        rewrite Zplus_mod_idemp_l. f_equal. unfold categoryOf. lia.
      * by rewrite (IHs effective cat _ Hsum Hr).
Qed.

(** The gauges with a label are those of the validators. *)
Lemma Gauge_Set_labelled (g : string) (v : Q) (m : Gauges) (g' l : string) :
  l <> ""%string -> Gauge_Set g v m !! (g', l) = m !! (g', l).
Proof. intros Hl. unfold Gauge_Set. apply lookup_insert_ne. congruence. Qed.

Lemma report_labelled (state : BeaconState) (precomputeBalances : option precompute_Balance)
    (m : Gauges) (c : Instances * Sums) (g l : string) :
  visitAll state (CurrentEpoch state) 0 (Validators state) (noInstances, noSums) = Some c ->
  l <> ""%string ->
  reportEpochMetrics state precomputeBalances m !! (g, l) = setValidatorGauges c m !! (g, l).
Proof.
  intros Hrun Hl. unfold reportEpochMetrics, Metrics.reportEpochMetrics.
  fold visitAll. rewrite Hrun. unfold Metrics.setCheckpointGauges.
  destruct precomputeBalances, (Eth1Data state), (FinalizedCheckpoint state),
    (PreviousJustifiedCheckpoint state), (CurrentJustifiedCheckpoint state);
    by rewrite ?Gauge_Set_labelled by done.
Qed.

Lemma label_not_empty cat : label cat <> ""%string.
Proof. by destruct cat. Qed.

Lemma count_gauge_set (n : Instances) (b : Sums) (m : Gauges) (cat : Category) :
  setValidatorGauges (n, b) m !! (validatorsCount, label cat)
  = Some (float64 (count cat n)).
Proof.
  unfold setValidatorGauges.
  destruct cat; unfold_gauges; simpl label; simpl count;
    skip_other_gauges; by rewrite lookup_insert_eq.
Qed.

Lemma sum_gauge_set (n : Instances) (b : Sums) (m : Gauges) (effective : bool)
    (cat : Category) :
  setValidatorGauges (n, b) m !! (sumGauge effective, label cat)
  = match sumOf effective cat b with
    | Some y => Some (float64 y)
    | None => m !! (sumGauge effective, label cat)
    end.
Proof.
  unfold setValidatorGauges, sumGauge.
  destruct effective, cat; unfold_gauges; simpl label; simpl sumOf;
    skip_other_gauges; try done; by rewrite lookup_insert_eq.
Qed.

(** When every balance lookup succeeds, with the balances [bals]: each
    validator_count gauge shows the number of validators of its category,
    and each balance and effective-balance gauge the function sets shows
    the sum of the balances of the validators of its category, reduced
    modulo 2^64 and converted to float64.  The function sets no balance
    gauge for Exited and Slashed and no effective-balance gauge for
    Pending, Exited and Slashed: these keep the value they had. *)
Theorem balance_gauges (state : BeaconState)
    (precomputeBalances : option precompute_Balance) (m : Gauges) (bals : list Z) :
  length bals = length (Validators state) ->
  (forall j b, bals !! j = Some b -> BalanceAtIndex state (Z.of_nat j) = Some b) ->
  let m' := reportEpochMetrics state precomputeBalances m in
  let vbs := zip (Validators state) bals in
  let e := CurrentEpoch state in
  forall cat,
    m' !! (validatorsCount, label cat)
    = Some (float64 (Z.of_nat (length (members e cat vbs)))) /\
    forall effective,
      m' !! (sumGauge effective, label cat)
      = match sumOf effective cat noSums with
        | Some _ =>
            Some (float64 (sumZ (amount effective <$> members e cat vbs) mod 2^64))
        | None => m !! (sumGauge effective, label cat)
        end.
Proof.
  intros Hlen Hb. cbv zeta. intros cat.
  pose proof (visitAll_zip state (CurrentEpoch state) (Validators state) bals O
                (noInstances, noSums) Hlen Hb) as Hrun.
  destruct (fold_visit (CurrentEpoch state) (zip (Validators state) bals)
              (noInstances, noSums)) as [Hcount Hsum].
  cbv zeta in Hcount, Hsum.
  destruct (foldl _ _ _) as [n b].
  cbn [fst snd] in *.
  rewrite !(report_labelled _ _ _ _ _ _ Hrun) by apply label_not_empty.
  split.
  - rewrite count_gauge_set, Hcount. by destruct cat.
  - intros effective.
    rewrite (report_labelled _ _ _ _ _ _ Hrun) by apply label_not_empty.
    rewrite sum_gauge_set.
    destruct (sumOf effective cat noSums) as [x|] eqn:Hx.
    + assert (x = 0) as -> by (destruct effective, cat; simpl in Hx; congruence).
      rewrite (Hsum effective cat 0 Hx ltac:(lia)). by rewrite Z.add_0_l.
    + assert (sumOf effective cat b = None) as ->; [|done].
      destruct effective, cat; simpl in Hx; try discriminate; reflexivity.
Qed.

End Report.

Lemma balance_gauges_witness :
  let m' := report stateOfThree None ∅ in
  m' !! (validatorsCount, "Active"%string) = Some (float64 2) /\
  m' !! (validatorsBalance, "Active"%string) = Some (float64 5) /\
  m' !! (validatorsEffectiveBalance, "Active"%string) = Some (float64 64) /\
  m' !! (validatorsCount, "Slashed"%string) = Some (float64 1) /\
  m' !! (validatorsBalance, "Slashed"%string) = None.
Proof.
  cbv zeta.
  assert (forall j b, [2^63; 2^63 + 5; 7] !! j = Some b ->
            BalanceAtIndex stateOfThree (Z.of_nat j) = Some b) as Hb.
  { intros [|[|[|j]]] b; simpl; intros [= <-]; reflexivity. }
  pose proof (balance_gauges CurrentEpoch BalanceAtIndex ToLowInt64 FarFutureEpoch
                stateOfThree None ∅ [2^63; 2^63 + 5; 7] eq_refl Hb) as H.
  cbv zeta in H.
  destruct (H cActive) as [Hc Hs]. destruct (H cSlashed) as [Hc' Hs'].
  split; [exact Hc|]. split; [exact (Hs false)|]. split; [exact (Hs true)|].
  split; [exact Hc'|]. exact (Hs' false).
Defined.

End MetricsBalanceProps.


(* ===================================================================== *)
(** * Properties of ListValidatorBalances                                 *)
(* ===================================================================== *)

Module RpcProps.
Import Rpc.

Section Server.

Variable Balances : option (list Z).
Variable Validators : option (list (option Validator)).
Variable ValidatorIndex : list Byte.byte -> option Z.

Let keysLoop := keysLoop ValidatorIndex.
Let ListValidatorBalances := ListValidatorBalances Balances Validators ValidatorIndex.

Lemma keysLoop_ok balances : forall pubKeys filtered res filtered' res',
  keysLoop balances pubKeys filtered res = Ok (filtered', res') ->
  exists idxs new,
    Forall2 (fun pk i => ValidatorIndex pk = Some i) pubKeys idxs /\
    filtered' = list_to_set idxs ∪ filtered /\
    res' = res ++ new /\
    PublicKey <$> new = pubKeys /\ Index <$> new = idxs /\
    Forall (reportsBalance balances) new.
Proof.
  induction pubKeys as [|pk rest IH]; intros F R F' R'; cbn [keysLoop Rpc.keysLoop].
  - intros [= <- <-]. exists [], []. rewrite app_nil_r. repeat split; try done.
    by rewrite list_to_set_nil, (left_id_L ∅ (∪)).
  - unfold keysLoop. cbn [Rpc.keysLoop].
    destruct (ValidatorIndex pk) as [index|] eqn:Hidx; [|discriminate].
    destruct (_ <=? int index); [discriminate|].
    destruct (at_ balances index) as [balance|] eqn:Hb; [|discriminate].
    intros Hrest. apply IH in Hrest as (idxs & new & Hall & -> & -> & Hk & Hi & Hbal).
    exists (index :: idxs), (mkBalance pk index balance :: new).
    split; [by constructor|].
    split.
    { rewrite list_to_set_cons, (assoc_L (∪) (list_to_set idxs)). f_equal.
      apply (comm_L (∪)). }
    split; [by rewrite <- app_assoc|].
    split; [by rewrite fmap_cons, Hk|]. split; [by rewrite fmap_cons, Hi|].
    by constructor.
Qed.

Lemma indicesLoop_ok balances validators : forall indices filtered res res',
  indicesLoop balances validators indices filtered res = Ok res' ->
  exists new,
    res' = res ++ new /\
    Index <$> new = filter (fun i => i ∉ filtered) indices /\
    Forall (reportsBalance balances) new /\
    Forall (reportsKey validators) new.
Proof.
  induction indices as [|index rest IH]; intros F R R'; cbn [indicesLoop].
  - intros [= <-]. exists []. by rewrite app_nil_r.
  - destruct (_ <=? int index); [discriminate|].
    rewrite filter_cons.
    destruct (bool_decide_reflect (index ∈ F)) as [Hin|Hout].
    + intros Hrest. apply IH in Hrest as (new & -> & Hi & Hb & Hk).
      exists new. rewrite decide_False by (intros Hn; by apply Hn). done.
    + destruct (at_ validators index) as [[v|]|] eqn:Hv; try discriminate.
      destruct (at_ balances index) as [balance|] eqn:Hb; [|discriminate].
      intros Hrest. apply IH in Hrest as (new & -> & Hi & Hbal & Hk).
      exists (mkBalance (Validator_PublicKey v) index balance :: new).
      rewrite decide_True by done.
      split; [by rewrite <- app_assoc|]. split; [by rewrite fmap_cons, Hi|].
      split; constructor; try done. by exists v.
Qed.

(** A response, when there is one: the entries of the requested public
    keys in the order of the request, each with the requested key and its
    index, followed by the entries of those requested indices that are not
    the index of a requested key, in the order of the request (an index or
    a key requested twice is answered twice); every entry reports the
    balance at its index, and an entry of a requested index the key of the
    registry at that index. *)
Theorem ListValidatorBalances_response (req : GetValidatorBalancesRequest)
    (res : list ValidatorBalances_Balance) :
  ListValidatorBalances req = Ok res ->
  exists balances validators idxs,
    Balances = Some balances /\ Validators = Some validators /\
    Forall2 (fun pk i => ValidatorIndex pk = Some i) (PublicKeys req) idxs /\
    Index <$> res = idxs ++ filter (fun i => i ∉ idxs) (Indices req) /\
    PublicKey <$> take (length (PublicKeys req)) res = PublicKeys req /\
    Forall (reportsBalance balances) res /\
    Forall (reportsKey validators) (drop (length (PublicKeys req)) res).
Proof.
  unfold ListValidatorBalances, Rpc.ListValidatorBalances.
  destruct Balances as [balances|]; [|discriminate].
  destruct Validators as [validators|]; [|discriminate].
  fold keysLoop.
  destruct (keysLoop balances (PublicKeys req) ∅ []) as [[F R]| |] eqn:Hkeys; try discriminate.
  apply keysLoop_ok in Hkeys as (idxs & new & Hall & -> & -> & Hk & Hi & Hb).
  intros Hrest. apply indicesLoop_ok in Hrest as (new' & -> & Hi' & Hb' & Hk').
  exists balances, validators, idxs. cbn [app].
  assert (length new = length (PublicKeys req)) as Hlen
    by (by rewrite <- Hk, length_fmap).
  split; [done|]. split; [done|]. split; [done|]. split; [|split; [|split]].
  - rewrite fmap_app, Hi, Hi'. f_equal. apply list_filter_iff. intros i.
    by rewrite (right_id_L ∅ (∪)), elem_of_list_to_set.
  - rewrite take_app_length' by done. done.
  - by apply Forall_app.
  - by rewrite drop_app_length' by done.
Qed.

(** ** When there is a response *)

Lemma int_below (i n : Z) : i < n -> (n <=? int i) = false.
Proof. intros Hi. unfold int. destruct (i <? 2^63); lia. Qed.

Lemma at_in_range {A} (s : list A) (i : Z) :
  0 <= i < Z.of_nat (length s) -> exists x, at_ s i = Some x /\ s !! Z.to_nat i = Some x.
Proof.
  intros Hi. unfold at_. replace (i <? Z.of_nat (length s)) with true by lia.
  destruct (lookup_lt_is_Some_2 s (Z.to_nat i) ltac:(lia)) as [x Hx]. by exists x.
Qed.

Lemma at_below {A} (s : list A) (i : Z) x : at_ s i = Some x -> i < Z.of_nat (length s).
Proof. unfold at_. destruct (Z.ltb_spec i (Z.of_nat (length s))); [done|discriminate]. Qed.

Lemma keysLoop_succeeds balances : forall pubKeys filtered res,
  (forall pk, pk ∈ pubKeys ->
     exists i, ValidatorIndex pk = Some i /\ 0 <= i < Z.of_nat (length balances)) ->
  exists filtered' res', keysLoop balances pubKeys filtered res = Ok (filtered', res').
Proof.
  induction pubKeys as [|pk rest IH]; intros F R Hall.
  - by exists F, R.
  - unfold keysLoop. cbn [Rpc.keysLoop]. fold keysLoop.
    destruct (Hall pk (list_elem_of_here _ _)) as (i & -> & Hi).
    rewrite int_below by lia.
    destruct (at_in_range balances i Hi) as (b & -> & _).
    apply IH. intros pk' Hin. apply Hall. by apply list_elem_of_further.
Qed.

(** The indices [pre] are passed when each is in range and, unless
    filtered, has its validator in the registry. *)
Lemma indicesLoop_prefix balances validators filtered : forall pre res,
  (forall j, j ∈ pre ->
     0 <= j < Z.of_nat (length balances) /\
     (j ∉ filtered -> exists v, validators !! Z.to_nat j = Some (Some v))) ->
  exists res', forall rest,
    indicesLoop balances validators (pre ++ rest) filtered res
    = indicesLoop balances validators rest filtered res'.
Proof.
  induction pre as [|j pre IH]; intros R Hall.
  - by exists R.
  - destruct (Hall j (list_elem_of_here _ _)) as [Hj Hv].
    assert (forall j', j' ∈ pre ->
              0 <= j' < Z.of_nat (length balances) /\
              (j' ∉ filtered -> exists v, validators !! Z.to_nat j' = Some (Some v))) as Hall'
      by (intros j' Hin; apply Hall; by apply list_elem_of_further).
    cbn [app indicesLoop]. rewrite int_below by lia.
    destruct (bool_decide_reflect (j ∈ filtered)) as [Hin|Hout].
    + apply IH, Hall'.
    + destruct (Hv Hout) as [v Hlook].
      assert (at_ validators j = Some (Some v)) as ->.
      { unfold at_. apply lookup_lt_Some in Hlook as Hlt.
        by replace (j <? Z.of_nat (length validators)) with true by lia. }
      destruct (at_in_range balances j Hj) as (b & -> & _).
      apply IH, Hall'.
Qed.

Lemma indicesLoop_passed balances validators : forall indices filtered res res',
  indicesLoop balances validators indices filtered res = Ok res' ->
  forall i, i ∈ indices ->
    i ∈ filtered \/
    (i < Z.of_nat (length balances) /\ exists v, validators !! Z.to_nat i = Some (Some v)).
Proof.
  induction indices as [|index rest IH]; intros F R R' Hrun i Hin;
    [by apply elem_of_nil in Hin|].
  cbn [indicesLoop] in Hrun.
  destruct (_ <=? int index); [discriminate|].
  destruct (bool_decide_reflect (index ∈ F)) as [HF|HF].
  - apply elem_of_cons in Hin as [->|Hin]; [by left|by eapply IH].
  - destruct (at_ validators index) as [[v|]|] eqn:Hv; try discriminate.
    destruct (at_ balances index) as [balance|] eqn:Hb; [|discriminate].
    apply elem_of_cons in Hin as [->|Hin]; [|by eapply IH].
    right. split; [by eapply at_below|]. exists v.
    unfold at_ in Hv. by destruct (index <? _).
Qed.

Lemma keys_indices (pubKeys : list (list Byte.byte)) (idxs : list Z) :
  Forall2 (fun pk i => ValidatorIndex pk = Some i) pubKeys idxs ->
  forall i, i ∈ idxs <-> exists pk, pk ∈ pubKeys /\ ValidatorIndex pk = Some i.
Proof.
  intros Hall i. split.
  - intros [n Hn]%list_elem_of_lookup.
    destruct (Forall2_lookup_r _ _ _ _ _ Hall Hn) as (pk & Hpk & Hvi).
    exists pk. split; [by eapply list_elem_of_lookup_2|done].
  - intros (pk & [n Hn]%list_elem_of_lookup & Hvi).
    destruct (Forall2_lookup_l _ _ _ _ _ Hall Hn) as (i' & Hi' & Hvi').
    assert (i' = i) as <- by congruence. by eapply list_elem_of_lookup_2.
Qed.

(** ListValidatorBalances answers exactly when the three reads of the
    database succeed, every requested key has an index below the length of
    the balances, every requested index is below that length, and the
    registry holds a validator at every requested index that is not the
    index of a requested key. *)
Theorem ListValidatorBalances_succeeds (req : GetValidatorBalancesRequest) :
  (forall pk i, ValidatorIndex pk = Some i -> 0 <= i) ->
  (forall i, i ∈ Indices req -> 0 <= i) ->
  (exists res, ListValidatorBalances req = Ok res) <->
  exists balances validators,
    Balances = Some balances /\ Validators = Some validators /\
    (forall pk, pk ∈ PublicKeys req ->
       exists i, ValidatorIndex pk = Some i /\ i < Z.of_nat (length balances)) /\
    (forall i, i ∈ Indices req ->
       i < Z.of_nat (length balances) /\
       ((forall pk, pk ∈ PublicKeys req -> ValidatorIndex pk <> Some i) ->
        exists v, validators !! Z.to_nat i = Some (Some v))).
Proof.
  intros Hkeys Hidx. split.
  - intros [res Hres].
    unfold ListValidatorBalances, Rpc.ListValidatorBalances in Hres.
    destruct Balances as [balances|]; [|discriminate].
    destruct Validators as [validators|]; [|discriminate].
    fold keysLoop in Hres.
    destruct (keysLoop balances (PublicKeys req) ∅ []) as [[F R]| |] eqn:Hk; try discriminate.
    apply keysLoop_ok in Hk as (idxs & new & Hall & -> & -> & Hpk & Hi & Hb).
    exists balances, validators. split; [done|]. split; [done|].
    assert (forall i, i ∈ idxs -> i < Z.of_nat (length balances)) as Hlt.
    { intros i [n Hn]%list_elem_of_lookup.
      rewrite <- Hi, list_lookup_fmap in Hn.
      destruct (new !! n) as [e|] eqn:He; [|discriminate]. injection Hn as <-.
      rewrite Forall_forall in Hb. specialize (Hb e (list_elem_of_lookup_2 _ _ _ He)).
      by eapply at_below. }
    pose proof (keys_indices _ _ Hall) as Hki.
    split.
    + intros pk [n Hn]%list_elem_of_lookup.
      destruct (Forall2_lookup_l _ _ _ _ _ Hall Hn) as (i & Hi' & Hvi).
      exists i. split; [done|]. apply Hlt. by eapply list_elem_of_lookup_2.
    + intros i Hin.
      destruct (indicesLoop_passed _ _ _ _ _ _ Hres i Hin) as [HF|[Hr Hv]].
      * rewrite (right_id_L ∅ (∪)), elem_of_list_to_set in HF.
        split; [by apply Hlt|]. intros Hno.
        apply Hki in HF as (pk & Hin' & Hvi). by destruct (Hno pk Hin').
      * split; [done|]. by intros _.
  - intros (balances & validators & HB & HV & Hk & Hi).
    unfold ListValidatorBalances, Rpc.ListValidatorBalances. rewrite HB, HV.
    fold keysLoop.
    destruct (keysLoop_succeeds balances (PublicKeys req) ∅ []) as (F & R & Hrun).
    { intros pk Hin. destruct (Hk pk Hin) as (i & Hvi & Hlt).
      exists i. split; [done|]. split; [by eapply Hkeys|done]. }
    rewrite Hrun.
    apply keysLoop_ok in Hrun as (idxs & new & Hall & -> & _).
    pose proof (keys_indices _ _ Hall) as Hki.
    destruct (indicesLoop_prefix balances validators (list_to_set idxs ∪ ∅) (Indices req) R)
      as [res Hres].
    { intros j Hin. destruct (Hi j Hin) as [Hlt Hv].
      split; [split; [by apply Hidx|done]|].
      intros Hout. apply Hv. intros pk Hpk Hvi. apply Hout.
      rewrite (right_id_L ∅ (∪)), elem_of_list_to_set. apply Hki. by exists pk. }
    exists res. specialize (Hres []). by rewrite app_nil_r in Hres.
Qed.


(** A requested index at or beyond the length of the balances, the keys
    and the indices requested before it being answered: up to 2^63 - 1 the
    call returns the OutOfRange error; from 2^63 on the test
    [int(index) >= len(balances)] does not see it, [int(index)] being
    negative, and the call panics. *)
Theorem ListValidatorBalances_index_out_of_range (req : GetValidatorBalancesRequest)
    (balances : list Z) (validators : list (option Validator))
    (pre post : list Z) (i : Z) :
  Balances = Some balances -> Validators = Some validators ->
  (forall pk, pk ∈ PublicKeys req ->
     exists k, ValidatorIndex pk = Some k /\ 0 <= k < Z.of_nat (length balances)) ->
  Indices req = pre ++ i :: post ->
  (forall j, j ∈ pre ->
     0 <= j < Z.of_nat (length balances) /\
     exists v, validators !! Z.to_nat j = Some (Some v)) ->
  Z.of_nat (length balances) <= i < 2^64 ->
  ListValidatorBalances req
  = if i <? 2^63 then Err OutOfRange "validator index >= balance list" else Panic.
Proof.
  intros HB HV Hk Hreq Hpre Hi.
  unfold ListValidatorBalances, Rpc.ListValidatorBalances. rewrite HB, HV, Hreq.
  fold keysLoop.
  destruct (keysLoop_succeeds balances (PublicKeys req) ∅ [] Hk) as (F & R & Hrun).
  rewrite Hrun.
  apply keysLoop_ok in Hrun as (idxs & new & Hall & -> & _).
  pose proof (keys_indices _ _ Hall) as Hki.
  destruct (indicesLoop_prefix balances validators (list_to_set idxs ∪ ∅) pre R)
    as [res ->].
  { intros j Hin. destruct (Hpre j Hin) as [Hj Hv]. split; [done|]. by intros _. }
  cbn [indicesLoop]. unfold int.
  destruct (Z.ltb_spec i (2^63)) as [Hsmall|Hbig].
  - by replace (Z.of_nat (length balances) <=? i) with true by lia.
  - replace (Z.of_nat (length balances) <=? i - 2^64) with false by lia.
    rewrite bool_decide_eq_false_2.
    + destruct (at_ validators i) as [[v|]|]; try done.
      unfold at_. by replace (i <? Z.of_nat (length balances)) with false by lia.
    + rewrite (right_id_L ∅ (∪)), elem_of_list_to_set. intros Hin.
      apply Hki in Hin as (pk & Hpk & Hvi).
      destruct (Hk pk Hpk) as (k & Hvk & Hlt). assert (k = i) by congruence. lia.
Qed.

End Server.

Lemma ListValidatorBalances_response_witness :
  exists res,
    ListValidatorBalances someBalances (Some someRegistry) someIndex
      (mkRequest [keyB] [0; 1; 0]) = Ok res /\
    Index <$> res = [1; 0; 0] /\
    PublicKey <$> res = [keyB; keyA; keyA] /\
    Forall (reportsBalance [10; 20; 30]) res.
Proof.
  eexists. split; [vm_compute; reflexivity|].
  split; [reflexivity|]. split; [reflexivity|].
  match goal with
  | |- Forall _ ?res =>
      destruct (ListValidatorBalances_response someBalances (Some someRegistry) someIndex
                  (mkRequest [keyB] [0; 1; 0]) res ltac:(vm_compute; reflexivity))
        as (balances & validators & idxs & HB & _ & _ & _ & _ & Hb & _)
  end.
  injection HB as <-. exact Hb.
Defined.

Lemma ListValidatorBalances_succeeds_witness :
  exists res,
    ListValidatorBalances someBalances (Some someRegistry) someIndex
      (mkRequest [keyC; keyC] [2; 0]) = Ok res.
Proof.
  apply (ListValidatorBalances_succeeds someBalances (Some someRegistry) someIndex
           (mkRequest [keyC; keyC] [2; 0])).
  - intros pk i. unfold someIndex. repeat case_bool_decide; intros [= <-]; lia.
  - intros i [->|[->|[]%elem_of_nil]%elem_of_cons]%elem_of_cons; lia.
  - exists [10; 20; 30], someRegistry. split; [done|]. split; [done|]. split.
    + intros pk [->|[->|[]%elem_of_nil]%elem_of_cons]%elem_of_cons;
        exists 2; (split; [reflexivity|simpl; lia]).
    + intros i [->|[->|[]%elem_of_nil]%elem_of_cons]%elem_of_cons.
      * split; [simpl; lia|]. intros _. by eexists.
      * split; [simpl; lia|]. intros _. by eexists.
Defined.

Lemma ListValidatorBalances_index_out_of_range_witness :
  ListValidatorBalances someBalances (Some someRegistry) someIndex
    (mkRequest [] [0; 2^63; 1]) = Panic /\
  ListValidatorBalances someBalances (Some someRegistry) someIndex
    (mkRequest [] [0; 3; 1]) = Err OutOfRange "validator index >= balance list".
Proof.
  assert (forall pk, pk ∈ @nil (list Byte.byte) ->
            exists k, someIndex pk = Some k /\ 0 <= k < Z.of_nat (length [10; 20; 30]))
    as Hk by (intros pk []%elem_of_nil).
  assert (forall j, j ∈ [0] ->
            0 <= j < Z.of_nat (length [10; 20; 30]) /\
            exists v, someRegistry !! Z.to_nat j = Some (Some v)) as Hpre.
  { intros j ->%list_elem_of_singleton. split; [simpl; lia|]. by eexists. }
  split.
  - exact (ListValidatorBalances_index_out_of_range someBalances (Some someRegistry)
             someIndex (mkRequest [] [0; 2^63; 1]) [10; 20; 30] someRegistry [0] [1] (2^63)
             eq_refl eq_refl Hk eq_refl Hpre ltac:(simpl; lia)).
  - exact (ListValidatorBalances_index_out_of_range someBalances (Some someRegistry)
             someIndex (mkRequest [] [0; 3; 1]) [10; 20; 30] someRegistry [0] [1] 3
             eq_refl eq_refl Hk eq_refl Hpre ltac:(simpl; lia)).
Defined.

End RpcProps.


(* ===================================================================== *)
(** * Properties of SubmitAttestation                                     *)
(* ===================================================================== *)

Module ClientProps.
Import Attester Client.

Section Services.

Context {Bits Domain AttestResponse DB : Type}.

Variable WeakSubjectivityPeriod : Z.
Variable FarFutureEpoch : Z.
Variable HashTreeRoot : AttestationData -> option (list Byte.byte).
Variable HashProto : AttestationData -> option Z.
Variable NewBitlist : Z -> Bits.
Variable SetBitAt : Bits -> Z -> bool -> Bits.
Variable AttestationHistory : DB -> list Byte.byte -> option Attester.AttestationHistory.
Variable SaveAttestationHistory :
  DB -> list Byte.byte -> Attester.AttestationHistory -> DB * bool.

Let isNewAttSlashable := isNewAttSlashable WeakSubjectivityPeriod FarFutureEpoch.
Let markAttestationForTargetEpoch :=
  markAttestationForTargetEpoch WeakSubjectivityPeriod FarFutureEpoch.
Let safeTargetToSource := safeTargetToSource WeakSubjectivityPeriod FarFutureEpoch.

(** SubmitAttestation with the attester protected. *)
Let SubmitAttestation :=
  @SubmitAttestation Bits Domain AttestResponse DB true WeakSubjectivityPeriod
    FarFutureEpoch HashTreeRoot HashProto NewBitlist SetBitAt AttestationHistory
    SaveAttestationHistory.
Let protectCheck :=
  @protectCheck DB true WeakSubjectivityPeriod FarFutureEpoch AttestationHistory.
Let protectMark :=
  @protectMark DB true WeakSubjectivityPeriod FarFutureEpoch AttestationHistory
    SaveAttestationHistory.

(** What a call that proposes an attestation has gone through. *)
Lemma SubmitAttestation_proposes (s : Services Bits Domain AttestResponse)
    (v : validator DB) slot pubKey (r : run Bits DB) (a : Attestation Bits) :
  SubmitAttestation s v slot pubKey = Some r ->
  a ∈ proposed r ->
  proposed r = [a] /\
  protectCheck v pubKey (Data a) = Proceed /\
  duties (after r) = duties v /\
  (is_Some (ProposeAttestation s a) ->
   db (after r) = db (fst (protectMark v pubKey (Data a)))) /\
  (ProposeAttestation s a = None -> after r = v /\ ended r = Returned).
Proof.
  unfold SubmitAttestation, Client.SubmitAttestation.
  fold protectCheck. fold protectMark.
  destruct (Validator.duty _ _) as [duty|msg]; [|by intros [= <-] ?%elem_of_nil].
  destruct (GetAttestationData _ _ _) as [data|]; [|by intros [= <-] ?%elem_of_nil].
  destruct (protectCheck v pubKey data) eqn:Hcheck; try discriminate;
    try (by intros [= <-] ?%elem_of_nil).
  destruct (signAtt _ _ _ _) as [sig| |]; try (by intros [= <-] ?%elem_of_nil).
  destruct (indexInCommittee _ _ _) as [index|]; [|by intros [= <-] ?%elem_of_nil].
  cbv zeta.
  set (a' := {| Data := data; AggregationBits := _; Signature := sig |}).
  assert (forall (v' : validator DB) e (r' : run Bits DB),
            r' = mkRun v' [a'] e -> a ∈ proposed r' -> a = a') as Hin.
  { intros v' e r' -> Ha. by apply list_elem_of_singleton in Ha. }
  destruct (ProposeAttestation s a') as [resp|] eqn:Hprop.
  - destruct (protectMark v pubKey data) as [v' c] eqn:Hmark.
    assert (duties v' = duties v) as Hd.
    { revert Hmark. unfold protectMark, Client.protectMark.
      destruct (AttestationHistory _ _); [|by intros [= <- _]].
      destruct (Source data), (Target data); try (by intros [= <- _]).
      destruct (SaveAttestationHistory _ _ _) as [d []]; by intros [= <- _]. }
    assert (forall (v'' : validator DB) e,
              duties v'' = duties v -> db v'' = db v' ->
              Some (mkRun v'' [a'] e) = Some r -> a ∈ proposed r ->
              proposed r = [a] /\ protectCheck v pubKey (Data a) = Proceed /\
              duties (after r) = duties v /\
              (is_Some (ProposeAttestation s a) ->
               db (after r) = db (fst (protectMark v pubKey (Data a)))) /\
              (ProposeAttestation s a = None -> after r = v /\ ended r = Returned)) as Hend.
    { intros v'' e Hd'' Hdb [= <-] Ha. apply list_elem_of_singleton in Ha as ->.
      rewrite Hprop. subst a'. cbn [proposed after Data]. by rewrite Hmark. }
    destruct c; [destruct (Validator.saveAttesterIndexToData _ _ _ _) as [logs|]|..];
      by apply Hend.
  - intros [= <-] Ha. apply list_elem_of_singleton in Ha as ->.
    cbn [proposed after ended]. split; [done|]. split; [exact Hcheck|]. split; [done|].
    rewrite Hprop. split; [by intros [? ?]|done].
Qed.

(** The attester being protected, a call proposes at most one attestation,
    and only one that isNewAttSlashable has cleared against the history the
    database holds for the key: the history could be read, the data has a
    source and a target, and isNewAttSlashable returned false on their
    epochs. *)
Theorem proposed_attestation_checked (s : Services Bits Domain AttestResponse)
    (v : validator DB) (slot : Z) (pubKey : list Byte.byte) (r : run Bits DB)
    (a : Attestation Bits) :
  SubmitAttestation s v slot pubKey = Some r ->
  a ∈ proposed r ->
  proposed r = [a] /\
  exists history source target,
    AttestationHistory (db v) pubKey = Some history /\
    Source (Data a) = Some source /\ Target (Data a) = Some target /\
    isNewAttSlashable history (Epoch source) (Epoch target) = Some false.
Proof.
  intros Hrun Ha.
  destruct (SubmitAttestation_proposes s v slot pubKey r a Hrun Ha) as (Hone & Hcheck & _).
  split; [exact Hone|].
  unfold protectCheck, Client.protectCheck in Hcheck. fold isNewAttSlashable in Hcheck.
  destruct (AttestationHistory (db v) pubKey) as [history|]; [|discriminate].
  destruct (Source (Data a)) as [source|]; [|discriminate].
  destruct (Target (Data a)) as [target|]; [|discriminate].
  exists history, source, target.
  destruct (isNewAttSlashable history (Epoch source) (Epoch target)) as [[]|];
    try discriminate. done.
Qed.

(** An attestation whose proposal the node answers with an error has been
    passed to the node all the same, and the call records nothing of it:
    the validator, with its database and its log, is as before the call,
    and a later call will not be checked against this attestation. *)
Theorem failed_proposal_not_recorded (s : Services Bits Domain AttestResponse)
    (v : validator DB) (slot : Z) (pubKey : list Byte.byte) (r : run Bits DB)
    (a : Attestation Bits) :
  SubmitAttestation s v slot pubKey = Some r ->
  a ∈ proposed r ->
  ProposeAttestation s a = None ->
  after r = v /\ ended r = Returned /\
  forall s' slot', SubmitAttestation s' (after r) slot' pubKey = SubmitAttestation s' v slot' pubKey.
Proof.
  intros Hrun Ha Hnone.
  destruct (SubmitAttestation_proposes s v slot pubKey r a Hrun Ha) as (_ & _ & _ & _ & Hv).
  destruct (Hv Hnone) as [-> ->]. by repeat split.
Qed.

(** A marked vote makes a conflicting one slashable: the same target, a
    vote surrounding the marked one, or one it surrounds. *)
Lemma marked_conflict history s1 t1 s2 t2 :
  0 < WeakSubjectivityPeriod < 2^62 ->
  0 <= LatestEpochWritten history < 2^63 ->
  0 <= t1 < 2^63 -> 0 <= t2 < 2^63 ->
  LatestEpochWritten history - WeakSubjectivityPeriod < t1 ->
  0 <= s2 -> s1 <> FarFutureEpoch ->
  conflicting WeakSubjectivityPeriod (LatestEpochWritten history) s1 t1 s2 t2 ->
  isNewAttSlashable (markAttestationForTargetEpoch history s1 t1) s2 t2 = Some true.
Proof.
  intros Hws Hl Ht1 Ht2 Hw Hs2 Hs1 Hc.
  unfold isNewAttSlashable, markAttestationForTargetEpoch.
  set (marked := Attester.markAttestationForTargetEpoch _ _ history s1 t1).
  assert (LatestEpochWritten marked = Z.max (LatestEpochWritten history) t1)
    as Hlm by apply SlashableProps.marked_latest.
  assert (Attester.safeTargetToSource WeakSubjectivityPeriod FarFutureEpoch marked t1 = s1)
    as Hsafe by (apply SlashableProps.marked_lookup; lia).
  assert (TargetToSource marked !! (t1 mod WeakSubjectivityPeriod) = Some s1) as Hslot
    by apply lookup_insert_eq.
  rewrite SlashableProps.isNewAttSlashable_closed;
    [|lia|change (2 ^ 64) with 18446744073709551616; lia
     |rewrite Hlm; change (2 ^ 64) with 18446744073709551616; lia].
  rewrite SlashableProps.pruned_plain by (rewrite ?Hlm; lia). rewrite Hlm.
  destruct Hc as [->|[(Hlt & Hin)|(Hlt & Hin & Hnear)]].
  - replace (t1 <=? Z.max (LatestEpochWritten history) t1 - WeakSubjectivityPeriod)
      with false by lia.
    rewrite Hsafe. by replace (s1 =? FarFutureEpoch) with false by lia.
  - replace (t2 <=? Z.max (LatestEpochWritten history) t1 - WeakSubjectivityPeriod)
      with false by lia.
    cbn [negb andb]. f_equal. apply orb_true_iff. left. apply orb_true_iff. right.
    apply SlashableProps.existsb_seqZ. exists t1. split; [lia|].
    unfold surroundsAt. rewrite Hsafe. unfold mapAt. rewrite Hslot. simpl default.
    apply andb_true_iff. split; [apply negb_true_iff|]; lia.
  - replace (t2 <=? Z.max (LatestEpochWritten history) t1 - WeakSubjectivityPeriod)
      with false by lia.
    cbn [negb andb]. f_equal. apply orb_true_iff. right.
    apply SlashableProps.existsb_seqZ. exists t1. split; [lia|].
    unfold surroundedAt. rewrite Hsafe. lia.
Qed.

(** Slashing protection, from one call to the next.  The attester being
    protected: when a call has proposed an attestation, the node has
    answered and the marked history has been saved, a later call for the
    same key proposes nothing, and changes nothing, if the data the node
    gives it conflicts with that attestation: the same target epoch, a vote
    surrounding it, or a vote it surrounds.  Epochs are below 2^63, and the
    target of the first attestation is less than a weak subjectivity
    period behind the latest epoch of the history. *)
Theorem conflicting_attestation_not_proposed
    (s1 s2 : Services Bits Domain AttestResponse) (v : validator DB) (slot1 slot2 : Z)
    (pubKey : list Byte.byte) (r1 : run Bits DB) (a1 : Attestation Bits)
    (history : Attester.AttestationHistory) (source1 target1 : Checkpoint) :
  0 < WeakSubjectivityPeriod < 2^62 ->
  (forall d k h, snd (SaveAttestationHistory d k h) = false ->
     AttestationHistory (fst (SaveAttestationHistory d k h)) k = Some h) ->
  AttestationHistory (db v) pubKey = Some history ->
  0 <= LatestEpochWritten history < 2^63 ->
  SubmitAttestation s1 v slot1 pubKey = Some r1 ->
  a1 ∈ proposed r1 ->
  is_Some (ProposeAttestation s1 a1) ->
  Source (Data a1) = Some source1 -> Target (Data a1) = Some target1 ->
  snd (SaveAttestationHistory (db v) pubKey
         (markAttestationForTargetEpoch history (Epoch source1) (Epoch target1))) = false ->
  Epoch source1 <> FarFutureEpoch ->
  0 <= Epoch target1 < 2^63 ->
  LatestEpochWritten history - WeakSubjectivityPeriod < Epoch target1 ->
  (forall committeeIndex data source target,
     GetAttestationData s2 slot2 committeeIndex = Some data ->
     Source data = Some source -> Target data = Some target ->
     0 <= Epoch source /\ 0 <= Epoch target < 2^63 /\
     conflicting WeakSubjectivityPeriod (LatestEpochWritten history)
       (Epoch source1) (Epoch target1) (Epoch source) (Epoch target)) ->
  exists r2, SubmitAttestation s2 (after r1) slot2 pubKey = Some r2 /\
    proposed r2 = [] /\ after r2 = after r1.
Proof.
  intros Hws Hlaw Hread Hl Hrun Ha Hresp Hsrc Htgt Hsaved Hfar Ht Hw Hdata.
  destruct (SubmitAttestation_proposes s1 v slot1 pubKey r1 a1 Hrun Ha)
    as (_ & _ & Hduties & Hdb & _).
  specialize (Hdb Hresp).
  assert (AttestationHistory (db (after r1)) pubKey
          = Some (markAttestationForTargetEpoch history (Epoch source1) (Epoch target1)))
    as Hread'.
  { rewrite Hdb. unfold protectMark, Client.protectMark.
    rewrite Hread, Hsrc, Htgt. fold markAttestationForTargetEpoch.
    specialize (Hlaw (db v) pubKey
                  (markAttestationForTargetEpoch history (Epoch source1) (Epoch target1))
                  Hsaved).
    destruct (SaveAttestationHistory _ _ _) as [d failed]. cbn [fst snd] in *.
    subst failed. exact Hlaw. }
  unfold SubmitAttestation, Client.SubmitAttestation. rewrite Hduties.
  destruct (Validator.duty _ _) as [duty|msg]; [|by eexists].
  destruct (GetAttestationData s2 slot2 _) as [data|] eqn:Hget; [|by eexists].
  unfold Client.protectCheck. rewrite Hread'.
  destruct (Source data) as [source|] eqn:Hs; [|by eexists].
  destruct (Target data) as [target|] eqn:Htg; [|by eexists].
  destruct (Hdata _ _ _ _ Hget Hs Htg) as (Hs2 & Ht2 & Hc).
  fold isNewAttSlashable. rewrite marked_conflict by done. by eexists.
Qed.

End Services.

Lemma proposed_attestation_checked_witness :
  exists r,
    someSubmit someServices someClient 160 someKey = Some r /\
    proposed r = [mkAttestation someData [false; true] [Byte.x01]] /\
    Attester.isNewAttSlashable 8 (2^64 - 1) (Attester.mkHistory ∅ 0) 3 5 = Some false.
Proof.
  eexists.
  assert (someSubmit someServices someClient 160 someKey = Some ?[r]) as Hrun
    by (vm_compute; reflexivity).
  match type of Hrun with
  | _ = Some ?r =>
      destruct (proposed_attestation_checked 8 (2^64 - 1)
                  (fun _ => Some []) (fun _ => Some 1)
                  (fun n => replicate (Z.to_nat n) false)
                  (fun bits i b => <[Z.to_nat i := b]> bits)
                  someRead someSave someServices someClient 160 someKey r
                  (mkAttestation someData [false; true] [Byte.x01])
                  Hrun ltac:(apply list_elem_of_here))
        as (Hone & history & source & target & Hread & Hs & Ht & Hcheck)
  end.
  split; [exact Hrun|]. split; [exact Hone|].
  injection Hread as <-. injection Hs as <-. injection Ht as <-. exact Hcheck.
Defined.

Lemma failed_proposal_not_recorded_witness :
  exists r,
    someSubmit deafServices someClient 160 someKey = Some r /\
    Data <$> proposed r = [someData] /\ after r = someClient /\
    (fun r' => Data <$> proposed r') <$> someSubmit otherServices (after r) 161 someKey
    = Some [otherData].
Proof.
  eexists.
  assert (someSubmit deafServices someClient 160 someKey = Some ?[r]) as Hrun
    by (vm_compute; reflexivity).
  match type of Hrun with
  | _ = Some ?r =>
      destruct (failed_proposal_not_recorded 8 (2^64 - 1)
                  (fun _ => Some []) (fun _ => Some 1)
                  (fun n => replicate (Z.to_nat n) false)
                  (fun bits i b => <[Z.to_nat i := b]> bits)
                  someRead someSave deafServices someClient 160 someKey r
                  (mkAttestation someData [false; true] [Byte.x01])
                  Hrun ltac:(apply list_elem_of_here) eq_refl)
        as (Hafter & _ & Hnext)
  end.
  split; [exact Hrun|]. split; [reflexivity|]. split; [exact Hafter|].
  unfold someSubmit. rewrite (Hnext otherServices 161). vm_compute. reflexivity.
Defined.

Lemma conflicting_attestation_not_proposed_witness :
  exists r1 r2,
    someSubmit someServices someClient 160 someKey = Some r1 /\
    Data <$> proposed r1 = [someData] /\
    someSubmit otherServices (after r1) 161 someKey = Some r2 /\
    proposed r2 = [].
Proof.
  eexists. 
  assert (someSubmit someServices someClient 160 someKey = Some ?[r1]) as Hrun
    by (vm_compute; reflexivity).
  match type of Hrun with
  | _ = Some ?r1 =>
      destruct (conflicting_attestation_not_proposed 8 (2^64 - 1)
                  (fun _ => Some []) (fun _ => Some 1)
                  (fun n => replicate (Z.to_nat n) false)
                  (fun bits i b => <[Z.to_nat i := b]> bits)
                  someRead someSave
                  someServices otherServices someClient 160 161 someKey r1
                  (mkAttestation someData [false; true] [Byte.x01])
                  (mkHistory ∅ 0) (mkCheckpoint 3 []) (mkCheckpoint 5 []))
        as (r2 & Hrun2 & Hnone & _)
  end.
  - lia.
  - intros d k h _. unfold someRead, someSave. cbn [fst].
    by rewrite bool_decide_eq_true_2.
  - reflexivity.
  - simpl. lia.
  - exact Hrun.
  - apply list_elem_of_here.
  - by eexists.
  - reflexivity.
  - reflexivity.
  - reflexivity.
  - discriminate.
  - simpl. lia.
  - simpl. lia.
  - intros ci data source target [= <-] [= <-] [= <-]. simpl.
    split; [lia|]. split; [lia|]. left. reflexivity.
  - exists r2. split; [exact Hrun|]. split; [reflexivity|]. split; [exact Hrun2|exact Hnone].
Defined.

End ClientProps.
